(** * MathHelper: the Discord rich-presence IPC client

    A shallow embedding of the [DiscordIpcClient] class hierarchy of
    [MathHelper-1.0-release.py] (lines 15-203): the base class and its
    Windows and Unix subclasses.

    The client is blocking, single-threaded Python.  Its methods are
    embedded as computations in a state-and-exception monad; the
    abstract methods of the base class ([_connect], [_write], [_recv],
    [_close]) are the fields of a type class, of which the Windows and
    the Unix client are instances over an interface of operating-system
    primitives.  The only loop without a bound, [_recv_exactly], takes
    fuel.  Calls of [logger] do not influence control flow and are left
    out. *)

From Stdlib Require Import ZArith List Bool Lia.
From Stdlib.Strings Require Import String Ascii Byte.
From Stdlib Require Import DecimalString.
From Stdlib Require Import Sorted Znumtheory Factorial.
Import ListNotations.
Local Open Scope string_scope.
Local Open Scope list_scope.
Local Open Scope Z_scope.

Set Implicit Arguments.
Local Set Warnings "-register-all".

(** ** Python values used by the client *)

(** [bytes] objects. *)
Definition bytes := list byte.

(** [len(b)] as a Python integer. *)
Definition len {A : Type} (l : list A) : Z := Z.of_nat (List.length l).

(** JSON-compatible Python values: what [json.loads] produces and what
    the client hands to [json.dumps].  A [dict] keeps its insertion
    order, which is the order [json.dumps] writes the keys in, so it is
    an association list (keys are unique in a well-formed dict).
    Numbers are the integers; the client builds no float. *)
Inductive JSON : Type :=
| JNull
| JBool (b : bool)
| JInt (z : Z)
| JStr (s : string)
| JList (items : list JSON)
| JDict (items : list (string * JSON)).

(** Exceptions the client can meet.  [OSError] stands for the class and
    all its subclasses, which is what [except OSError] catches. *)
Inductive exn : Type :=
| OSError (msg : string)
| AttributeError (attr : string)
| KeyError (key : string)
| TypeError (msg : string)
| StructError (msg : string)
| UnicodeDecodeError
| JSONDecodeError
| RuntimeError (payload : JSON)
| DiscordIpcError (msg : string)
| OtherError (name : string).

Definition is_OSError (e : exn) : bool :=
  match e with OSError _ => true | _ => false end.

(** Result of a primitive or pure operation that may raise. *)
Inductive res (A : Type) : Type :=
| Ok (a : A)
| Err (e : exn).
Arguments Ok {A} a.
Arguments Err {A} e.

(** ** The opcodes (lines 15-19) *)

Definition OP_HANDSHAKE : Z := 0.
Definition OP_FRAME : Z := 1.
Definition OP_CLOSE : Z := 2.
Definition OP_PING : Z := 3.
Definition OP_PONG : Z := 4.

(** ** [struct.pack("<II", ...)] and [struct.unpack("<II", ...)] *)

Module Struct.

Definition byte_of_Z (z : Z) : byte :=
  match Byte.of_N (Z.to_N (Z.land z 255)) with
  | Some b => b
  | None => x00
  end.

Definition Z_of_byte (b : byte) : Z := Z.of_N (Byte.to_N b).

(** One ["<I"] field: four bytes, least significant first. *)
Definition le32 (z : Z) : bytes :=
  [ byte_of_Z z;
    byte_of_Z (Z.shiftr z 8);
    byte_of_Z (Z.shiftr z 16);
    byte_of_Z (Z.shiftr z 24) ].

Fixpoint le_decode (bs : bytes) : Z :=
  match bs with
  | [] => 0
  | b :: rest => Z.lor (Z_of_byte b) (Z.shiftl (le_decode rest) 8)
  end.

Definition uint32 (z : Z) : bool := (0 <=? z) && (z <? 2 ^ 32).

(** The [struct.error] of one ["I"] field (CPython, where the C [long]
    has 64 bits): a value that does not convert to an [unsigned long],
    negative or from [2^64] on, is reported as out of range; a value
    that converts but does not fit the field is reported with the
    bounds of the format. *)
Definition field_error (z : Z) : exn :=
  if (z <? 0) || (2 ^ 64 <=? z)
  then StructError "argument out of range"
  else StructError "'I' format requires 0 <= number <= 4294967295".

(** The arguments are packed from left to right: the first one that is
    out of range raises. *)
Definition range_error (a b : Z) : exn :=
  if uint32 a then field_error b else field_error a.

(** [struct.pack("<II", a, b)]: raises [struct.error] when an argument
    is outside the range of an unsigned 32-bit integer. *)
Definition pack_II (a b : Z) : res bytes :=
  if uint32 a && uint32 b then Ok (le32 a ++ le32 b)
  else Err (range_error a b).

(** [struct.unpack("<II", buf)]: raises [struct.error] unless the
    buffer has exactly 8 bytes. *)
Definition unpack_II (buf : bytes) : res (Z * Z) :=
  if len buf =? 8
  then Ok (le_decode (firstn 4 buf), le_decode (skipn 4 buf))
  else Err (StructError "unpack requires a buffer of 8 bytes").

End Struct.

(** ** Subscription and comparison of JSON values *)

Module Py.

Fixpoint dict_get (items : list (string * JSON)) (k : string) : option JSON :=
  match items with
  | [] => None
  | (k', v) :: rest => if String.eqb k' k then Some v else dict_get rest k
  end.

(** [d[k]] for a string key [k]. *)
Definition getitem (d : JSON) (k : string) : res JSON :=
  match d with
  | JDict items =>
      match dict_get items k with
      | Some v => Ok v
      | None => Err (KeyError k)
      end
  | JList _ => Err (TypeError "list indices must be integers or slices, not str")
  | JStr _ => Err (TypeError "string indices must be integers")
  | JNull | JBool _ | JInt _ => Err (TypeError "object is not subscriptable")
  end.

(** [v == s] for a string literal [s]. *)
Definition eq_str (v : JSON) (s : string) : bool :=
  match v with
  | JStr s' => String.eqb s' s
  | _ => false
  end.

End Py.

(** ** Computations

    A method that always returns or raises is a computation [M S A] over
    the state [S]; a method that may loop without bound is a computation
    [Mf S A], which additionally can run out of fuel. *)

Inductive outcome (A : Type) : Type :=
| Ret (a : A)
| Raise (e : exn)
| OutOfFuel.
Arguments Ret {A} a.
Arguments Raise {A} e.
Arguments OutOfFuel {A}.

Definition M (S A : Type) : Type := S -> res A * S.
Definition Mf (S A : Type) : Type := S -> outcome A * S.

Module Eff.

Definition ret {S A} (a : A) : M S A := fun s => (Ok a, s).

Definition raise {S A} (e : exn) : M S A := fun s => (Err e, s).

Definition bind {S A B} (m : M S A) (k : A -> M S B) : M S B :=
  fun s =>
    match m s with
    | (Ok a, s') => k a s'
    | (Err e, s') => (Err e, s')
    end.

(** A pure operation that may raise. *)
Definition lift {S A} (r : res A) : M S A := fun s => (r, s).

(** [try: body] with the exception, if any, handed to the handlers. *)
Definition try {S A} (body : M S A) : M S (res A) :=
  fun s => let (r, s') := body s in (Ok r, s').

(** [try: body finally: final]: [final] runs on both exits of [body];
    an exception of [final] replaces the outcome of [body]. *)
Definition try_finally {S A} (body : M S A) (final : M S unit) : M S A :=
  fun s =>
    let (r, s') := body s in
    match final s' with
    | (Ok _, s'') => (r, s'')
    | (Err e, s'') => (Err e, s'')
    end.

Definition retf {S A} (a : A) : Mf S A := fun s => (Ret a, s).

Definition raisef {S A} (e : exn) : Mf S A := fun s => (Raise e, s).

Definition out_of_fuel {S A} : Mf S A := fun s => (OutOfFuel, s).

Definition bindf {S A B} (m : Mf S A) (k : A -> Mf S B) : Mf S B :=
  fun s =>
    match m s with
    | (Ret a, s') => k a s'
    | (Raise e, s') => (Raise e, s')
    | (OutOfFuel, s') => (OutOfFuel, s')
    end.

(** A computation that always returns or raises, run where fuel is
    threaded. *)
Definition total {S A} (m : M S A) : Mf S A :=
  fun s =>
    match m s with
    | (Ok a, s') => (Ret a, s')
    | (Err e, s') => (Raise e, s')
    end.

End Eff.

Declare Scope eff_scope.
Delimit Scope eff_scope with eff.
Notation "x <- m ;; k" := (Eff.bind m (fun x => k))
  (at level 61, m at next level, right associativity) : eff_scope.
Notation "m ;; k" := (Eff.bind m (fun _ => k))
  (at level 61, right associativity) : eff_scope.
Notation "x <~ m ;; k" := (Eff.bindf m (fun x => k))
  (at level 61, m at next level, right associativity) : eff_scope.
Local Open Scope eff_scope.

(** ** The interfaces the client is written against *)

(** The abstract methods of [DiscordIpcClient] (lines 52-54, 66-72,
    94-96).  [W] is the state they act on: the attributes a subclass
    keeps on [self] and the part of the operating system it talks to.
    [_connect] returns a Python value: [None] or an object. *)
Class DiscordIpcClient (W : Type) : Type := {
  _connect : M W (option exn);
  _write : bytes -> M W unit;
  _recv : Z -> M W bytes;
  _close : M W unit
}.

(** [json.dumps(..., separators=(',', ':'))], [str.encode('utf-8')],
    [bytes.decode('utf-8')] and [json.loads] of the Python library. *)
Class JsonLib : Type := {
  json_dumps : JSON -> string;
  utf8_encode : string -> bytes;
  utf8_decode : bytes -> res string;
  json_loads : string -> res JSON
}.

(** [os.getpid()] and [str(uuid.uuid4())]. *)
Class ProcEnv (W : Type) : Type := {
  os_getpid : W -> Z;
  uuid4_str : W -> string * W
}.

(** Calls of the abstract methods, recorded in program order. *)
Inductive call : Type :=
| CallConnect
| CallWrite (data : bytes)
| CallRecv (size : Z) (result : res bytes)
| CallClose.

(** A client object: the attribute [client_id] (unset before
    [__init__]), the state of the subclass, and the calls made so far. *)
Record client (W : Type) : Type := mkClient {
  client_id : option string;
  impl : W;
  calls : list call
}.

Definition new_client {W : Type} (w : W) : client W :=
  {| client_id := None; impl := w; calls := [] |}.

(** ** The base class (lines 28-134) *)

Section Client.

Context {W : Type} `{DiscordIpcClient W} `{JsonLib} `{ProcEnv W}.

(** Run a method of the subclass on [self] and record the call. *)
Definition invoke {A} (m : M W A) (c : res A -> call) : M (client W) A :=
  fun s =>
    let (r, w') := m (impl s) in
    (r, {| client_id := client_id s; impl := w'; calls := calls s ++ [c r] |}).

Definition call_connect : M (client W) (option exn) :=
  invoke _connect (fun _ => CallConnect).

Definition call_write (data : bytes) : M (client W) unit :=
  invoke (_write data) (fun _ => CallWrite data).

Definition call_recv (size : Z) : M (client W) bytes :=
  invoke (_recv size) (fun r => CallRecv size r).

Definition call_close : M (client W) unit :=
  invoke _close (fun _ => CallClose).

Definition get_client_id : M (client W) string :=
  fun s =>
    match client_id s with
    | Some cid => (Ok cid, s)
    | None => (Err (AttributeError "client_id"), s)
    end.

Definition set_client_id (cid : string) : M (client W) unit :=
  fun s => (Ok tt, {| client_id := Some cid; impl := impl s; calls := calls s |}).

Definition getpid : M (client W) Z :=
  fun s => (Ok (os_getpid (impl s)), s).

Definition uuid4 : M (client W) string :=
  fun s =>
    let (u, w') := uuid4_str (impl s) in
    (Ok u, {| client_id := client_id s; impl := w'; calls := calls s |}).

(** [_recv_exactly] (lines 78-85): the body of [while size_remaining]. *)
Fixpoint _recv_exactly_loop (fuel : nat) (buf : bytes) (size_remaining : Z)
  : Mf (client W) bytes :=
  if size_remaining =? 0 then Eff.retf buf
  else
    match fuel with
    | O => Eff.out_of_fuel
    | S fuel' =>
        chunk <~ Eff.total (call_recv size_remaining) ;;
        _recv_exactly_loop fuel' (buf ++ chunk) (size_remaining - len chunk)
    end.

Definition _recv_exactly (fuel : nat) (size : Z) : Mf (client W) bytes :=
  _recv_exactly_loop fuel [] size.

(** [_recv_header] (lines 74-76). *)
Definition _recv_header (fuel : nat) : Mf (client W) (Z * Z) :=
  header <~ _recv_exactly fuel 8 ;;
  Eff.total (Eff.lift (Struct.unpack_II header)).

(** The bytes [send] hands to [_write] (lines 110-112). *)
Definition encode_frame (data : JSON) (op : Z) : res bytes :=
  let data_str := json_dumps data in
  let data_bytes := utf8_encode data_str in
  match Struct.pack_II op (len data_bytes) with
  | Ok header => Ok (header ++ data_bytes)
  | Err e => Err e
  end.

(** [send] (lines 108-113). *)
Definition send (data : JSON) (op : Z) : M (client W) unit :=
  frame <- Eff.lift (encode_frame data op) ;;
  call_write frame.

(** [recv] (lines 115-124). *)
Definition recv (fuel : nat) : Mf (client W) (Z * JSON) :=
  hd <~ _recv_header fuel ;;
  let (op, length) := (hd : Z * Z) in
  payload <~ _recv_exactly fuel length ;;
  data_str <~ Eff.total (Eff.lift (utf8_decode payload)) ;;
  data <~ Eff.total (Eff.lift (json_loads data_str)) ;;
  Eff.retf (op, data).

(** [send_recv] (lines 104-106). *)
Definition send_recv (fuel : nat) (data : JSON) (op : Z) : Mf (client W) (Z * JSON) :=
  _ <~ Eff.total (send data op) ;;
  recv fuel.

(** [close] (lines 87-92). *)
Definition close : M (client W) unit :=
  Eff.try_finally (send (JDict []) OP_CLOSE) call_close.

(** The test of [_do_handshake] (line 59); [and] evaluates its
    operands from left to right and stops at the first false one. *)
Definition handshake_accepted (ret_op : Z) (ret_data : JSON) : res bool :=
  if ret_op =? OP_FRAME then
    match Py.getitem ret_data "cmd" with
    | Err e => Err e
    | Ok cmd =>
        if Py.eq_str cmd "DISPATCH" then
          match Py.getitem ret_data "evt" with
          | Err e => Err e
          | Ok evt => Ok (Py.eq_str evt "READY")
          end
        else Ok false
    end
  else Ok false.

(** The payload of the Handshake frame (line 57). *)
Definition hello (cid : string) : JSON :=
  JDict [("v", JInt 1); ("client_id", JStr cid)].

(** [_do_handshake] (lines 56-64). *)
Definition _do_handshake (fuel : nat) : Mf (client W) unit :=
  cid <~ Eff.total get_client_id ;;
  r <~ send_recv fuel (hello cid) OP_HANDSHAKE ;;
  let (ret_op, ret_data) := (r : Z * JSON) in
  ok <~ Eff.total (Eff.lift (handshake_accepted ret_op ret_data)) ;;
  if (ok : bool) then Eff.retf tt
  else
    _ <~ Eff.total (if ret_op =? OP_CLOSE then close else Eff.ret tt) ;;
    Eff.raisef (RuntimeError ret_data).

(** [__init__] (lines 40-44). *)
Definition __init__ (fuel : nat) (cid : string) : Mf (client W) unit :=
  _ <~ Eff.total (set_client_id cid) ;;
  _ <~ Eff.total call_connect ;;
  _do_handshake fuel.

(** The dict display of [set_activity] (lines 128-133). *)
Definition envelope (pid : Z) (act : JSON) (nonce : string) : JSON :=
  JDict [ ("cmd", JStr "SET_ACTIVITY");
          ("args", JDict [("pid", JInt pid); ("activity", act)]);
          ("nonce", JStr nonce) ].

(** [set_activity] (lines 126-134).  The dict display evaluates
    [os.getpid()] before [uuid.uuid4()]. *)
Definition set_activity (act : JSON) : M (client W) unit :=
  pid <- getpid ;;
  nonce <- uuid4 ;;
  let data := envelope pid act nonce in
  send data OP_FRAME.

End Client.

(** ** Payloads that are not in JSON form

    [send] passes its payload to [json.dumps], which accepts more than
    [json.loads] returns: a tuple is written as an array, and a key of
    a dict that is an [int] is written as the string of its digits.
    [value] has the Python values of this kind, [json_form] the JSON
    value whose document [json.dumps] writes for them, and [of_json]
    the Python value that [json.loads] builds for a document. *)

Module PyObj.

Inductive key : Type :=
| KStr (s : string)
| KInt (z : Z).

Inductive value : Type :=
| VNone
| VBool (b : bool)
| VInt (z : Z)
| VStr (s : string)
| VList (items : list value)
| VTuple (items : list value)
| VDict (items : list (key * value)).




End PyObj.


(** ** [str(uuid.uuid4())]

    [uuid.uuid4()] is [UUID(bytes=os.urandom(16), version=4)]: the
    sixteen bytes are read as an integer, most significant byte first,
    the two bits of the variant and the four bits of the version are
    overwritten, and [str] writes the integer as 32 hexadecimal digits
    in groups of 8, 4, 4, 4 and 12. *)

(** [os.getpid()] and [os.urandom(n)], which returns [n] bytes. *)
Class OsRandom (W : Type) : Type := {
  random_getpid : W -> Z;
  os_urandom : nat -> W -> bytes * W;
  os_urandom_length : forall n w, List.length (fst (os_urandom n w)) = n
}.

Module Uuid.

(** [int.from_bytes(bs)], big-endian. *)
Definition from_bytes (bs : bytes) : Z :=
  fold_left (fun acc b => acc * 256 + Struct.Z_of_byte b) bs 0.

(** [UUID.__init__] with [version=4]:
    [int &= ~(0xc000 << 48); int |= 0x8000 << 48;
     int &= ~(0xf000 << 64); int |= version << 76]. *)
Definition version4 (n : Z) : Z :=
  let n := Z.land n (Z.lnot (Z.shiftl 0xc000 48)) in
  let n := Z.lor n (Z.shiftl 0x8000 48) in
  let n := Z.land n (Z.lnot (Z.shiftl 0xf000 64)) in
  Z.lor n (Z.shiftl 4 76).

Definition hex_char (d : Z) : ascii :=
  match String.get (Z.to_nat d) "0123456789abcdef" with
  | Some c => c
  | None => "0"%char
  end.

(** The [k] last hexadecimal digits of [n], most significant first. *)
Fixpoint digits (k : nat) (n : Z) : list Z :=
  match k with
  | O => []
  | S k' => digits k' (n / 16) ++ [n mod 16]
  end.

(** ['%032x' % n] for an integer below [2^128]. *)
Definition hex32 (n : Z) : string :=
  string_of_list_ascii (map hex_char (digits 32 n)).

(** [hex[a:b]] and [hex[a:]]. *)
Definition slice (a b : nat) (s : string) : string :=
  String.substring a (b - a) s.

Definition slice_from (a : nat) (s : string) : string :=
  String.substring a (String.length s - a) s.

(** The five groups of [UUID.__str__]. *)
Definition grouped (hex : string) : string :=
  (slice 0 8 hex ++ "-" ++ slice 8 12 hex ++ "-" ++ slice 12 16 hex ++ "-"
     ++ slice 16 20 hex ++ "-" ++ slice_from 20 hex)%string.

Definition str (n : Z) : string := grouped (hex32 n).

(** [str(uuid.uuid4())] from the bytes of [os.urandom(16)]. *)
Definition uuid4 (random : bytes) : string :=
  str (version4 (from_bytes random)).

(** The environment of [set_activity] on a system with [os.urandom]. *)
Definition env {W : Type} `{OsRandom W} : ProcEnv W :=
  Build_ProcEnv random_getpid
    (fun w => (uuid4 (fst (os_urandom 16 w)), snd (os_urandom 16 w))).

End Uuid.

(** ** Operating-system primitives of the two subclasses *)

(** [open(path, "w+b")] and the methods of the file object it returns;
    a file object is named by a number. *)
Class FileSys (Sys : Type) : Type := {
  sys_open : string -> M Sys nat;
  file_write : nat -> bytes -> M Sys unit;
  file_flush : nat -> M Sys unit;
  file_read : nat -> Z -> M Sys bytes;
  file_close : nat -> M Sys unit
}.

(** [socket.socket(socket.AF_UNIX)] and the methods of the socket,
    [os.path.exists] and [os.environ.get]. *)
Class SocketSys (Sys : Type) : Type := {
  socket_new : M Sys nat;
  sock_connect : nat -> string -> M Sys unit;
  sock_sendall : nat -> bytes -> M Sys unit;
  sock_recv : nat -> Z -> M Sys bytes;
  sock_close : nat -> M Sys unit;
  path_exists : string -> Sys -> bool;
  environ_get : string -> Sys -> option string
}.

(** [os.getpid()] and [str(uuid.uuid4())] of the system. *)
Class ProcSys (Sys : Type) : Type := {
  sys_getpid : Sys -> Z;
  sys_uuid4 : Sys -> string * Sys
}.

(** Probes of connection candidates, recorded in program order. *)
Inductive probe : Type :=
| ProbeOpen (path : string)
| ProbeExists (path : string)
| ProbeConnect (path : string).

Module Str.

Definition of_nat (n : nat) : string := NilEmpty.string_of_uint (Nat.to_uint n).

(** [pattern.format(arg)] for one positional argument: the first
    [{}] is replaced, [{{] and [}}] stand for a brace, and any other
    use of a brace raises. *)
Fixpoint format_aux (pattern : string) (arg : option string) : res string :=
  match pattern with
  | EmptyString => Ok EmptyString
  | String "{" (String "{" rest) =>
      match format_aux rest arg with
      | Ok r => Ok (String "{" r)
      | Err e => Err e
      end
  | String "}" (String "}" rest) =>
      match format_aux rest arg with
      | Ok r => Ok (String "}" r)
      | Err e => Err e
      end
  | String "{" (String "}" rest) =>
      match arg with
      | Some a =>
          match format_aux rest None with
          | Ok r => Ok (a ++ r)%string
          | Err e => Err e
          end
      | None => Err (OtherError "IndexError")
      end
  | String "{" _ | String "}" _ => Err (OtherError "ValueError")
  | String c rest =>
      match format_aux rest arg with
      | Ok r => Ok (String c r)
      | Err e => Err e
      end
  end.

Definition format (pattern : string) (i : nat) : res string :=
  format_aux pattern (Some (of_nat i)).

Fixpoint ends_with_slash (s : string) : bool :=
  match s with
  | EmptyString => false
  | String c EmptyString => Ascii.eqb c "/"
  | String _ rest => ends_with_slash rest
  end.

(** [os.path.join(a, b)] of [posixpath] for a relative [b]. *)
Definition path_join (a b : string) : string :=
  match a with
  | EmptyString => b
  | _ => if ends_with_slash a then (a ++ b)%string else (a ++ "/" ++ b)%string
  end.

End Str.

(** ** [WinDiscordIpcClient] (lines 137-163) *)

Module Win.

Record state (Sys : Type) : Type := mkState {
  _f : option nat;
  path : option string;
  sys : Sys;
  probes : list probe
}.

Definition _pipe_pattern : string := "\\?\pipe\discord-ipc-{}".

(** The pipe of candidate [i], as [_pipe_pattern.format(i)] names it. *)
Definition candidate (i : nat) : string :=
  ("\\?\pipe\discord-ipc-" ++ Str.of_nat i)%string.

Section Methods.

Context {Sys : Type} `{FileSys Sys}.

Definition on_sys {A} (m : M Sys A) : M (state Sys) A :=
  fun s =>
    let (r, y) := m (sys s) in
    (r, {| _f := _f s; path := path s; sys := y; probes := probes s |}).

Definition record_probe (p : probe) : M (state Sys) unit :=
  fun s => (Ok tt, {| _f := _f s; path := path s; sys := sys s;
                      probes := probes s ++ [p] |}).

Definition get_f : M (state Sys) nat :=
  fun s =>
    match _f s with
    | Some f => (Ok f, s)
    | None => (Err (AttributeError "_f"), s)
    end.

Definition set_f (f : nat) : M (state Sys) unit :=
  fun s => (Ok tt, {| _f := Some f; path := path s; sys := sys s;
                      probes := probes s |}).

Definition set_path (p : string) : M (state Sys) unit :=
  fun s => (Ok tt, {| _f := _f s; path := Some p; sys := sys s;
                      probes := probes s |}).

(** The [for] loop of [_connect] (lines 142-149): [Some path] when it
    is left by [break], [None] when the candidates are exhausted. *)
Fixpoint connect_loop (candidates : list nat) : M (state Sys) (option string) :=
  match candidates with
  | [] => Eff.ret None
  | i :: rest =>
      p <- Eff.lift (Str.format _pipe_pattern i) ;;
      record_probe (ProbeOpen p) ;;
      r <- Eff.try (on_sys (sys_open p)) ;;
      match r with
      | Ok f => set_f f ;; Eff.ret (Some p)
      | Err e => if is_OSError e then connect_loop rest else Eff.raise e
      end
  end.

(** [_connect] (lines 141-153). *)
Definition _connect : M (state Sys) (option exn) :=
  r <- connect_loop (seq 0 10) ;;
  match r with
  | None => Eff.ret (Some (DiscordIpcError "Failed to connect to Discord pipe"))
  | Some p => set_path p ;; Eff.ret None
  end.

(** [_write] (lines 155-157). *)
Definition _write (data : bytes) : M (state Sys) unit :=
  f <- get_f ;;
  on_sys (file_write f data) ;;
  f' <- get_f ;;
  on_sys (file_flush f').

(** [_recv] (lines 159-160). *)
Definition _recv (size : Z) : M (state Sys) bytes :=
  f <- get_f ;;
  on_sys (file_read f size).

(** [_close] (lines 162-163). *)
Definition _close : M (state Sys) unit :=
  f <- get_f ;;
  on_sys (file_close f).

#[global] Instance client : DiscordIpcClient (state Sys) :=
  Build_DiscordIpcClient _connect _write _recv _close.

#[global] Instance env `{ProcSys Sys} : ProcEnv (state Sys) :=
  Build_ProcEnv
    (fun s => sys_getpid (sys s))
    (fun s => let (u, y) := sys_uuid4 (sys s) in
              (u, {| _f := _f s; path := path s; sys := y; probes := probes s |})).

End Methods.

End Win.

(** ** [UnixDiscordIpcClient] (lines 166-200) *)

Module Unix.

Record state (Sys : Type) : Type := mkState {
  _sock : option nat;
  sys : Sys;
  probes : list probe
}.

Section Methods.

Context {Sys : Type} `{SocketSys Sys}.

Definition on_sys {A} (m : M Sys A) : M (state Sys) A :=
  fun s =>
    let (r, y) := m (sys s) in
    (r, {| _sock := _sock s; sys := y; probes := probes s |}).

Definition record_probe (p : probe) : M (state Sys) unit :=
  fun s => (Ok tt, {| _sock := _sock s; sys := sys s; probes := probes s ++ [p] |}).

Definition get_sock : M (state Sys) nat :=
  fun s =>
    match _sock s with
    | Some k => (Ok k, s)
    | None => (Err (AttributeError "_sock"), s)
    end.

Definition set_sock (k : nat) : M (state Sys) unit :=
  fun s => (Ok tt, {| _sock := Some k; sys := sys s; probes := probes s |}).

Definition exists_ (p : string) : M (state Sys) bool :=
  fun s => (Ok (path_exists p (sys s)), s).

(** The [for] loop over [env_keys] of [_get_pipe_pattern] (lines
    188-193); [if dir_path] rejects [None] and the empty string. *)
Fixpoint first_dir (env_keys : list string) (y : Sys) : string :=
  match env_keys with
  | [] => "/tmp"
  | env_key :: rest =>
      match environ_get env_key y with
      | Some (String c d) => String c d
      | Some EmptyString | None => first_dir rest y
      end
  end.

(** [_get_pipe_pattern] (lines 185-194). *)
Definition _get_pipe_pattern : M (state Sys) string :=
  fun s =>
    let dir_path := first_dir ["XDG_RUNTIME_DIR"; "TMPDIR"; "TMP"; "TEMP"] (sys s) in
    (Ok (Str.path_join dir_path "discord-ipc-{}"), s).

(** The [for] loop of [_connect] (lines 172-181): [true] when it is
    left by [break], [false] when the candidates are exhausted. *)
Fixpoint connect_loop (pipe_pattern : string) (candidates : list nat)
  : M (state Sys) bool :=
  match candidates with
  | [] => Eff.ret false
  | i :: rest =>
      p <- Eff.lift (Str.format pipe_pattern i) ;;
      record_probe (ProbeExists p) ;;
      present <- exists_ p ;;
      if (present : bool) then
        k <- get_sock ;;
        record_probe (ProbeConnect p) ;;
        r <- Eff.try (on_sys (sock_connect k p)) ;;
        match r with
        | Ok _ => Eff.ret true
        | Err e => if is_OSError e then connect_loop pipe_pattern rest
                   else Eff.raise e
        end
      else connect_loop pipe_pattern rest
  end.

(** [_connect] (lines 168-183). *)
Definition _connect : M (state Sys) (option exn) :=
  k <- on_sys socket_new ;;
  set_sock k ;;
  pipe_pattern <- _get_pipe_pattern ;;
  found <- connect_loop pipe_pattern (seq 0 10) ;;
  if (found : bool) then Eff.ret None
  else Eff.ret (Some (DiscordIpcError "Failed to connect to Discord pipe")).

(** [_write] (lines 196-197). *)
Definition _write (data : bytes) : M (state Sys) unit :=
  k <- get_sock ;;
  on_sys (sock_sendall k data).

(** [_recv] (lines 199-200). *)
Definition _recv (size : Z) : M (state Sys) bytes :=
  k <- get_sock ;;
  on_sys (sock_recv k size).

(** [_close] (lines 202-203). *)
Definition _close : M (state Sys) unit :=
  k <- get_sock ;;
  on_sys (sock_close k).

#[global] Instance client : DiscordIpcClient (state Sys) :=
  Build_DiscordIpcClient _connect _write _recv _close.

#[global] Instance env `{ProcSys Sys} : ProcEnv (state Sys) :=
  Build_ProcEnv
    (fun s => sys_getpid (sys s))
    (fun s => let (u, y) := sys_uuid4 (sys s) in
              (u, {| _sock := _sock s; sys := y; probes := probes s |})).

End Methods.

End Unix.

(** ** Instances for tests

    A scripted transport, a JSON codec and an operating system with a
    fixed set of reachable candidates, on which the methods above can
    be run. *)

Module Script.

(** The peer's bytes arrive in segments; a read returns bytes of the
    first segment only, and an empty [inbox] reads as end of file. *)
Record state : Type := mkState {
  inbox : list bytes;
  outbox : list bytes;
  write_error : option exn;
  close_error : option exn;
  closed : nat;
  pid : Z;
  uuid_seed : nat
}.

Definition quiet (segments : list bytes) : state :=
  {| inbox := segments; outbox := []; write_error := None; close_error := None;
     closed := 0; pid := 4242; uuid_seed := 0 |}.

Definition broken (e : exn) (segments : list bytes) : state :=
  {| inbox := segments; outbox := []; write_error := Some e; close_error := None;
     closed := 0; pid := 4242; uuid_seed := 0 |}.

(** A transport that can neither be written to nor closed quietly. *)
Definition jammed (e e' : exn) : state :=
  {| inbox := []; outbox := []; write_error := Some e; close_error := Some e';
     closed := 0; pid := 4242; uuid_seed := 0 |}.

Definition write (data : bytes) : M state unit :=
  fun s =>
    match write_error s with
    | Some e => (Err e, s)
    | None =>
        (Ok tt, {| inbox := inbox s; outbox := outbox s ++ [data];
                   write_error := write_error s; close_error := close_error s;
                   closed := closed s; pid := pid s; uuid_seed := uuid_seed s |})
    end.

Definition with_inbox (s : state) (segments : list bytes) : state :=
  {| inbox := segments; outbox := outbox s;
     write_error := write_error s; close_error := close_error s;
     closed := closed s; pid := pid s; uuid_seed := uuid_seed s |}.

Definition read (size : Z) : M state bytes :=
  fun s =>
    if size <? 0 then (Err (OtherError "ValueError"), s)
    else
      match inbox s with
      | [] => (Ok [], s)
      | seg :: rest =>
          if len seg <=? size then (Ok seg, with_inbox s rest)
          else (Ok (firstn (Z.to_nat size) seg),
                with_inbox s (skipn (Z.to_nat size) seg :: rest))
      end.

Definition shut : M state unit :=
  fun s =>
    let s' := {| inbox := inbox s; outbox := outbox s;
                 write_error := write_error s; close_error := close_error s;
                 closed := S (closed s); pid := pid s; uuid_seed := uuid_seed s |} in
    match close_error s with
    | Some e => (Err e, s')
    | None => (Ok tt, s')
    end.

Definition next_uuid (s : state) : string * state :=
  (("00000000-0000-4000-8000-" ++ Str.of_nat (uuid_seed s))%string,
   {| inbox := inbox s; outbox := outbox s;
      write_error := write_error s; close_error := close_error s;
      closed := closed s; pid := pid s; uuid_seed := S (uuid_seed s) |}).

#[global] Instance client : DiscordIpcClient state :=
  Build_DiscordIpcClient (Eff.ret None) write read shut.

#[global] Instance env : ProcEnv state :=
  Build_ProcEnv pid next_uuid.

End Script.

(** A transport that keeps what is written to it, on a system whose
    random source is scripted: each call of [os.urandom] returns the
    next entry of [rolls], cut or filled up with zero bytes to the
    length asked for. *)
Module Dice.

Record state : Type := mkState {
  rolls : list bytes;
  sent : list bytes
}.

Definition start (rolls : list bytes) : state :=
  {| rolls := rolls; sent := [] |}.

Definition write (data : bytes) : M state unit :=
  fun s => (Ok tt, {| rolls := rolls s; sent := sent s ++ [data] |}).

Definition read (size : Z) : M state bytes :=
  fun s => (Ok [], s).

Definition urandom (n : nat) (s : state) : bytes * state :=
  (firstn n (hd [] (rolls s) ++ repeat "000"%byte n),
   {| rolls := tl (rolls s); sent := sent s |}).

Definition urandom_length (n : nat) (s : state) :
  List.length (fst (urandom n s)) = n.
Proof.
  unfold urandom. cbn [fst].
  rewrite length_firstn, length_app, repeat_length. lia.
Qed.

#[global] Instance client : DiscordIpcClient state :=
  Build_DiscordIpcClient (Eff.ret None) write read (Eff.ret tt).

#[global] Instance random : OsRandom state :=
  Build_OsRandom (fun _ => 4242) urandom urandom_length.

#[global] Instance env : ProcEnv state := Uuid.env.



End Dice.

Module MiniJson.

(** A codec for the documents of the tests: [null], [true], [false],
    integers, arrays, objects and strings of printable ASCII
    characters, in which only the quote and the backslash are
    escaped.  Other documents are rejected. *)

Definition quote_char : ascii := "034"%char.
Definition backslash : ascii := "\"%char.

Fixpoint escape (s : string) : string :=
  match s with
  | EmptyString => EmptyString
  | String c rest =>
      if Ascii.eqb c quote_char || Ascii.eqb c backslash
      then String backslash (String c (escape rest))
      else String c (escape rest)
  end.

Definition quoted (s : string) : string :=
  String quote_char (escape s ++ String quote_char EmptyString)%string.

Definition of_Z (z : Z) : string := NilEmpty.string_of_int (Z.to_int z).

Fixpoint dumps (v : JSON) : string :=
  match v with
  | JNull => "null"
  | JBool true => "true"
  | JBool false => "false"
  | JInt z => of_Z z
  | JStr s => quoted s
  | JList items => ("[" ++ String.concat "," (map dumps items) ++ "]")%string
  | JDict items =>
      ("{" ++ String.concat ","
                (map (fun kv => (quoted (fst kv) ++ ":" ++ dumps (snd kv))%string) items)
           ++ "}")%string
  end.

Definition is_ws (c : ascii) : bool :=
  Ascii.eqb c " " || Ascii.eqb c "009" || Ascii.eqb c "010" || Ascii.eqb c "013".

Fixpoint skip_ws (s : string) : string :=
  match s with
  | String c rest => if is_ws c then skip_ws rest else s
  | EmptyString => s
  end.

Fixpoint strip_prefix (p s : string) : option string :=
  match p, s with
  | EmptyString, _ => Some s
  | String c p', String d s' => if Ascii.eqb c d then strip_prefix p' s' else None
  | String _ _, EmptyString => None
  end.

Definition digit (c : ascii) : option Z :=
  let n := Z.of_nat (nat_of_ascii c) in
  if (48 <=? n) && (n <=? 57) then Some (n - 48) else None.

Fixpoint digits (acc : Z) (s : string) : Z * string :=
  match s with
  | String c rest =>
      match digit c with
      | Some d => digits (10 * acc + d) rest
      | None => (acc, s)
      end
  | EmptyString => (acc, s)
  end.

Definition starts_fraction (s : string) : bool :=
  match s with
  | String c _ => Ascii.eqb c "." || Ascii.eqb c "e" || Ascii.eqb c "E"
  | EmptyString => false
  end.

(** An integer without sign: no leading zero, no fraction or exponent. *)
Definition natural (s : string) : option (Z * string) :=
  match s with
  | String c rest =>
      match digit c with
      | Some 0 =>
          match rest with
          | String c' _ =>
              match digit c' with
              | Some _ => None
              | None => if starts_fraction rest then None else Some (0, rest)
              end
          | EmptyString => Some (0, rest)
          end
      | Some d =>
          let (n, rest') := digits d rest in
          if starts_fraction rest' then None else Some (n, rest')
      | None => None
      end
  | EmptyString => None
  end.

(** The characters of a string literal after its opening quote. *)
Fixpoint literal (s : string) : option (string * string) :=
  match s with
  | EmptyString => None
  | String c rest =>
      if Ascii.eqb c quote_char then Some (EmptyString, rest)
      else if Ascii.eqb c backslash then
        match rest with
        | String e rest' =>
            if Ascii.eqb e quote_char || Ascii.eqb e backslash then
              match literal rest' with
              | Some (t, r) => Some (String e t, r)
              | None => None
              end
            else None
        | EmptyString => None
        end
      else
        match literal rest with
        | Some (t, r) => Some (String c t, r)
        | None => None
        end
  end.

(** Insertion into a [dict]: a key met again keeps its place and
    takes the new value. *)
Fixpoint dict_set (items : list (string * JSON)) (k : string) (v : JSON)
  : list (string * JSON) :=
  match items with
  | [] => [(k, v)]
  | (k', v') :: rest =>
      if String.eqb k' k then (k', v) :: rest else (k', v') :: dict_set rest k v
  end.

Fixpoint value (fuel : nat) (s : string) {struct fuel} : option (JSON * string) :=
  match fuel with
  | O => None
  | S fuel' =>
      let s := skip_ws s in
      match s with
      | EmptyString => None
      | String c rest =>
          if Ascii.eqb c "n" then option_map (pair JNull) (strip_prefix "ull" rest)
          else if Ascii.eqb c "t" then option_map (pair (JBool true)) (strip_prefix "rue" rest)
          else if Ascii.eqb c "f" then option_map (pair (JBool false)) (strip_prefix "alse" rest)
          else if Ascii.eqb c quote_char then
            match literal rest with
            | Some (t, r) => Some (JStr t, r)
            | None => None
            end
          else if Ascii.eqb c "-" then
            match natural rest with
            | Some (n, r) => Some (JInt (- n), r)
            | None => None
            end
          else if Ascii.eqb c "[" then
            match skip_ws rest with
            | String d r =>
                if Ascii.eqb d "]" then Some (JList [], r)
                else
                  match elements fuel' rest with
                  | Some (vs, r') => Some (JList vs, r')
                  | None => None
                  end
            | EmptyString => None
            end
          else if Ascii.eqb c "{" then
            match skip_ws rest with
            | String d r =>
                if Ascii.eqb d "}" then Some (JDict [], r)
                else
                  match members fuel' [] rest with
                  | Some (kvs, r') => Some (JDict kvs, r')
                  | None => None
                  end
            | EmptyString => None
            end
          else
            match natural s with
            | Some (n, r) => Some (JInt n, r)
            | None => None
            end
      end
  end
with elements (fuel : nat) (s : string) {struct fuel} : option (list JSON * string) :=
  match fuel with
  | O => None
  | S fuel' =>
      match value fuel' s with
      | Some (v, r) =>
          match skip_ws r with
          | String c r' =>
              if Ascii.eqb c "," then
                match elements fuel' r' with
                | Some (vs, r'') => Some (v :: vs, r'')
                | None => None
                end
              else if Ascii.eqb c "]" then Some ([v], r')
              else None
          | EmptyString => None
          end
      | None => None
      end
  end
with members (fuel : nat) (acc : list (string * JSON)) (s : string) {struct fuel}
  : option (list (string * JSON) * string) :=
  match fuel with
  | O => None
  | S fuel' =>
      match skip_ws s with
      | String q r0 =>
          if Ascii.eqb q quote_char then
            match literal r0 with
            | Some (k, r1) =>
                match skip_ws r1 with
                | String c r2 =>
                    if Ascii.eqb c ":" then
                      match value fuel' r2 with
                      | Some (v, r3) =>
                          let acc' := dict_set acc k v in
                          match skip_ws r3 with
                          | String d r4 =>
                              if Ascii.eqb d "," then members fuel' acc' r4
                              else if Ascii.eqb d "}" then Some (acc', r4)
                              else None
                          | EmptyString => None
                          end
                      | None => None
                      end
                    else None
                | EmptyString => None
                end
            | None => None
            end
          else None
      | EmptyString => None
      end
  end.

Definition loads (s : string) : res JSON :=
  match value (2 * String.length s + 2) s with
  | Some (v, rest) =>
      match skip_ws rest with
      | EmptyString => Ok v
      | String _ _ => Err JSONDecodeError
      end
  | None => Err JSONDecodeError
  end.

Definition encode (s : string) : bytes := list_byte_of_string s.

Definition is_ascii7 (b : byte) : bool := (Z.of_N (Byte.to_N b) <? 128).

Definition decode (b : bytes) : res string :=
  if forallb is_ascii7 b then Ok (string_of_list_byte b) else Err UnicodeDecodeError.

#[global] Instance lib : JsonLib := Build_JsonLib dumps encode decode loads.

End MiniJson.

Module FakeSys.

(** An operating system given by the pipes that can be opened, the
    socket paths that exist, those that accept a connection, and the
    environment. *)
Record state : Type := mkState {
  pipes : list string;
  sockets : list string;
  listening : list string;
  environ : list (string * string);
  connected : bool
}.

Definition mem (p : string) (l : list string) : bool := existsb (String.eqb p) l.

Fixpoint lookup (env : list (string * string)) (k : string) : option string :=
  match env with
  | [] => None
  | (k', v) :: rest => if String.eqb k' k then Some v else lookup rest k
  end.

Definition open (p : string) : M state nat :=
  fun s =>
    if mem p (pipes s) then (Ok 3%nat, s)
    else (Err (OSError "No such file or directory"), s).

Definition connect (k : nat) (p : string) : M state unit :=
  fun s =>
    if mem p (listening s)
    then (Ok tt, {| pipes := pipes s; sockets := sockets s; listening := listening s;
                    environ := environ s; connected := true |})
    else (Err (OSError "Connection refused"), s).

Definition sendall (k : nat) (data : bytes) : M state unit :=
  fun s =>
    if connected s then (Ok tt, s)
    else (Err (OSError "Transport endpoint is not connected"), s).

#[global] Instance files : FileSys state :=
  Build_FileSys open
    (fun _ _ => Eff.ret tt) (fun _ => Eff.ret tt)
    (fun _ _ => Eff.ret []) (fun _ => Eff.ret tt).

#[global] Instance socks : SocketSys state :=
  Build_SocketSys (Eff.ret 3%nat) connect sendall
    (fun _ _ => Eff.ret []) (fun _ => Eff.ret tt)
    (fun p s => mem p (sockets s))
    (fun k s => lookup (environ s) k).

(** No pipe, no socket, an empty environment. *)
Definition desert : state :=
  {| pipes := []; sockets := []; listening := []; environ := []; connected := false |}.

(** Sockets exist under [/tmp] for all ten candidates and none accepts. *)
Definition deaf : state :=
  {| pipes := [];
     sockets := map (fun i => ("/tmp/discord-ipc-" ++ Str.of_nat i)%string) (seq 0 10);
     listening := []; environ := []; connected := false |}.

End FakeSys.

Module Fixtures.

(** The application identifier of [discord_rpc] (line 258). *)
Definition app_id : string := "797139388513386546".

(** A frame as the peer would write it. *)
Definition frame_of (op : Z) (data : JSON) : bytes :=
  let payload := MiniJson.encode (MiniJson.dumps data) in
  Struct.le32 op ++ Struct.le32 (len payload) ++ payload.

(** A client after [self.client_id = client_id]. *)
Definition named {W : Type} (w : W) : client W :=
  {| client_id := Some app_id; impl := w; calls := [] |}.

(** The answer of a peer that accepts the handshake (line 58). *)
Definition ready : JSON :=
  JDict [ ("cmd", JStr "DISPATCH");
          ("data", JDict [("v", JInt 1); ("config", JDict [])]);
          ("evt", JStr "READY");
          ("nonce", JNull) ].

(** An answer with another event. *)
Definition not_ready : JSON :=
  JDict [ ("cmd", JStr "DISPATCH"); ("evt", JStr "ERROR") ].

(** The payload of a Close frame of the peer. *)
Definition rejected : JSON :=
  JDict [ ("code", JInt 4000); ("message", JStr "Invalid Client ID") ].

(** The activity of the main menu (lines 229-236), in ASCII. *)
Definition activity : JSON :=
  JDict [ ("state", JStr "v1.0-beta (dev)");
          ("details", JStr "main menu");
          ("assets", JDict [ ("large_text", JStr "MathHelper");
                             ("large_image", JStr "icon") ]) ].

(** A new Windows client on a system without pipes. *)
Definition stranded : client (Win.state FakeSys.state) :=
  new_client {| Win._f := None; Win.path := None;
                Win.sys := FakeSys.desert; Win.probes := [] |}.

(** A new Unix client on a system whose sockets refuse. *)
Definition unheard : client (Unix.state FakeSys.state) :=
  new_client {| Unix._sock := None; Unix.sys := FakeSys.deaf; Unix.probes := [] |}.

End Fixtures.

(** ** Behaviours of a transport and observations on the recorded calls *)

Section Behaviours.

Context {W : Type} `{DiscordIpcClient W}.

(** The peer has closed: every read returns zero bytes and leaves the
    transport as it is. *)
Definition at_eof (w : W) : Prop :=
  forall size, 0 < size -> _recv size w = (Ok [], w).

(** The reads of the transport in state [w] deliver the bytes [bs] in
    order: a read of a positive size returns at least one and at most
    [size] of the bytes that are left. *)
Inductive feeds : W -> bytes -> Prop :=
| feeds_done w : feeds w []
| feeds_read w b bs :
    (forall size, 0 < size ->
       exists chunk w',
         _recv size w = (Ok chunk, w') /\
         chunk <> [] /\ len chunk <= size /\
         exists rest, b :: bs = chunk ++ rest /\ feeds w' rest) ->
    feeds w (b :: bs).

End Behaviours.

(** From the state [y] on, none of the pipes of [candidates], tried in
    order, can be opened: each [open] raises an [OSError]. *)
Fixpoint no_pipe {Sys : Type} `{FileSys Sys} (candidates : list nat) (y : Sys) : Prop :=
  match candidates with
  | [] => True
  | i :: rest =>
      exists msg y',
        sys_open (Win.candidate i) y = (Err (OSError msg), y') /\ no_pipe rest y'
  end.

(** From the state [y] on, each of [candidates], tried in order under
    [pipe_pattern], is a path that does not exist or a socket that
    refuses the connection of socket [k]. *)
Fixpoint no_listener {Sys : Type} `{SocketSys Sys} (pipe_pattern : string) (k : nat)
         (candidates : list nat) (y : Sys) : Prop :=
  match candidates with
  | [] => True
  | i :: rest =>
      exists p,
        Str.format pipe_pattern i = Ok p /\
        (if path_exists p y
         then exists msg y',
                sock_connect k p y = (Err (OSError msg), y') /\
                no_listener pipe_pattern k rest y'
         else no_listener pipe_pattern k rest y)
  end.

Definition is_probe_exists (p : probe) : bool :=
  match p with ProbeExists _ => true | _ => false end.

(** How many candidate paths have been tested for existence. *)
Definition exists_probes (ps : list probe) : nat :=
  List.length (filter is_probe_exists ps).

Definition is_close (c : call) : bool :=
  match c with CallClose => true | _ => false end.

(** How many times [_close] has been invoked. *)
Definition close_calls (cs : list call) : nat :=
  List.length (filter is_close cs).

(** The arguments of the calls of [_write], in order. *)
Fixpoint written (cs : list call) : list bytes :=
  match cs with
  | [] => []
  | CallWrite data :: rest => data :: written rest
  | _ :: rest => written rest
  end.

(** The chunks returned by the calls of [_recv], in order. *)
Fixpoint chunks (cs : list call) : list bytes :=
  match cs with
  | [] => []
  | CallRecv _ (Ok chunk) :: rest => chunk :: chunks rest
  | _ :: rest => chunks rest
  end.

(** ** The context manager and the publisher (lines 98-102, 256-264) *)

Section Session.

Context {W : Type} `{DiscordIpcClient W} `{JsonLib} `{ProcEnv W}.




(** The [while True] loop of [discord_rpc] (lines 262-264).  The global
    [activity] is read anew at each turn: [activity turn] is its value
    at that turn.  [time.sleep] is left out. *)
Fixpoint publish_loop (fuel : nat) (activity : nat -> JSON) (turn : nat)
  : Mf (client W) unit :=
  match fuel with
  | O => Eff.out_of_fuel
  | S fuel' =>
      _ <~ Eff.total (set_activity (activity turn)) ;;
      publish_loop fuel' activity (S turn)
  end.

(** The state after [k] turns of the loop that all succeed, if they do. *)
Fixpoint after_turns (k : nat) (activity : nat -> JSON) (turn : nat) (s : client W)
  : option (client W) :=
  match k with
  | O => Some s
  | S k' =>
      match set_activity (activity turn) s with
      | (Ok _, s1) => after_turns k' activity (S turn) s1
      | (Err _, _) => None
      end
  end.

(** [discord_rpc] (lines 256-264), on the client that [for_platform]
    has chosen. *)
Definition discord_rpc (fuel : nat) (activity : nat -> JSON) : Mf (client W) unit :=
  _ <~ __init__ fuel "797139388513386546" ;;
  publish_loop fuel activity 0.

End Session.

(** ** Environments of the connection loops *)

(** The opens of the pipes of [candidates], tried in order from the
    state [y], all raise an [OSError] and leave the system in [y']. *)
Fixpoint pipes_refused {Sys : Type} `{FileSys Sys} (candidates : list nat) (y y' : Sys)
  : Prop :=
  match candidates with
  | [] => y' = y
  | i :: rest =>
      exists msg y1,
        sys_open (Win.candidate i) y = (Err (OSError msg), y1) /\
        pipes_refused rest y1 y'
  end.

(** [passed pattern k candidates y y' ps]: from the state [y], each of
    [candidates], in order, is a path that does not exist or a socket
    that refuses socket [k] with an [OSError]; the system is left in
    [y'] and [ps] are the probes this takes. *)
Inductive passed {Sys : Type} `{SocketSys Sys} (pipe_pattern : string) (k : nat)
  : list nat -> Sys -> Sys -> list probe -> Prop :=
| passed_nil y : passed pipe_pattern k [] y y []
| passed_absent i rest p y y' ps :
    Str.format pipe_pattern i = Ok p ->
    path_exists p y = false ->
    passed pipe_pattern k rest y y' ps ->
    passed pipe_pattern k (i :: rest) y y' (ProbeExists p :: ps)
| passed_refused i rest p msg y y1 y' ps :
    Str.format pipe_pattern i = Ok p ->
    path_exists p y = true ->
    sock_connect k p y = (Err (OSError msg), y1) ->
    passed pipe_pattern k rest y1 y' ps ->
    passed pipe_pattern k (i :: rest) y y' (ProbeExists p :: ProbeConnect p :: ps).

(** A transport without end: each read returns up to three zero bytes. *)
Module Drip.

Definition read (size : Z) : M nat bytes :=
  fun reads =>
    if size <? 0 then (Err (OtherError "ValueError"), reads)
    else (Ok (repeat x00 (Z.to_nat (Z.min size 3))), S reads).

#[global] Instance client : DiscordIpcClient nat :=
  Build_DiscordIpcClient (Eff.ret None) (fun _ => Eff.ret tt) read (Eff.ret tt).

End Drip.

(** A system on which the third [open] is interrupted: the first two
    raise an [OSError], every later one an exception of another class.
    The state counts the calls of [open]. *)
Module Interrupt.

Definition open (p : string) : M nat nat :=
  fun opens =>
    if (opens <? 2)%nat then (Err (OSError "No such file or directory"), S opens)
    else (Err (OtherError "KeyboardInterrupt"), S opens).

#[global] Instance files : FileSys nat :=
  Build_FileSys open
    (fun _ _ => Eff.ret tt) (fun _ => Eff.ret tt)
    (fun _ _ => Eff.ret []) (fun _ => Eff.ret tt).

End Interrupt.

(** ** The settings (lines 207-225, 244-249, 977-997) *)

(** The part of Python's regular expressions that [is_correct_hex]
    uses: a character, a set of character ranges, a sequence, and a
    bounded repetition. *)
Module Re.

Inductive regex : Type :=
| Chr (c : ascii)
| Class (ranges : list (ascii * ascii))
| Seq (r1 r2 : regex)
| Rep (r : regex) (lo hi : nat).

Definition in_range (c : ascii) (range : ascii * ascii) : bool :=
  (nat_of_ascii (fst range) <=? nat_of_ascii c)%nat
  && (nat_of_ascii c <=? nat_of_ascii (snd range))%nat.

Definition in_ranges (c : ascii) (ranges : list (ascii * ascii)) : bool :=
  existsb (in_range c) ranges.

(** [rep step lo hi s]: what is left of [s] after between [lo] and
    [hi] matches in a row, [step] giving what is left after one. *)
Fixpoint rep (step : string -> list string) (lo hi : nat) (s : string) : list string :=
  match hi with
  | O => match lo with O => [s] | S _ => [] end
  | S hi' =>
      match lo with O => [s] | S _ => [] end
      ++ flat_map (rep step (pred lo) hi') (step s)
  end.

(** [ends r s]: what is left of [s] after each way to match [r] at its
    start. *)
Fixpoint ends (r : regex) (s : string) : list string :=
  match r with
  | Chr c =>
      match s with
      | String d t => if Ascii.eqb c d then [t] else []
      | EmptyString => []
      end
  | Class ranges =>
      match s with
      | String d t => if in_ranges d ranges then [t] else []
      | EmptyString => []
      end
  | Seq r1 r2 => flat_map (ends r2) (ends r1 s)
  | Rep r lo hi => rep (ends r) lo hi s
  end.

(** Where [$] matches: at the end of the string, and before a newline
    that ends the string. *)
Definition at_end (s : string) : bool :=
  match s with
  | EmptyString => true
  | String c EmptyString => Ascii.eqb c "010"
  | String _ (String _ _) => false
  end.

(** [re.search('^' r '$', s)] is a match: [^] holds at the start of the
    string only. *)
Definition search_anchored (r : regex) (s : string) : bool :=
  existsb at_end (ends r s).

End Re.

(** The pattern [^#(?:[0-9a-fA-F]{3}){1,2}$] without its anchors. *)
Definition hex_pattern : Re.regex :=
  Re.Seq (Re.Chr "#")
         (Re.Rep (Re.Rep (Re.Class [("0", "9"); ("a", "f"); ("A", "F")]%char) 3 3) 1 2).

(** [is_correct_hex] (lines 244-249). *)
Definition is_correct_hex (hex : string) : Z :=
  if Re.search_anchored hex_pattern hex then 1 else 0.

(** [config] and [default_config] (lines 207-225): dicts from the name
    of a setting to a colour. *)
Definition default_config : list (string * string) :=
  [ ("background", "#FFFFFF"); ("background_text", "#FFFFFF");
    ("foreground_text", "#000000"); ("background_button", "#FFFFFF");
    ("foreground_button", "#000000"); ("background_entry", "#FFFFFF") ].

(** [d[k] = v] on a dict: an existing key keeps its place. *)
Fixpoint setitem (d : list (string * string)) (k v : string) : list (string * string) :=
  match d with
  | [] => [(k, v)]
  | (k', v') :: rest =>
      if String.eqb k' k then (k', v) :: rest else (k', v') :: setitem rest k v
  end.

(** The texts of the six entries of the settings window. *)
Record entries : Type := mkEntries {
  background : string;
  background_text_entry : string;
  foreground_text : string;
  foreground_button : string;
  background_button : string;
  background_entry : string
}.

(** One [if is_correct_hex(entry.get()) == 1: config[key] = entry.get()]. *)
Definition store (key entry : string) (config : list (string * string))
  : list (string * string) :=
  if is_correct_hex entry =? 1 then setitem config key entry else config.

(** [save] of [settings] (lines 977-992): the global [config] after
    the six tests, which is also what is written to [config.json]. *)
Definition save (e : entries) (config : list (string * string)) : list (string * string) :=
  let config := store "background" (background e) config in
  let config := store "background_text" (background_text_entry e) config in
  let config := store "foreground_text" (foreground_text e) config in
  let config := store "foreground_button" (foreground_button e) config in
  let config := store "background_button" (background_button e) config in
  store "background_entry" (background_entry e) config.

(** The hexadecimal digits, and the newline. *)
Definition hex_digits : list ascii := list_ascii_of_string "0123456789abcdefABCDEF".
Definition newline : string := String "010" EmptyString.

(** [d.get(k)] on a dict of settings. *)
Fixpoint setting (d : list (string * string)) (k : string) : option string :=
  match d with
  | [] => None
  | (k', v) :: rest => if String.eqb k' k then Some v else setting rest k
  end.

(** ** The forms for divisors, primes, factorials and the calculator
       (lines 656-683, 707-739, 762-817, 888-929)

    A callback of a button maps the text of its entries to the windows
    it shows, each with its title and the text of its label, or to the
    exception that leaves it.  The colours of the widgets, read from
    config.json, and their geometry are left out. *)

Module Gui.

Record window : Type := mkWindow {
  title : string;
  text : string
}.

(** [int(text)] of the Python library: an integer or [ValueError]. *)
Class Builtins : Type := {
  py_int : string -> res Z
}.

(** [float(text)], the arithmetic of floats and [str] of a float. *)
Class Floats : Type := {
  float : Type;
  py_float : string -> res float;
  float_add : float -> float -> float;
  float_sub : float -> float -> float;
  float_mul : float -> float -> float;
  float_div : float -> float -> res float;
  float_str : float -> string
}.

Definition is_ValueError (e : exn) : bool :=
  match e with
  | OtherError name => String.eqb name "ValueError"
  | _ => false
  end.

(** [Tk()], a [Label] with [text], [grid] and [mainloop]. *)
Definition show (w : window) : M (list window) unit :=
  fun shown => (Ok tt, shown ++ [w]).

(** The window for a text that is no number. *)
Definition bad_data : window :=
  {| title := "Ошибка!"; text := "Введите корректные данные!" |}.

(** The decimal digits of an integer: [str(i)] for an integer within
    the interpreter's limit of digits, see [str_big] below. *)
Definition str_int (z : Z) : string := NilEmpty.string_of_int (Z.to_int z).

(** [range(a, b)]. *)
Definition range (a b : Z) : list Z :=
  map (fun k => a + Z.of_nat k) (seq 0 (Z.to_nat (b - a))).

(** [sys.get_int_max_str_digits()]: the greatest number of decimal
    digits that [str] writes for an integer, 4300 unless configured
    otherwise; 0 stands for no limit (as do the interpreters older
    than the limit). *)
Class Interpreter : Type := {
  int_max_str_digits : Z
}.



Section Forms.

Context `{Builtins} `{Floats} `{Interpreter}.

(** The [for] loop of [get_dividers] (lines 674-677). *)
Fixpoint dividers_loop (n : Z) (candidates : list Z) (shown : string) : string :=
  match candidates with
  | [] => shown
  | i :: rest =>
      dividers_loop n rest
        (if n mod i =? 0 then (shown ++ (str_int i ++ ";"))%string else shown)
  end.

(** [clicked] of [get_dividers] (lines 660-683). *)
Definition get_dividers_clicked (number : string) : M (list window) unit :=
  r <- Eff.try (Eff.lift (py_int number)) ;;
  match r with
  | Err e => if is_ValueError e then show bad_data else Eff.raise e
  | Ok n =>
      show {| title := "Результат";
              text := dividers_loop n (range 1 (n + 1)) EmptyString |}
  end.

(** The [for] loop of [simple_number] with its [break] (lines
    727-730): the value of [is_simple] after it. *)
Fixpoint simple_loop (n : Z) (candidates : list Z) : bool :=
  match candidates with
  | [] => true
  | i :: rest => if n mod i =? 0 then false else simple_loop n rest
  end.

(** [clicked] of [simple_number] (lines 711-739). *)
Definition simple_number_clicked (number : string) : M (list window) unit :=
  r <- Eff.try (Eff.lift (py_int number)) ;;
  match r with
  | Err e => if is_ValueError e then show bad_data else Eff.raise e
  | Ok n =>
      let is_simple := simple_loop n (range 2 n) in
      if is_simple
      then show {| title := "Результат"; text := "Введённое число - простое." |}
      else show {| title := "Результат";
                   text := "Введённое число не является простым." |}
  end.



(** [s.find(c)] for a character [c]: the index of its first
    occurrence, or -1. *)
Fixpoint find_from (c : ascii) (s : string) (i : Z) : Z :=
  match s with
  | EmptyString => -1
  | String d t => if Ascii.eqb d c then i else find_from c t (i + 1)
  end.

Definition find (c : ascii) (s : string) : Z := find_from c s 0.

(** [s[i]] for an index that is not negative. *)
Definition char_at (s : string) (i : Z) : res string :=
  match String.get (Z.to_nat i) s with
  | Some c => Ok (String c EmptyString)
  | None => Err (OtherError "IndexError")
  end.

(** [for i in indices: acc += expression[i]] (lines 787-791). *)
Fixpoint collect (expression : string) (indices : list Z) (acc : string) : res string :=
  match indices with
  | [] => Ok acc
  | i :: rest =>
      match char_at expression i with
      | Ok c => collect expression rest (acc ++ c)%string
      | Err e => Err e
      end
  end.

(** The chain of tests of lines 767-778: the sign and its index, if the
    expression has one of the four signs. *)
Definition find_sign (expression : string) : option (Z * ascii) :=
  if negb (find "+" expression =? -1) then Some (find "+" expression, "+"%char)
  else if negb (find "-" expression =? -1) then Some (find "-" expression, "-"%char)
  else if negb (find "*" expression =? -1) then Some (find "*" expression, "*"%char)
  else if negb (find ":" expression =? -1) then Some (find ":" expression, ":"%char)
  else None.

(** The window for an expression the calculator refuses. *)
Definition check_data : window :=
  {| title := "Ошибка!"; text := "Проверьте правильность введенных данных!" |}.

(** The two operands of lines 786-791, for a sign at [sign_id]. *)
Definition operands (expression : string) (sign_id : Z) : res (string * string) :=
  match collect expression (range 0 sign_id) EmptyString with
  | Err e => Err e
  | Ok first_number =>
      match collect expression
                    (range (sign_id + 1) (Z.of_nat (String.length expression)))
                    EmptyString with
      | Err e => Err e
      | Ok second_number => Ok (first_number, second_number)
      end
  end.

(** [second_number == 0] (line 799) compares a [str] with an [int]: it
    is false whatever the string. *)
Definition str_equals_int (s : string) (z : Z) : bool := false.

(** The answer of lines 792-808 for the three signs that cannot fail
    but by the conversion of an operand. *)
Definition answer_with (sign : string) (op : float -> float -> float)
           (first_number second_number : string) : M (list window) string :=
  a <- Eff.lift (py_float first_number) ;;
  b <- Eff.lift (py_float second_number) ;;
  Eff.ret (first_number ++ sign ++ second_number ++ "=" ++ float_str (op a b))%string.

(** [clicked] of [calculator] (lines 763-817).  Without a sign the
    window of the error is shown, [is_complete] becomes false, and the
    loop of line 787 then reads [sign_id], which was never bound. *)
Definition calculator_clicked (expression : string) : M (list window) unit :=
  match find_sign expression with
  | None =>
      show check_data ;;
      Eff.raise (OtherError "UnboundLocalError")
  | Some (sign_id, sign) =>
      ns <- Eff.lift (operands expression sign_id) ;;
      let (first_number, second_number) := (ns : string * string) in
      r <- (if Ascii.eqb sign "+" then
              a <- answer_with "+" float_add first_number second_number ;;
              Eff.ret (Some a)
            else if Ascii.eqb sign "-" then
              a <- answer_with "-" float_sub first_number second_number ;;
              Eff.ret (Some a)
            else if Ascii.eqb sign "*" then
              a <- answer_with "*" float_mul first_number second_number ;;
              Eff.ret (Some a)
            else
              if str_equals_int second_number 0 then
                show check_data ;;
                Eff.ret None
              else
                a <- Eff.lift (py_float first_number) ;;
                b <- Eff.lift (py_float second_number) ;;
                q <- Eff.lift (float_div a b) ;;
                Eff.ret (Some (first_number ++ ":" ++ second_number ++ "="
                                 ++ float_str q)%string)) ;;
      match r with
      | Some answer =>
          show {| title := "Результат"; text := ("Ответ: " ++ answer)%string |}
      | None => Eff.ret tt
      end
  end.

End Forms.

(** The text that lists the numbers [ds], each followed by a semicolon. *)
Fixpoint listing (ds : list Z) : string :=
  match ds with
  | [] => EmptyString
  | d :: rest => (str_int d ++ ";" ++ listing rest)%string
  end.

(** [int] and [float] for the texts of the examples: decimal integers
    with an optional minus sign; a quotient is a float here only when
    it is whole. *)
Definition int_of_text (s : string) : res Z :=
  let parse (t : string) (neg : bool) :=
    match MiniJson.digits 0 t with
    | (n, EmptyString) =>
        match t with
        | EmptyString => Err (OtherError "ValueError")
        | String _ _ => Ok (if neg then - n else n)
        end
    | (_, String _ _) => Err (OtherError "ValueError")
    end in
  match s with
  | String c t => if Ascii.eqb c "-" then parse t true else parse s false
  | EmptyString => Err (OtherError "ValueError")
  end.

#[global] Instance decimal : Builtins := Build_Builtins int_of_text.


Definition unlimited : Interpreter := Build_Interpreter 0.

#[global] Instance whole : Floats :=
  @Build_Floats Z int_of_text Z.add Z.sub Z.mul
    (fun a b => if b =? 0 then Err (OtherError "ZeroDivisionError") else Ok (a / b))
    (fun z => (str_int z ++ ".0")%string).

End Gui.

(** ** Further systems and inputs for tests *)

Module Scenes.

(** A system on which only the pipe of candidate 7 can be opened. *)
Definition seventh_pipe : Win.state FakeSys.state :=
  {| Win._f := None; Win.path := None;
     Win.sys := {| FakeSys.pipes := [Win.candidate 7]; FakeSys.sockets := [];
                   FakeSys.listening := []; FakeSys.environ := [];
                   FakeSys.connected := false |};
     Win.probes := [] |}.

(** A new Windows client on the system of [Interrupt]. *)
Definition interrupted : Win.state nat :=
  {| Win._f := None; Win.path := None; Win.sys := 0%nat; Win.probes := [] |}.

(** A system whose XDG_RUNTIME_DIR is /run/user/1000, with sockets for
    the candidates 3 and 7 there, of which only that of 7 accepts. *)
Definition seventh_socket : Unix.state FakeSys.state :=
  {| Unix._sock := None;
     Unix.sys := {| FakeSys.pipes := [];
                    FakeSys.sockets := [ "/run/user/1000/discord-ipc-3";
                                         "/run/user/1000/discord-ipc-7" ];
                    FakeSys.listening := [ "/run/user/1000/discord-ipc-7" ];
                    FakeSys.environ := [ ("TMPDIR", "/var/tmp");
                                         ("XDG_RUNTIME_DIR", "/run/user/1000") ];
                    FakeSys.connected := false |};
     Unix.probes := [] |}.

(** Texts typed into the settings window: two colours of six digits or
    three, a name, nothing, five digits, three digits. *)
Definition typed : entries :=
  {| background := "#123456"; background_text_entry := "red";
     foreground_text := "#abc"; foreground_button := "";
     background_button := "#12345"; background_entry := "#FFF" |}.

End Scenes.

(** * Properties *)

Unset Implicit Arguments.

(** ** The header codec *)

Module StructFacts.

Import Struct.

Lemma Z_of_byte_of_Z (z : Z) : Z_of_byte (byte_of_Z z) = z mod 256.
Proof.
  unfold Z_of_byte, byte_of_Z.
  assert (Hland : Z.land z 255 = z mod 256)
    by (change 255 with (Z.ones 8); rewrite Z.land_ones by lia; reflexivity).
  rewrite Hland.
  assert (Hrange : 0 <= z mod 256 < 256) by (apply Z.mod_pos_bound; lia).
  destruct (Byte.of_N (Z.to_N (z mod 256))) as [b|] eqn:E.
  - apply Byte.to_of_N in E. rewrite E. apply Z2N.id. lia.
  - apply Byte.of_N_None_iff in E. lia.
Qed.

Lemma Z_of_byte_range (b : byte) : 0 <= Z_of_byte b < 256.
Proof.
  unfold Z_of_byte. pose proof (Byte.to_N_bounded b). lia.
Qed.

Lemma lor_shiftl_8 (a b : Z) :
  0 <= a < 256 -> 0 <= b -> Z.lor a (Z.shiftl b 8) = a + 256 * b.
Proof.
  intros Ha Hb.
  assert (Hdisj : Z.land a (Z.shiftl b 8) = 0).
  { apply Z.bits_inj'. intros n Hn.
    rewrite Z.land_spec, Z.bits_0.
    destruct (Z.ltb_spec n 8).
    - rewrite (Z.shiftl_spec_low b 8 n) by lia. apply andb_false_r.
    - destruct (Z.eq_dec a 0) as [->|Hnz].
      + rewrite Z.bits_0. reflexivity.
      + rewrite (Z.bits_above_log2 a n); [reflexivity | lia |].
        apply Z.log2_lt_pow2; [lia|].
        apply Z.lt_le_trans with (2 ^ 8); [simpl; lia|].
        apply Z.pow_le_mono_r; lia. }
  rewrite <- Z.lxor_lor by exact Hdisj.
  rewrite <- Z.add_nocarry_lxor by exact Hdisj.
  rewrite Z.shiftl_mul_pow2 by lia. change (2 ^ 8) with 256. lia.
Qed.

Lemma le_decode_nonneg (bs : bytes) : 0 <= le_decode bs.
Proof.
  induction bs as [|b bs IH]; cbn [le_decode]; [lia|].
  apply Z.lor_nonneg. split.
  - apply Z_of_byte_range.
  - apply Z.shiftl_nonneg. exact IH.
Qed.

Lemma le_decode_cons (b : byte) (bs : bytes) :
  le_decode (b :: bs) = Z_of_byte b + 256 * le_decode bs.
Proof.
  cbn [le_decode]. apply lor_shiftl_8.
  - apply Z_of_byte_range.
  - apply le_decode_nonneg.
Qed.

(** The value of each byte of a field. *)
Lemma le32_bytes (z : Z) :
  map Z_of_byte (le32 z) =
  [ z mod 256; (z / 256) mod 256; (z / 65536) mod 256; (z / 16777216) mod 256 ].
Proof.
  unfold le32. cbn [map]. rewrite !Z_of_byte_of_Z.
  rewrite !Z.shiftr_div_pow2 by lia. reflexivity.
Qed.

Lemma le_decode_le32 (z : Z) : uint32 z = true -> le_decode (le32 z) = z.
Proof.
  unfold uint32. intros Hz.
  apply andb_true_iff in Hz. destruct Hz as [Hlo Hhi].
  apply Z.leb_le in Hlo. apply Z.ltb_lt in Hhi.
  unfold le32. rewrite !le_decode_cons. cbn [le_decode].
  rewrite !Z_of_byte_of_Z, !Z.shiftr_div_pow2 by lia.
  change (2 ^ 8) with 256. change (2 ^ 16) with 65536.
  change (2 ^ 24) with 16777216. change (2 ^ 32) with 4294967296 in Hhi.
  Z.div_mod_to_equations. lia.
Qed.

Lemma le32_length (z : Z) : List.length (le32 z) = 4%nat.
Proof. reflexivity. Qed.

Lemma unpack_pack (a b : Z) (header : bytes) :
  pack_II a b = Ok header -> unpack_II header = Ok (a, b).
Proof.
  unfold pack_II. destruct (uint32 a && uint32 b) eqn:E; [|discriminate].
  apply andb_true_iff in E. destruct E as [Ea Eb].
  intros Hh.
  assert (Hheader : header = le32 a ++ le32 b) by congruence.
  subst header. unfold unpack_II.
  replace (len (le32 a ++ le32 b) =? 8) with true by reflexivity.
  replace (firstn 4 (le32 a ++ le32 b)) with (le32 a) by reflexivity.
  replace (skipn 4 (le32 a ++ le32 b)) with (le32 b) by reflexivity.
  rewrite !le_decode_le32 by assumption. reflexivity.
Qed.

End StructFacts.

(** ** The exact reader *)

Section ExactReader.

Context {W : Type} `{DiscordIpcClient W}.

Lemma call_recv_eq (size : Z) (s : client W) :
  call_recv size s =
  (fst (_recv size (impl s)),
   {| client_id := client_id s;
      impl := snd (_recv size (impl s));
      calls := calls s ++ [CallRecv size (fst (_recv size (impl s)))] |}).
Proof.
  unfold call_recv, invoke. destruct (_recv size (impl s)); reflexivity.
Qed.

(** One turn of the loop, when the read returns a chunk. *)
Lemma recv_exactly_loop_step (fuel : nat) (buf chunk : bytes) (size : Z)
      (s : client W) (w' : W) :
  size <> 0 ->
  _recv size (impl s) = (Ok chunk, w') ->
  _recv_exactly_loop (S fuel) buf size s =
  _recv_exactly_loop fuel (buf ++ chunk) (size - len chunk)
    {| client_id := client_id s; impl := w';
       calls := calls s ++ [CallRecv size (Ok chunk)] |}.
Proof.
  intros Hsize Hrecv.
  cbn [_recv_exactly_loop].
  apply Z.eqb_neq in Hsize. rewrite Hsize.
  unfold Eff.bindf, Eff.total. rewrite call_recv_eq, Hrecv. reflexivity.
Qed.

(** With a transport that delivers [bs] and then [rest], reading
    [length bs] bytes returns [bs] once the fuel covers one turn per
    byte, and the chunks read are exactly the pieces of [bs]. *)
Lemma recv_exactly_loop_feeds (n : nat) :
  forall (bs rest buf : bytes) (s : client W) (fuel : nat),
    List.length bs = n ->
    feeds (impl s) (bs ++ rest) ->
    (n <= fuel)%nat ->
    exists s',
      _recv_exactly_loop fuel buf (len bs) s = (Ret (buf ++ bs), s') /\
      feeds (impl s') rest /\
      client_id s' = client_id s /\
      exists cs, calls s' = calls s ++ cs /\
                 List.concat (chunks cs) = bs /\
                 written cs = [] /\ close_calls cs = 0%nat.
Proof.
  induction n as [n IH] using lt_wf_ind.
  intros bs rest buf s fuel Hlen Hfeeds Hfuel.
  destruct bs as [|b bs].
  - exists s. destruct fuel; cbn; rewrite app_nil_r;
      (repeat split; try assumption; exists []; rewrite app_nil_r; auto).
  - cbn [app] in Hfeeds. inversion Hfeeds as [|w b0 bs0 Hread]; subst.
    assert (Hpos : 0 < len (b :: bs)) by (unfold len; cbn; lia).
    destruct (Hread _ Hpos) as (chunk & w' & Hrecv & Hne & Hle & tail & Hsplit & Hfeeds').
    destruct fuel as [|fuel]; [cbn in Hfuel; lia|].
    rewrite (recv_exactly_loop_step fuel buf chunk _ s w') by (try lia; exact Hrecv).
    (* the chunk is a prefix of the bytes asked for *)
    assert (Hchunk : exists bs2, b :: bs = chunk ++ bs2 /\ tail = bs2 ++ rest).
    { exists (skipn (List.length chunk) (b :: bs)).
      assert (Hlc : (List.length chunk <= List.length (b :: bs))%nat)
        by (unfold len in Hle; lia).
      assert (Hfirst : firstn (List.length chunk) (b :: bs) = chunk).
      { assert (E : firstn (List.length chunk) ((b :: bs) ++ rest)
                    = firstn (List.length chunk) (chunk ++ tail))
          by (cbn [app]; rewrite Hsplit; reflexivity).
        rewrite firstn_app in E.
        replace (List.length chunk - List.length (b :: bs))%nat with 0%nat in E by lia.
        rewrite firstn_O, app_nil_r in E. rewrite E.
        rewrite firstn_app, Nat.sub_diag, firstn_O, app_nil_r.
        apply firstn_all. }
      split.
      - rewrite <- Hfirst at 1. symmetry. apply firstn_skipn.
      - assert (E : skipn (List.length chunk) ((b :: bs) ++ rest)
                    = skipn (List.length chunk) (chunk ++ tail))
          by (cbn [app]; rewrite Hsplit; reflexivity).
        rewrite skipn_app in E.
        replace (List.length chunk - List.length (b :: bs))%nat with 0%nat in E by lia.
        rewrite skipn_O in E.
        rewrite skipn_app, Nat.sub_diag, skipn_O, skipn_all in E.
        cbn [app] in E. symmetry. exact E. }
    destruct Hchunk as (bs2 & Hbs & Htail). subst tail.
    assert (Hclen : (0 < List.length chunk)%nat)
      by (destruct chunk; [congruence | cbn; lia]).
    assert (Hn2 : (List.length bs2 < List.length (b :: bs))%nat).
    { rewrite Hbs, length_app. lia. }
    assert (Hsz : len (b :: bs) - len chunk = len bs2).
    { unfold len. rewrite Hbs, length_app. lia. }
    rewrite Hsz.
    destruct (IH (List.length bs2) Hn2 bs2 rest (buf ++ chunk)
                 {| client_id := client_id s; impl := w';
                    calls := calls s ++ [CallRecv (len (b :: bs)) (Ok chunk)] |}
                 fuel eq_refl Hfeeds' ltac:(lia))
      as (s' & Hrun & Hf & Hid & cs & Hcalls & Hcs & Hw & Hc).
    exists s'. split; [|split; [|split]].
    + rewrite Hrun, Hbs, <- app_assoc. reflexivity.
    + exact Hf.
    + exact Hid.
    + exists (CallRecv (len (b :: bs)) (Ok chunk) :: cs).
      cbn [calls] in Hcalls. rewrite Hcalls, <- app_assoc.
      repeat split.
      * cbn [chunks List.concat]. rewrite Hcs. symmetry. exact Hbs.
      * exact Hw.
      * exact Hc.
Qed.

(** At end of file the loop makes no progress: each turn reads zero
    bytes and leaves [size_remaining] as it was. *)
Lemma recv_exactly_loop_eof (fuel : nat) :
  forall (buf : bytes) (size : Z) (s : client W),
    0 < size -> at_eof (impl s) ->
    _recv_exactly_loop fuel buf size s =
    (OutOfFuel,
     {| client_id := client_id s; impl := impl s;
        calls := calls s ++ repeat (CallRecv size (Ok [])) fuel |}).
Proof.
  induction fuel as [|fuel IH]; intros buf size s Hsize Heof.
  - cbn. destruct (Z.eqb_spec size 0); [lia|].
    unfold Eff.out_of_fuel. rewrite app_nil_r. destruct s; reflexivity.
  - rewrite (recv_exactly_loop_step fuel buf [] size s (impl s))
      by (try lia; apply Heof; exact Hsize).
    rewrite IH by (cbn; assumption || lia).
    cbn [client_id impl calls len List.length]. rewrite Z.sub_0_r.
    rewrite <- app_assoc. reflexivity.
Qed.

(** Whatever the transport does, as long as each read of a positive
    size returns at least one and at most [size] bytes, the loop ends:
    asked for [n] bytes with fuel for one turn per byte, it returns
    exactly [n] bytes, the chunks of its reads in order. *)
Lemma recv_exactly_loop_progress (Inv : W -> Prop) :
  (forall w size, Inv w -> 0 < size ->
     exists chunk w', _recv size w = (Ok chunk, w') /\
                      0 < len chunk <= size /\ Inv w') ->
  forall (k : nat) (n : Z) (buf : bytes) (s : client W) (fuel : nat),
    0 <= n -> Z.to_nat n = k -> Inv (impl s) -> (k <= fuel)%nat ->
    exists bs s',
      _recv_exactly_loop fuel buf n s = (Ret (buf ++ bs), s') /\
      len bs = n /\ Inv (impl s') /\
      exists cs, calls s' = calls s ++ cs /\ List.concat (chunks cs) = bs.
Proof.
  intros Hread k. induction k as [k IH] using lt_wf_ind.
  intros n buf s fuel Hn Hk Hinv Hfuel.
  destruct (Z.eq_dec n 0) as [->|Hnz].
  - exists [], s. destruct fuel; cbn; rewrite app_nil_r;
      (repeat split; try assumption; exists []; rewrite app_nil_r; auto).
  - destruct (Hread (impl s) n Hinv ltac:(lia))
      as (chunk & w' & Hrecv & Hlen & Hinv').
    destruct fuel as [|fuel]; [lia|].
    rewrite (recv_exactly_loop_step fuel buf chunk n s w') by assumption.
    destruct (IH (Z.to_nat (n - len chunk)) ltac:(lia) (n - len chunk) (buf ++ chunk)
                 {| client_id := client_id s; impl := w';
                    calls := calls s ++ [CallRecv n (Ok chunk)] |}
                 fuel ltac:(lia) eq_refl Hinv' ltac:(lia))
      as (bs & s' & Hrun & Hbs & Hinv'' & cs & Hcalls & Hcs).
    exists (chunk ++ bs), s'. split; [|split; [|split]].
    + rewrite Hrun, <- app_assoc. reflexivity.
    + unfold len in *. rewrite length_app. lia.
    + exact Hinv''.
    + exists (CallRecv n (Ok chunk) :: cs).
      cbn [calls] in Hcalls. rewrite Hcalls, <- app_assoc.
      split; [reflexivity|]. cbn [chunks List.concat]. rewrite Hcs. reflexivity.
Qed.

End ExactReader.

(** ** Sending a frame and closing *)

Section Sending.

Context {W : Type} `{DiscordIpcClient W} `{JsonLib}.

Lemma call_write_eq (data : bytes) (s : client W) :
  call_write data s =
  (fst (_write data (impl s)),
   {| client_id := client_id s;
      impl := snd (_write data (impl s));
      calls := calls s ++ [CallWrite data] |}).
Proof.
  unfold call_write, invoke. destruct (_write data (impl s)); reflexivity.
Qed.

Lemma call_close_eq (s : client W) :
  call_close s =
  (fst (_close (impl s)),
   {| client_id := client_id s;
      impl := snd (_close (impl s));
      calls := calls s ++ [CallClose] |}).
Proof.
  unfold call_close, invoke. destruct (_close (impl s)); reflexivity.
Qed.

Lemma encode_frame_in_range (data : JSON) (op : Z) :
  Struct.uint32 op = true ->
  Struct.uint32 (len (utf8_encode (json_dumps data))) = true ->
  encode_frame data op =
  Ok (Struct.le32 op ++ Struct.le32 (len (utf8_encode (json_dumps data)))
        ++ utf8_encode (json_dumps data)).
Proof.
  intros Hop Hlen. unfold encode_frame, Struct.pack_II.
  rewrite Hop, Hlen. cbn [andb]. rewrite <- app_assoc. reflexivity.
Qed.

Lemma encode_frame_out_of_range (data : JSON) (op : Z) :
  Struct.uint32 op && Struct.uint32 (len (utf8_encode (json_dumps data))) = false ->
  encode_frame data op =
  Err (Struct.range_error op (len (utf8_encode (json_dumps data)))).
Proof.
  intros Hr. unfold encode_frame, Struct.pack_II. rewrite Hr. reflexivity.
Qed.

Lemma send_eq (data : JSON) (op : Z) (s : client W) :
  send data op s =
  match encode_frame data op with
  | Ok frame => call_write frame s
  | Err e => (Err e, s)
  end.
Proof.
  unfold send, Eff.bind, Eff.lift. destruct (encode_frame data op); reflexivity.
Qed.

(** [send] calls [_write] at most once and nothing else. *)
Lemma send_calls (data : JSON) (op : Z) (s : client W) :
  client_id (snd (send data op s)) = client_id s /\
  exists cs, calls (snd (send data op s)) = calls s ++ cs /\
             close_calls cs = 0%nat /\ chunks cs = [] /\
             (cs = [] \/ exists frame, encode_frame data op = Ok frame /\
                                       cs = [CallWrite frame]).
Proof.
  rewrite send_eq. destruct (encode_frame data op) as [frame|e].
  - rewrite call_write_eq. cbn [snd client_id calls]. split; [reflexivity|].
    exists [CallWrite frame]. repeat split. right. exists frame. auto.
  - cbn [snd]. split; [reflexivity|].
    exists []. rewrite app_nil_r. repeat split. left. reflexivity.
Qed.

Lemma close_eq (s : client W) :
  close s =
  (match fst (call_close (snd (send (JDict []) OP_CLOSE s))) with
   | Ok _ => fst (send (JDict []) OP_CLOSE s)
   | Err e => Err e
   end,
   snd (call_close (snd (send (JDict []) OP_CLOSE s)))).
Proof.
  unfold close, Eff.try_finally.
  destruct (send (JDict []) OP_CLOSE s) as [r s1]. cbn [fst snd].
  destruct (call_close s1) as [[u|e] s2]; reflexivity.
Qed.

Lemma close_calls_app (cs cs' : list call) :
  close_calls (cs ++ cs') = (close_calls cs + close_calls cs')%nat.
Proof.
  unfold close_calls. rewrite filter_app, length_app. reflexivity.
Qed.

Lemma written_app (cs cs' : list call) :
  written (cs ++ cs') = written cs ++ written cs'.
Proof.
  induction cs as [|c cs IH]; [reflexivity|].
  destruct c; cbn [app written]; rewrite IH; reflexivity.
Qed.

Lemma chunks_app (cs cs' : list call) :
  chunks (cs ++ cs') = chunks cs ++ chunks cs'.
Proof.
  induction cs as [|c cs IH]; [reflexivity|].
  destruct c as [| |size [chunk|e]|]; cbn [app chunks]; rewrite IH; reflexivity.
Qed.

End Sending.

(** ** The exact reader at end of file, [send] and [close] *)

Section BaseClassTheorems.

Context {W : Type} `{DiscordIpcClient W} `{JsonLib}.

(** C1, at the failing input.  When the peer has closed, so that every
    read returns zero bytes, [_recv_exactly] asked for a positive
    number of bytes neither returns nor raises: whatever the fuel, it
    is used up by reads of zero bytes, and no exception stands for a
    closed connection. *)
Theorem recv_exactly_never_returns_at_eof (s : client W) (size : Z) (fuel : nat) :
  0 < size ->
  at_eof (impl s) ->
  fst (_recv_exactly fuel size s) = OutOfFuel /\
  chunks (calls (snd (_recv_exactly fuel size s)))
  = chunks (calls s) ++ repeat [] fuel.
Proof.
  intros Hsize Heof. unfold _recv_exactly.
  rewrite recv_exactly_loop_eof by assumption.
  cbn [fst snd calls]. split; [reflexivity|].
  rewrite chunks_app. f_equal.
  clear. induction fuel as [|fuel IH]; [reflexivity|].
  cbn [repeat chunks]. rewrite IH. reflexivity.
Qed.

(** The reader on a transport that keeps its promise: asked for as
    many bytes as the transport will deliver, [_recv_exactly] returns
    them, and they are the chunks read, concatenated in order. *)
Lemma recv_exactly_returns (s : client W) (bs rest : bytes) (fuel : nat) :
  feeds (impl s) (bs ++ rest) ->
  (List.length bs <= fuel)%nat ->
  exists s',
    _recv_exactly fuel (len bs) s = (Ret bs, s') /\
    feeds (impl s') rest /\
    client_id s' = client_id s /\
    exists cs, calls s' = calls s ++ cs /\ List.concat (chunks cs) = bs /\
               written cs = [] /\ close_calls cs = 0%nat.
Proof.
  intros Hfeeds Hfuel. unfold _recv_exactly.
  destruct (recv_exactly_loop_feeds (List.length bs) bs rest [] s fuel
              eq_refl Hfeeds Hfuel) as (s' & Hrun & Hrest).
  exists s'. split; [exact Hrun | exact Hrest].
Qed.

(** The calls [close] makes: those of [send], then [_close]. *)
Lemma close_trace (s : client W) :
  close_calls (calls (snd (close s))) = S (close_calls (calls s)) /\
  exists cs, calls (snd (close s)) = calls s ++ cs ++ [CallClose] /\
             close_calls cs = 0%nat /\ chunks cs = [].
Proof.
  rewrite close_eq. cbn [snd]. rewrite call_close_eq. cbn [snd calls].
  destruct (send_calls (JDict []) OP_CLOSE s) as (_ & cs & Hcalls & Hclose & Hch & _).
  rewrite Hcalls. split.
  - rewrite !close_calls_app, Hclose. cbn. lia.
  - exists cs. rewrite <- app_assoc. auto.
Qed.

(** The transport after [send]: written to once when the frame could
    be built, untouched otherwise. *)
Lemma send_impl (data : JSON) (op : Z) (s : client W) :
  impl (snd (send data op s)) =
  match encode_frame data op with
  | Ok frame => snd (_write frame (impl s))
  | Err _ => impl s
  end.
Proof.
  rewrite send_eq. destruct (encode_frame data op) as [frame|e]; [|reflexivity].
  rewrite call_write_eq. reflexivity.
Qed.

(** The whole run of [close]: the outcome and the client it leaves. *)
Lemma close_run (s : client W) :
  close s =
  (match fst (_close (impl (snd (send (JDict []) OP_CLOSE s)))) with
   | Ok _ => fst (send (JDict []) OP_CLOSE s)
   | Err e => Err e
   end,
   {| client_id := client_id (snd (send (JDict []) OP_CLOSE s));
      impl := snd (_close (impl (snd (send (JDict []) OP_CLOSE s))));
      calls := calls (snd (send (JDict []) OP_CLOSE s)) ++ [CallClose] |}).
Proof.
  rewrite close_eq, call_close_eq. reflexivity.
Qed.

(** C4.  Every call of [close] invokes [_close] exactly once, as its
    last call, whether the [send] of the Close frame returned or
    raised: the call is the last one recorded and the only one of its
    kind, and the transport [close] leaves is the one [_close] leaves
    when run on the transport as [send] left it, which [send] has
    written to at most once and not closed. *)
Theorem close_invokes_transport_close_once (s : client W) :
  close_calls (calls (snd (close s))) = S (close_calls (calls s)) /\
  (exists cs, calls (snd (close s)) = calls s ++ cs ++ [CallClose] /\
              close_calls cs = 0%nat) /\
  impl (snd (close s)) = snd (_close (impl (snd (send (JDict []) OP_CLOSE s)))) /\
  impl (snd (send (JDict []) OP_CLOSE s)) =
    match encode_frame (JDict []) OP_CLOSE with
    | Ok frame => snd (_write frame (impl s))
    | Err _ => impl s
    end.
Proof.
  destruct (close_trace s) as (Hcount & cs & Hcalls & Hnone & _).
  split; [exact Hcount|]. split; [exists cs; auto|]. split.
  - rewrite close_run. reflexivity.
  - apply send_impl.
Qed.

(** C3, as the code has it.  An error raised by the [send] of the
    Close frame is not swallowed by [close]: [_close] is run on the
    transport as [send] left it, and then that error reaches the
    caller, unless [_close] raises, in which case the error of
    [_close] reaches the caller in its place. *)
Theorem close_reraises_send_error (s : client W) (e : exn) :
  fst (send (JDict []) OP_CLOSE s) = Err e ->
  fst (close s) =
    match fst (_close (impl (snd (send (JDict []) OP_CLOSE s)))) with
    | Ok _ => Err e
    | Err e' => Err e'
    end /\
  impl (snd (close s)) = snd (_close (impl (snd (send (JDict []) OP_CLOSE s)))) /\
  close_calls (calls (snd (close s))) = S (close_calls (calls s)).
Proof.
  intros Hsend. split; [|split].
  - rewrite close_run. cbn [fst]. rewrite Hsend. reflexivity.
  - rewrite close_run. reflexivity.
  - apply close_trace.
Qed.


(** C7.  The frame [send] hands to the transport is an 8-byte header
    followed by the serialized payload: the opcode and then the byte
    length of the payload, each as four bytes with the least
    significant first; the length field decodes to exactly the number
    of payload bytes that follow.  The opcodes are 0 to 4. *)
Theorem send_frame_wire_format (data : JSON) (op : Z) (s : client W) :
  Struct.uint32 op = true ->
  Struct.uint32 (len (utf8_encode (json_dumps data))) = true ->
  let payload := utf8_encode (json_dumps data) in
  let header := Struct.le32 op ++ Struct.le32 (len payload) in
  written (calls (snd (send data op s))) = written (calls s) ++ [header ++ payload] /\
  List.length header = 8%nat /\
  map Struct.Z_of_byte header =
    [ op mod 256; (op / 256) mod 256; (op / 65536) mod 256; (op / 16777216) mod 256;
      len payload mod 256; (len payload / 256) mod 256;
      (len payload / 65536) mod 256; (len payload / 16777216) mod 256 ] /\
  Struct.unpack_II header = Ok (op, len payload) /\
  skipn 8 (header ++ payload) = payload /\
  (OP_HANDSHAKE, OP_FRAME, OP_CLOSE, OP_PING, OP_PONG) = (0, 1, 2, 3, 4).
Proof.
  intros Hop Hlen payload header.
  split; [|split; [|split; [|split; [|split]]]].
  - rewrite send_eq, encode_frame_in_range by assumption.
    rewrite call_write_eq. cbn [snd calls].
    rewrite written_app, app_assoc. reflexivity.
  - reflexivity.
  - unfold header. rewrite map_app, !StructFacts.le32_bytes. reflexivity.
  - apply StructFacts.unpack_pack. unfold Struct.pack_II.
    rewrite Hop. fold payload in Hlen. rewrite Hlen. reflexivity.
  - reflexivity.
  - reflexivity.
Qed.

(** Outside the range of the two fields nothing is written. *)
Lemma send_out_of_range (data : JSON) (op : Z) (s : client W) :
  Struct.uint32 op && Struct.uint32 (len (utf8_encode (json_dumps data))) = false ->
  send data op s =
  (Err (Struct.range_error op (len (utf8_encode (json_dumps data)))), s).
Proof.
  intros Hr. rewrite send_eq, encode_frame_out_of_range by exact Hr. reflexivity.
Qed.

End BaseClassTheorems.

(** ** Payloads in JSON form *)

Module PyObjFacts.

Import PyObj.


End PyObjFacts.

(** ** Receiving a frame *)

Section Receiving.

Context {W : Type} `{DiscordIpcClient W} `{JsonLib}.

Lemma recv_eq (fuel : nat) (s : client W) :
  recv fuel s =
  match _recv_exactly fuel 8 s with
  | (Ret header, s1) =>
      match Struct.unpack_II header with
      | Ok (op, length) =>
          match _recv_exactly fuel length s1 with
          | (Ret payload, s2) =>
              match utf8_decode payload with
              | Ok data_str =>
                  match json_loads data_str with
                  | Ok data => (Ret (op, data), s2)
                  | Err e => (Raise e, s2)
                  end
              | Err e => (Raise e, s2)
              end
          | (Raise e, s2) => (Raise e, s2)
          | (OutOfFuel, s2) => (OutOfFuel, s2)
          end
      | Err e => (Raise e, s1)
      end
  | (Raise e, s1) => (Raise e, s1)
  | (OutOfFuel, s1) => (OutOfFuel, s1)
  end.
Proof.
  unfold recv, _recv_header, Eff.bindf, Eff.total, Eff.lift, Eff.retf.
  destruct (_recv_exactly fuel 8 s) as [[header| |] s1]; try reflexivity.
  destruct (Struct.unpack_II header) as [[op length]|e]; try reflexivity.
  destruct (_recv_exactly fuel length s1) as [[payload| |] s2]; try reflexivity.
  destruct (utf8_decode payload) as [data_str|e]; try reflexivity.
  destruct (json_loads data_str); reflexivity.
Qed.

(** A frame that the transport delivers is received whole: [recv]
    returns the opcode of the header, whatever its value, and the
    decoded payload, and leaves the bytes after the frame unread. *)
Lemma recv_frame (op : Z) (payload rest : bytes) (data_str : string) (data : JSON)
      (s : client W) (fuel : nat) :
  Struct.uint32 op = true ->
  Struct.uint32 (len payload) = true ->
  utf8_decode payload = Ok data_str ->
  json_loads data_str = Ok data ->
  feeds (impl s) ((Struct.le32 op ++ Struct.le32 (len payload) ++ payload) ++ rest) ->
  (8 <= fuel)%nat ->
  (List.length payload <= fuel)%nat ->
  exists s',
    recv fuel s = (Ret (op, data), s') /\
    feeds (impl s') rest /\
    client_id s' = client_id s /\
    exists cs, calls s' = calls s ++ cs /\
               List.concat (chunks cs)
               = Struct.le32 op ++ Struct.le32 (len payload) ++ payload /\
               written cs = [] /\ close_calls cs = 0%nat.
Proof.
  intros Hop Hlen Hdec Hloads Hfeeds Hf8 Hfp.
  set (header := Struct.le32 op ++ Struct.le32 (len payload)).
  assert (Hfeeds1 : feeds (impl s) (header ++ (payload ++ rest))).
  { unfold header. rewrite <- !app_assoc in Hfeeds. rewrite <- app_assoc.
    exact Hfeeds. }
  destruct (recv_exactly_returns s header (payload ++ rest) fuel Hfeeds1 Hf8)
    as (s1 & Hrun1 & Hfeeds2 & Hid1 & cs1 & Hcalls1 & Hch1 & Hw1 & Hc1).
  change (len header) with 8 in Hrun1.
  destruct (recv_exactly_returns s1 payload rest fuel Hfeeds2 Hfp)
    as (s2 & Hrun2 & Hfeeds3 & Hid2 & cs2 & Hcalls2 & Hch2 & Hw2 & Hc2).
  assert (Hunpack : Struct.unpack_II header = Ok (op, len payload)).
  { apply StructFacts.unpack_pack. unfold Struct.pack_II.
    rewrite Hop, Hlen. reflexivity. }
  exists s2. split; [|split; [|split]].
  - rewrite recv_eq, Hrun1, Hunpack, Hrun2, Hdec, Hloads. reflexivity.
  - exact Hfeeds3.
  - congruence.
  - exists (cs1 ++ cs2). rewrite Hcalls2, Hcalls1, <- app_assoc.
    split; [reflexivity|]. split; [|split].
    + rewrite chunks_app, concat_app, Hch1, Hch2.
      unfold header. rewrite <- app_assoc. reflexivity.
    + rewrite written_app, Hw1, Hw2. reflexivity.
    + rewrite close_calls_app, Hc1, Hc2. reflexivity.
Qed.


(** A frame that the transport delivers, whatever its payload: the
    outcome of [recv] is the outcome of decoding the payload, and the
    opcode of the header has no part in it. *)
Lemma recv_delivered (op : Z) (payload rest : bytes) (s : client W) (fuel : nat) :
  Struct.uint32 op = true ->
  Struct.uint32 (len payload) = true ->
  feeds (impl s) ((Struct.le32 op ++ Struct.le32 (len payload) ++ payload) ++ rest) ->
  (8 <= fuel)%nat ->
  (List.length payload <= fuel)%nat ->
  exists s',
    feeds (impl s') rest /\
    recv fuel s =
    (match utf8_decode payload with
     | Ok data_str =>
         match json_loads data_str with
         | Ok data => Ret (op, data)
         | Err e => Raise e
         end
     | Err e => Raise e
     end, s').
Proof.
  intros Hop Hlen Hfeeds Hf8 Hfp.
  set (header := Struct.le32 op ++ Struct.le32 (len payload)).
  assert (Hfeeds1 : feeds (impl s) (header ++ (payload ++ rest))).
  { unfold header. rewrite <- !app_assoc in Hfeeds. rewrite <- app_assoc.
    exact Hfeeds. }
  destruct (recv_exactly_returns s header (payload ++ rest) fuel Hfeeds1 Hf8)
    as (s1 & Hrun1 & Hfeeds2 & _).
  change (len header) with 8 in Hrun1.
  destruct (recv_exactly_returns s1 payload rest fuel Hfeeds2 Hfp)
    as (s2 & Hrun2 & Hfeeds3 & _).
  assert (Hunpack : Struct.unpack_II header = Ok (op, len payload)).
  { apply StructFacts.unpack_pack. unfold Struct.pack_II.
    rewrite Hop, Hlen. reflexivity. }
  exists s2. split; [exact Hfeeds3|].
  rewrite recv_eq, Hrun1, Hunpack, Hrun2.
  destruct (utf8_decode payload) as [data_str|e]; [|reflexivity].
  destruct (json_loads data_str); reflexivity.
Qed.

(** C8, as the code has it.  [recv] does not check the opcode of a
    header.  For a frame that the transport delivers and whose opcode
    is outside 0..4, the outcome is that of decoding the payload
    alone: when the payload decodes, the opcode is returned to the
    caller as it is, with the decoded payload; when it does not, the
    error raised is the error of the decoding, as for a frame with a
    recognized opcode.  No error is raised on account of the opcode. *)
Theorem recv_passes_unrecognized_opcode (op : Z) (payload rest : bytes)
        (s : client W) (fuel : nat) :
  Struct.uint32 op = true ->
  ~ In op [OP_HANDSHAKE; OP_FRAME; OP_CLOSE; OP_PING; OP_PONG] ->
  Struct.uint32 (len payload) = true ->
  feeds (impl s) ((Struct.le32 op ++ Struct.le32 (len payload) ++ payload) ++ rest) ->
  (8 + List.length payload <= fuel)%nat ->
  exists s',
    feeds (impl s') rest /\
    recv fuel s =
    (match utf8_decode payload with
     | Ok data_str =>
         match json_loads data_str with
         | Ok data => Ret (op, data)
         | Err e => Raise e
         end
     | Err e => Raise e
     end, s').
Proof.
  intros Hop _ Hlen Hfeeds Hfuel.
  exact (recv_delivered op payload rest s fuel Hop Hlen Hfeeds
           ltac:(lia) ltac:(lia)).
Qed.

End Receiving.

(** ** The handshake *)

Section Handshake.

Context {W : Type} `{DiscordIpcClient W} `{JsonLib}.

Lemma eq_str_true (v : JSON) (k : string) : Py.eq_str v k = true <-> v = JStr k.
Proof.
  destruct v; cbn; try (split; [discriminate | congruence]).
  rewrite String.eqb_eq. split; congruence.
Qed.

Lemma handshake_accepted_true (ret_op : Z) (ret_data : JSON) :
  handshake_accepted ret_op ret_data = Ok true <->
  ret_op = OP_FRAME /\
  Py.getitem ret_data "cmd" = Ok (JStr "DISPATCH") /\
  Py.getitem ret_data "evt" = Ok (JStr "READY").
Proof.
  unfold handshake_accepted. destruct (Z.eqb_spec ret_op OP_FRAME) as [Eop|Eop].
  - destruct (Py.getitem ret_data "cmd") as [cmd|e].
    + destruct (Py.eq_str cmd "DISPATCH") eqn:Ecmd.
      * apply eq_str_true in Ecmd. subst cmd.
        destruct (Py.getitem ret_data "evt") as [evt|e].
        -- split.
           ++ intros Hok. injection Hok as Hevt. apply eq_str_true in Hevt.
              subst evt. auto.
           ++ intros (_ & _ & Hevt). injection Hevt as ->. reflexivity.
        -- split; [discriminate | intros (_ & _ & ?); discriminate].
      * split; [discriminate|]. intros (_ & Hcmd & _).
        injection Hcmd as ->. cbn in Ecmd. discriminate.
    + split; [discriminate | intros (_ & ? & _); discriminate].
  - split; [discriminate | intros (? & _); contradiction].
Qed.

Lemma do_handshake_eq (fuel : nat) (s : client W) (cid : string) :
  client_id s = Some cid ->
  _do_handshake fuel s =
  match send_recv fuel (hello cid) OP_HANDSHAKE s with
  | (Ret (ret_op, ret_data), s1) =>
      match handshake_accepted ret_op ret_data with
      | Ok true => (Ret tt, s1)
      | Ok false =>
          if ret_op =? OP_CLOSE then
            (match fst (close s1) with
             | Ok _ => Raise (RuntimeError ret_data)
             | Err e => Raise e
             end, snd (close s1))
          else (Raise (RuntimeError ret_data), s1)
      | Err e => (Raise e, s1)
      end
  | (Raise e, s1) => (Raise e, s1)
  | (OutOfFuel, s1) => (OutOfFuel, s1)
  end.
Proof.
  intros Hcid. unfold _do_handshake, hello.
  unfold Eff.bindf at 1. unfold Eff.total at 1. unfold get_client_id.
  rewrite Hcid. unfold Eff.bindf at 1.
  destruct (send_recv fuel _ OP_HANDSHAKE s) as [[[ret_op ret_data]| |] s1];
    try reflexivity.
  unfold Eff.bindf, Eff.total, Eff.lift, Eff.retf, Eff.raisef.
  destruct (handshake_accepted ret_op ret_data) as [[|]|e]; try reflexivity.
  destruct (ret_op =? OP_CLOSE).
  - destruct (close s1) as [[u|e] s2]; reflexivity.
  - reflexivity.
Qed.

Lemma recv_exactly_loop_no_close (fuel : nat) :
  forall (buf : bytes) (size : Z) (s : client W),
    close_calls (calls (snd (_recv_exactly_loop fuel buf size s)))
    = close_calls (calls s) /\
    written (calls (snd (_recv_exactly_loop fuel buf size s)))
    = written (calls s).
Proof.
  induction fuel as [|fuel IH]; intros buf size s; cbn [_recv_exactly_loop].
  - destruct (size =? 0); auto.
  - destruct (size =? 0); [auto|].
    unfold Eff.bindf, Eff.total. rewrite call_recv_eq.
    destruct (fst (_recv size (impl s))) as [chunk|e] eqn:E.
    + destruct (IH (buf ++ chunk) (size - len chunk)
                   {| client_id := client_id s;
                      impl := snd (_recv size (impl s));
                      calls := calls s ++ [CallRecv size (Ok chunk)] |})
        as [Hc Hw].
      rewrite Hc, Hw. cbn [calls].
      rewrite close_calls_app, written_app. cbn. rewrite app_nil_r.
      split; [lia | reflexivity].
    + cbn [snd calls]. rewrite close_calls_app, written_app. cbn.
      rewrite app_nil_r. split; [lia | reflexivity].
Qed.

Lemma recv_no_close (fuel : nat) (s : client W) :
  close_calls (calls (snd (recv fuel s))) = close_calls (calls s) /\
  written (calls (snd (recv fuel s))) = written (calls s).
Proof.
  rewrite recv_eq. unfold _recv_exactly.
  pose proof (recv_exactly_loop_no_close fuel [] 8 s) as H8.
  destruct (_recv_exactly_loop fuel [] 8 s) as [[header| |] s1];
    cbn [snd] in *; try exact H8.
  destruct (Struct.unpack_II header) as [[op length]|e]; cbn [snd]; try exact H8.
  pose proof (recv_exactly_loop_no_close fuel [] length s1) as Hl.
  destruct H8 as [H8c H8w]. rewrite <- H8c, <- H8w.
  destruct (_recv_exactly_loop fuel [] length s1) as [[payload| |] s2];
    cbn [snd] in *; try exact Hl.
  destruct (utf8_decode payload) as [data_str|e]; cbn [snd]; try exact Hl.
  destruct (json_loads data_str); cbn [snd]; exact Hl.
Qed.

Lemma send_recv_no_close (fuel : nat) (data : JSON) (op : Z) (s : client W) :
  close_calls (calls (snd (send_recv fuel data op s))) = close_calls (calls s).
Proof.
  unfold send_recv, Eff.bindf, Eff.total.
  destruct (send_calls data op s) as (_ & cs & Hcalls & Hclose & _).
  destruct (send data op s) as [[u|e] s1]; cbn [snd] in *.
  - destruct (recv_no_close fuel s1) as [Hc _]. rewrite Hc, Hcalls.
    rewrite close_calls_app, Hclose. lia.
  - rewrite Hcalls, close_calls_app, Hclose. lia.
Qed.

(** C5, as the code has it.  For the frame [(ret_op, ret_data)] that
    answers the Handshake frame: the handshake returns if and only if
    the opcode is Frame, [ret_data["cmd"]] is "DISPATCH" and
    [ret_data["evt"]] is "READY".  With an opcode other than Frame and
    Close it raises [RuntimeError(ret_data)] and calls nothing more.
    With the opcode Close it calls [close], hence [_close] once, and
    raises [RuntimeError(ret_data)] when [close] returns.  With the
    opcode Frame and a [cmd] other than "DISPATCH", or a [cmd]
    "DISPATCH" and an [evt] other than "READY", it raises
    [RuntimeError(ret_data)] without closing. *)
Theorem handshake_outcome (fuel : nat) (s s1 : client W) (cid : string)
        (ret_op : Z) (ret_data : JSON) :
  client_id s = Some cid ->
  send_recv fuel (hello cid) OP_HANDSHAKE s = (Ret (ret_op, ret_data), s1) ->
  (fst (_do_handshake fuel s) = Ret tt <->
   ret_op = OP_FRAME /\
   Py.getitem ret_data "cmd" = Ok (JStr "DISPATCH") /\
   Py.getitem ret_data "evt" = Ok (JStr "READY")) /\
  (ret_op <> OP_FRAME -> ret_op <> OP_CLOSE ->
   _do_handshake fuel s = (Raise (RuntimeError ret_data), s1)) /\
  (ret_op = OP_CLOSE ->
   snd (_do_handshake fuel s) = snd (close s1) /\
   close_calls (calls (snd (_do_handshake fuel s))) = S (close_calls (calls s1)) /\
   (forall u, fst (close s1) = Ok u ->
              fst (_do_handshake fuel s) = Raise (RuntimeError ret_data))) /\
  (ret_op = OP_FRAME ->
   (exists cmd, Py.getitem ret_data "cmd" = Ok cmd /\
      (cmd <> JStr "DISPATCH" \/
       exists evt, Py.getitem ret_data "evt" = Ok evt /\ evt <> JStr "READY")) ->
   _do_handshake fuel s = (Raise (RuntimeError ret_data), s1)).
Proof.
  intros Hcid Hsr.
  pose proof (do_handshake_eq fuel s cid Hcid) as Heq. rewrite Hsr in Heq.
  split; [|split; [|split]].
  - rewrite <- handshake_accepted_true. rewrite Heq.
    destruct (handshake_accepted ret_op ret_data) as [[|]|e]; cbn [fst].
    + split; reflexivity.
    + split; [|discriminate].
      destruct (ret_op =? OP_CLOSE); cbn [fst]; [|discriminate].
      destruct (fst (close s1)); discriminate.
    + split; discriminate.
  - intros Hnf Hnc. rewrite Heq. unfold handshake_accepted.
    apply Z.eqb_neq in Hnf. apply Z.eqb_neq in Hnc. rewrite Hnf, Hnc. reflexivity.
  - intros ->. rewrite Heq. cbn.
    split; [reflexivity|]. split; [apply close_trace|].
    intros u Hu. rewrite Hu. reflexivity.
  - intros -> (cmd & Hcmd & Hother). rewrite Heq.
    unfold handshake_accepted. cbn [Z.eqb OP_FRAME Pos.eqb]. rewrite Hcmd.
    destruct (Py.eq_str cmd "DISPATCH") eqn:Ecmd.
    + apply eq_str_true in Ecmd. subst cmd.
      destruct Hother as [Hne | (evt & Hevt & Hne)]; [congruence|].
      rewrite Hevt.
      destruct (Py.eq_str evt "READY") eqn:Eevt.
      * apply eq_str_true in Eevt. congruence.
      * reflexivity.
    + reflexivity.
Qed.

(** C10.  When the answer to the Handshake frame has the opcode Frame
    and its payload is an object without the key "cmd", or with "cmd"
    equal to "DISPATCH" and without the key "evt", the handshake
    raises the [KeyError] of the test itself, not the error that
    carries the payload, and [_close] is not called. *)
Theorem handshake_missing_key (fuel : nat) (s s1 : client W) (cid : string)
        (items : list (string * JSON)) :
  client_id s = Some cid ->
  send_recv fuel (hello cid) OP_HANDSHAKE s = (Ret (OP_FRAME, JDict items), s1) ->
  (Py.dict_get items "cmd" = None ->
   _do_handshake fuel s = (Raise (KeyError "cmd"), s1)) /\
  (Py.dict_get items "cmd" = Some (JStr "DISPATCH") ->
   Py.dict_get items "evt" = None ->
   _do_handshake fuel s = (Raise (KeyError "evt"), s1)) /\
  close_calls (calls s1) = close_calls (calls s).
Proof.
  intros Hcid Hsr.
  pose proof (do_handshake_eq fuel s cid Hcid) as Heq. rewrite Hsr in Heq.
  split; [|split].
  - intros Hcmd. rewrite Heq. unfold handshake_accepted, Py.getitem.
    cbn [Z.eqb OP_FRAME Pos.eqb]. rewrite Hcmd. reflexivity.
  - intros Hcmd Hevt. rewrite Heq. unfold handshake_accepted, Py.getitem.
    cbn [Z.eqb OP_FRAME Pos.eqb]. rewrite Hcmd, Hevt. reflexivity.
  - pose proof (send_recv_no_close fuel (hello cid) OP_HANDSHAKE s) as Hnc.
    rewrite Hsr in Hnc. exact Hnc.
Qed.

End Handshake.

(** ** Publishing an activity *)

Section Activity.

Context {W : Type} `{DiscordIpcClient W} `{JsonLib} `{ProcEnv W}.


End Activity.

(** ** The identifier of [uuid4] *)

Module UuidFacts.

Import Uuid.





















End UuidFacts.

Section ActivityNonce.

Context {W : Type} `{DiscordIpcClient W} `{JsonLib} `{OsRandom W}.

#[local] Existing Instance Uuid.env.


End ActivityNonce.

(** ** The constructor and the two ways to connect *)

Section Constructor.

Context {W : Type} `{DiscordIpcClient W} `{JsonLib}.

Lemma call_connect_eq (s : client W) :
  call_connect s =
  (fst (_connect (impl s)),
   {| client_id := client_id s;
      impl := snd (_connect (impl s));
      calls := calls s ++ [CallConnect] |}).
Proof.
  unfold call_connect, invoke. destruct (_connect (impl s)); reflexivity.
Qed.

(** The value [_connect] returns is dropped: whenever [_connect]
    returns, be it an error object, [__init__] goes on to the
    handshake. *)
Lemma init_after_connect_returns (fuel : nat) (cid : string) (s : client W)
      (v : option exn) (w' : W) :
  _connect (impl s) = (Ok v, w') ->
  __init__ fuel cid s =
  _do_handshake fuel
    {| client_id := Some cid; impl := w'; calls := calls s ++ [CallConnect] |}.
Proof.
  intros Hconnect. unfold __init__.
  unfold Eff.bindf at 1. unfold Eff.total at 1. unfold set_client_id.
  unfold Eff.bindf at 1. unfold Eff.total at 1.
  rewrite call_connect_eq. cbn [impl client_id calls].
  rewrite Hconnect. reflexivity.
Qed.

(** The handshake when [_write] raises: the exception of [_write]
    reaches the caller after the one call of [_write]. *)
Lemma do_handshake_write_raises (fuel : nat) (s : client W) (cid : string)
      (frame : bytes) (e : exn) (w' : W) :
  client_id s = Some cid ->
  encode_frame (hello cid) OP_HANDSHAKE = Ok frame ->
  _write frame (impl s) = (Err e, w') ->
  _do_handshake fuel s =
  (Raise e, {| client_id := client_id s; impl := w';
               calls := calls s ++ [CallWrite frame] |}).
Proof.
  intros Hcid Hframe Hwrite.
  rewrite (do_handshake_eq fuel s cid Hcid).
  unfold send_recv, Eff.bindf, Eff.total.
  rewrite send_eq, Hframe, call_write_eq, Hwrite. reflexivity.
Qed.

End Constructor.

Section WinConnect.

Context {Sys : Type} `{FileSys Sys} `{JsonLib}.

Lemma win_format (i : nat) :
  (i < 10)%nat -> Str.format Win._pipe_pattern i = Ok (Win.candidate i).
Proof.
  intros Hi. do 10 (destruct i as [|i]; [reflexivity|]). lia.
Qed.

Lemma win_connect_loop_exhausted (candidates : list nat) :
  (forall i, In i candidates -> (i < 10)%nat) ->
  forall w : Win.state Sys,
    no_pipe candidates (Win.sys w) ->
    exists w',
      Win.connect_loop candidates w = (Ok None, w') /\
      Win._f w' = Win._f w /\ Win.path w' = Win.path w /\
      Win.probes w'
      = Win.probes w ++ map (fun i => ProbeOpen (Win.candidate i)) candidates.
Proof.
  induction candidates as [|i rest IH]; intros Hin w Hnone.
  - exists w. cbn. rewrite app_nil_r. auto.
  - assert (Hi : (i < 10)%nat) by (apply Hin; left; reflexivity).
    destruct Hnone as (msg & y' & Hopen & Hrest).
    set (w1 := {| Win._f := Win._f w; Win.path := Win.path w; Win.sys := y';
                  Win.probes := Win.probes w ++ [ProbeOpen (Win.candidate i)] |}).
    destruct (IH (fun j Hj => Hin j (or_intror Hj)) w1 Hrest)
      as (w' & Hloop & Hf & Hp & Hprobes).
    exists w'. split; [|split; [|split]].
    + cbn [Win.connect_loop]. unfold Eff.bind at 1. unfold Eff.lift.
      rewrite (win_format i Hi).
      unfold Eff.bind at 1. unfold Win.record_probe.
      unfold Eff.bind at 1. unfold Eff.try, Win.on_sys. cbn [Win.sys].
      rewrite Hopen. cbn [is_OSError]. exact Hloop.
    + exact Hf.
    + exact Hp.
    + rewrite Hprobes. unfold w1. cbn [Win.probes map].
      rewrite <- app_assoc. reflexivity.
Qed.

(** C2, at the failing input.  When none of the ten pipes can be
    opened, [_connect] of the Windows client, having tried all ten in
    order, returns the error object instead of raising it; the
    constructor drops it and goes on to the handshake, where [_write]
    finds no [_f] on a new client: the caller of the constructor gets
    an [AttributeError], after a call of [_write]. *)
Theorem win_connect_failure_not_raised (fuel : nat) (cid : string)
        (s : client (Win.state Sys)) (frame : bytes) :
  no_pipe (seq 0 10) (Win.sys (impl s)) ->
  Win._f (impl s) = None ->
  encode_frame (hello cid) OP_HANDSHAKE = Ok frame ->
  exists w',
    _connect (impl s)
    = (Ok (Some (DiscordIpcError "Failed to connect to Discord pipe")), w') /\
    Win.probes w'
    = Win.probes (impl s) ++ map (fun i => ProbeOpen (Win.candidate i)) (seq 0 10) /\
    __init__ fuel cid s
    = (Raise (AttributeError "_f"),
       {| client_id := Some cid; impl := w';
          calls := calls s ++ [CallConnect; CallWrite frame] |}).
Proof.
  intros Hnone Hf Hframe.
  destruct (win_connect_loop_exhausted (seq 0 10)
              ltac:(intros i Hi; apply in_seq in Hi; lia) (impl s) Hnone)
    as (w' & Hloop & Hf' & _ & Hprobes).
  assert (Hconnect : _connect (impl s)
            = (Ok (Some (DiscordIpcError "Failed to connect to Discord pipe")), w')).
  { cbn [_connect Win.client]. unfold Win._connect, Eff.bind.
    rewrite Hloop. reflexivity. }
  exists w'. split; [exact Hconnect|]. split; [exact Hprobes|].
  rewrite (init_after_connect_returns fuel cid s _ w' Hconnect).
  rewrite (do_handshake_write_raises fuel
             {| client_id := Some cid; impl := w'; calls := calls s ++ [CallConnect] |}
             cid frame (AttributeError "_f") w' eq_refl Hframe).
  - cbn [client_id calls]. rewrite <- app_assoc. reflexivity.
  - cbn [impl _write Win.client]. unfold Win._write, Eff.bind, Win.get_f.
    rewrite Hf', Hf. reflexivity.
Qed.

End WinConnect.

Section UnixConnect.

Context {Sys : Type} `{SocketSys Sys} `{JsonLib}.

Lemma unix_connect_loop_exhausted (pipe_pattern : string) (k : nat)
      (candidates : list nat) :
  forall w : Unix.state Sys,
    Unix._sock w = Some k ->
    no_listener pipe_pattern k candidates (Unix.sys w) ->
    exists w' ps,
      Unix.connect_loop pipe_pattern candidates w = (Ok false, w') /\
      Unix._sock w' = Some k /\
      Unix.probes w' = Unix.probes w ++ ps /\
      exists_probes ps = List.length candidates.
Proof.
  induction candidates as [|i rest IH]; intros w Hsock Hnone.
  - exists w, []. cbn. rewrite app_nil_r. auto.
  - destruct Hnone as (p & Hfmt & Hp).
    cbn [Unix.connect_loop]. unfold Eff.bind at 1. unfold Eff.lift. rewrite Hfmt.
    unfold Eff.bind at 1. unfold Unix.record_probe.
    unfold Eff.bind at 1. unfold Unix.exists_. cbn [Unix.sys].
    destruct (path_exists p (Unix.sys w)) eqn:Ex.
    + destruct Hp as (msg & y' & Hconn & Hrest).
      unfold Eff.bind at 1. unfold Unix.get_sock. cbn [Unix._sock]. rewrite Hsock.
      unfold Eff.bind at 1. unfold Unix.record_probe.
      unfold Eff.bind at 1. unfold Eff.try, Unix.on_sys. cbn [Unix.sys].
      rewrite Hconn. cbn [is_OSError Unix._sock Unix.probes].
      destruct (IH {| Unix._sock := Some k; Unix.sys := y';
                      Unix.probes := (Unix.probes w ++ [ProbeExists p])
                                       ++ [ProbeConnect p] |} eq_refl Hrest)
        as (w' & ps & Hloop & Hs & Hprobes & Hcount).
      exists w', (ProbeExists p :: ProbeConnect p :: ps).
      split; [exact Hloop|]. split; [exact Hs|]. split.
      * rewrite Hprobes. cbn [Unix.probes]. rewrite <- !app_assoc. reflexivity.
      * unfold exists_probes in *. cbn. rewrite Hcount. reflexivity.
    + destruct (IH {| Unix._sock := Unix._sock w; Unix.sys := Unix.sys w;
                      Unix.probes := Unix.probes w ++ [ProbeExists p] |} Hsock Hp)
        as (w' & ps & Hloop & Hs & Hprobes & Hcount).
      exists w', (ProbeExists p :: ps).
      split; [exact Hloop|]. split; [exact Hs|]. split.
      * rewrite Hprobes. cbn [Unix.probes]. rewrite <- !app_assoc. reflexivity.
      * unfold exists_probes in *. cbn. rewrite Hcount. reflexivity.
Qed.

(** The same slip in the Unix client: with no candidate to connect
    to, [_connect] returns the error object after testing the ten
    paths, and the constructor goes on to the handshake over a socket
    that is not connected. *)
Lemma unix_connect_failure_not_raised (fuel : nat) (cid : string)
      (s : client (Unix.state Sys)) (k : nat) (y0 : Sys) :
  socket_new (Unix.sys (impl s)) = (Ok k, y0) ->
  no_listener
    (Str.path_join (Unix.first_dir ["XDG_RUNTIME_DIR"; "TMPDIR"; "TMP"; "TEMP"] y0)
                   "discord-ipc-{}") k (seq 0 10) y0 ->
  exists w' ps,
    _connect (impl s)
    = (Ok (Some (DiscordIpcError "Failed to connect to Discord pipe")), w') /\
    Unix._sock w' = Some k /\
    Unix.probes w' = Unix.probes (impl s) ++ ps /\ exists_probes ps = 10%nat /\
    __init__ fuel cid s
    = _do_handshake fuel
        {| client_id := Some cid; impl := w'; calls := calls s ++ [CallConnect] |}.
Proof.
  intros Hnew Hnone.
  destruct (unix_connect_loop_exhausted _ k (seq 0 10)
              {| Unix._sock := Some k; Unix.sys := y0;
                 Unix.probes := Unix.probes (impl s) |} eq_refl Hnone)
    as (w' & ps & Hloop & Hs & Hprobes & Hcount).
  assert (Hconnect : _connect (impl s)
            = (Ok (Some (DiscordIpcError "Failed to connect to Discord pipe")), w')).
  { cbn [_connect Unix.client]. unfold Unix._connect.
    unfold Eff.bind at 1. unfold Unix.on_sys. rewrite Hnew.
    unfold Eff.bind at 1. unfold Unix.set_sock. cbn [Unix.sys Unix.probes].
    unfold Eff.bind at 1. unfold Unix._get_pipe_pattern. cbn [Unix.sys].
    unfold Eff.bind at 1. rewrite Hloop. reflexivity. }
  exists w', ps. split; [exact Hconnect|]. split; [exact Hs|].
  split; [exact Hprobes|]. split; [exact Hcount|].
  exact (init_after_connect_returns fuel cid s _ w' Hconnect).
Qed.

End UnixConnect.

(** ** The scripted transport *)

Module ScriptFacts.

Lemma eof (s : Script.state) : Script.inbox s = [] -> at_eof s.
Proof.
  intros Hempty size Hsize. cbn [_recv Script.client]. unfold Script.read.
  destruct (Z.ltb_spec size 0); [lia|]. rewrite Hempty. reflexivity.
Qed.

Lemma feeds_inbox_aux (n : nat) :
  forall s : Script.state,
    List.length (List.concat (Script.inbox s)) = n ->
    Forall (fun seg => seg <> []) (Script.inbox s) ->
    feeds s (List.concat (Script.inbox s)).
Proof.
  induction n as [n IH] using lt_wf_ind. intros s.
  destruct (Script.inbox s) as [|seg rest] eqn:Hin; intros Hn Hsegs; [constructor|].
  inversion Hsegs as [|? ? Hseg Hrest]; subst.
  destruct seg as [|b seg]; [congruence|].
  cbn [List.concat app]. constructor. intros size Hsize.
  cbn [_recv Script.client]. unfold Script.read. rewrite Hin.
  destruct (Z.ltb_spec size 0); [lia|].
  destruct (Z.leb_spec (len (b :: seg)) size) as [Hfit|Hbig].
  - exists (b :: seg), (Script.with_inbox s rest).
    split; [reflexivity|]. split; [discriminate|]. split; [exact Hfit|].
    exists (List.concat rest). split; [reflexivity|].
    apply (IH (List.length (List.concat rest))).
    + cbn [List.concat List.length app]. rewrite length_app. cbn. lia.
    + reflexivity.
    + exact Hrest.
  - unfold len in Hbig.
    assert (Hk : (0 < Z.to_nat size < List.length (b :: seg))%nat) by lia.
    exists (firstn (Z.to_nat size) (b :: seg)),
           (Script.with_inbox s (skipn (Z.to_nat size) (b :: seg) :: rest)).
    split; [reflexivity|]. split; [|split].
    + destruct (Z.to_nat size); [lia | discriminate].
    + unfold len. rewrite length_firstn. lia.
    + exists (skipn (Z.to_nat size) (b :: seg) ++ List.concat rest). split.
      * rewrite app_assoc, firstn_skipn. reflexivity.
      * apply (IH (List.length (skipn (Z.to_nat size) (b :: seg) ++ List.concat rest))).
        -- cbn [List.concat]. rewrite !length_app, length_skipn. lia.
        -- reflexivity.
        -- constructor; [|exact Hrest].
           intros Hnil. apply (f_equal (@List.length byte)) in Hnil.
           rewrite length_skipn in Hnil. cbn [List.length] in Hnil, Hk. lia.
Qed.

(** The scripted transport delivers its inbox, whatever the cut into
    segments, provided no segment is empty. *)
Lemma feeds_inbox (s : Script.state) :
  Forall (fun seg => seg <> []) (Script.inbox s) ->
  feeds s (List.concat (Script.inbox s)).
Proof.
  intros Hsegs. exact (feeds_inbox_aux _ s eq_refl Hsegs).
Qed.

End ScriptFacts.

(** ** Runs on the scripted transport *)

(** A handshake that the peer accepts returns, over a transport that
    cuts the answer into three segments. *)
Example handshake_ready :
  let answer := Fixtures.frame_of OP_FRAME Fixtures.ready in
  let s := Fixtures.named (Script.quiet [firstn 1 answer; firstn 3 (skipn 1 answer);
                                         skipn 4 answer]) in
  fst (_do_handshake 200 s) = Ret tt /\
  Script.outbox (impl (snd (_do_handshake 200 s)))
  = [Fixtures.frame_of OP_HANDSHAKE (hello Fixtures.app_id)] /\
  Script.closed (impl (snd (_do_handshake 200 s))) = 0%nat.
Proof. vm_compute. repeat split. Qed.

(** A Frame answer with another event is refused without closing. *)
Example handshake_not_ready :
  let s := Fixtures.named (Script.quiet [Fixtures.frame_of OP_FRAME Fixtures.not_ready]) in
  fst (_do_handshake 200 s) = Raise (RuntimeError Fixtures.not_ready) /\
  Script.closed (impl (snd (_do_handshake 200 s))) = 0%nat.
Proof. vm_compute. repeat split. Qed.

(** A Close answer closes the transport, after a Close frame, and is
    refused. *)
Example handshake_rejected :
  let s := Fixtures.named (Script.quiet [Fixtures.frame_of OP_CLOSE Fixtures.rejected]) in
  fst (_do_handshake 200 s) = Raise (RuntimeError Fixtures.rejected) /\
  Script.outbox (impl (snd (_do_handshake 200 s)))
  = [ Fixtures.frame_of OP_HANDSHAKE (hello Fixtures.app_id);
      Fixtures.frame_of OP_CLOSE (JDict []) ] /\
  Script.closed (impl (snd (_do_handshake 200 s))) = 1%nat.
Proof. vm_compute. repeat split. Qed.

(** The Handshake frame, byte by byte. *)
Example handshake_frame_bytes :
  map Struct.Z_of_byte (Fixtures.frame_of OP_HANDSHAKE (hello Fixtures.app_id))
  = [0; 0; 0; 0; 40; 0; 0; 0] ++
    map Struct.Z_of_byte
        (MiniJson.encode (MiniJson.dumps (hello Fixtures.app_id))).
Proof. vm_compute. reflexivity. Qed.

(** ** The claims at concrete inputs *)

(** C1: a peer that has hung up before the header. *)
Lemma recv_exactly_never_returns_at_eof_witness :
  0 < 8 /\
  at_eof (impl (new_client (Script.quiet []))) /\
  fst (_recv_exactly 1000 8 (new_client (Script.quiet []))) = OutOfFuel.
Proof.
  split; [lia|]. split; [apply ScriptFacts.eof; reflexivity|].
  exact (proj1 (recv_exactly_never_returns_at_eof
                  (new_client (Script.quiet [])) 8 1000
                  ltac:(lia) (ScriptFacts.eof (Script.quiet []) eq_refl))).
Defined.

(** A peer that hangs up in the middle of a header: three of the eight
    bytes arrive, and the reader never returns, whatever the fuel. *)
Lemma recv_exactly_hangs_mid_frame (fuel : nat) :
  fst (_recv_exactly fuel 8 (new_client (Script.quiet [[x01; x00; x00]]))) = OutOfFuel.
Proof.
  destruct fuel as [|fuel]; [reflexivity|].
  unfold _recv_exactly.
  rewrite (recv_exactly_loop_step fuel [] [x01; x00; x00] 8
             (new_client (Script.quiet [[x01; x00; x00]]))
             (Script.quiet [])) by (lia || reflexivity).
  rewrite recv_exactly_loop_eof; [reflexivity | reflexivity |].
  apply ScriptFacts.eof. reflexivity.
Qed.

(** C2: a system without any pipe. *)
Lemma win_connect_failure_not_raised_witness :
  no_pipe (seq 0 10) (Win.sys (impl Fixtures.stranded)) /\
  Win._f (impl Fixtures.stranded) = None /\
  encode_frame (hello Fixtures.app_id) OP_HANDSHAKE
  = Ok (Fixtures.frame_of OP_HANDSHAKE (hello Fixtures.app_id)) /\
  exists w',
    _connect (impl Fixtures.stranded)
    = (Ok (Some (DiscordIpcError "Failed to connect to Discord pipe")), w') /\
    Win.probes w'
    = Win.probes (impl Fixtures.stranded)
        ++ map (fun i => ProbeOpen (Win.candidate i)) (seq 0 10) /\
    __init__ 100 Fixtures.app_id Fixtures.stranded
    = (Raise (AttributeError "_f"),
       {| client_id := Some Fixtures.app_id; impl := w';
          calls := calls Fixtures.stranded
                     ++ [CallConnect;
                         CallWrite (Fixtures.frame_of OP_HANDSHAKE
                                      (hello Fixtures.app_id))] |}).
Proof.
  assert (Hnone : no_pipe (seq 0 10) (Win.sys (impl Fixtures.stranded))).
  { cbn [seq no_pipe].
    repeat (exists "No such file or directory", FakeSys.desert;
            split; [reflexivity|]).
    exact I. }
  split; [exact Hnone|]. split; [reflexivity|]. split; [reflexivity|].
  exact (win_connect_failure_not_raised 100 Fixtures.app_id Fixtures.stranded
           (Fixtures.frame_of OP_HANDSHAKE (hello Fixtures.app_id))
           Hnone eq_refl eq_refl).
Defined.

(** The same run of the Unix client: ten paths tested, ten connections
    refused, and an [OSError] of the handshake's [sendall] in the end. *)
Example unix_connect_failure_run :
  fst (_connect (impl Fixtures.unheard))
  = Ok (Some (DiscordIpcError "Failed to connect to Discord pipe")) /\
  exists_probes (Unix.probes (snd (_connect (impl Fixtures.unheard)))) = 10%nat /\
  fst (__init__ 100 Fixtures.app_id Fixtures.unheard)
  = Raise (OSError "Transport endpoint is not connected").
Proof. vm_compute. repeat split. Qed.

(** C3, counterexample: the pipe is broken, [send] raises, and the
    caller of [close] gets that error, after [_close] has run. *)
Lemma close_lets_broken_pipe_through :
  let s := new_client (Script.broken (OSError "Broken pipe") []) in
  fst (send (JDict []) OP_CLOSE s) = Err (OSError "Broken pipe") /\
  fst (close s) = Err (OSError "Broken pipe") /\
  Script.closed (impl (snd (close s))) = 1%nat.
Proof. vm_compute. repeat split. Qed.

(** Two runs of C3: a broken pipe that closes quietly, and one whose
    [_close] raises as well. *)
Lemma close_reraises_send_error_witness :
  let s := new_client (Script.broken (OSError "Broken pipe") []) in
  let s' := new_client (Script.jammed (OSError "Broken pipe")
                                      (OSError "Bad file descriptor")) in
  (fst (send (JDict []) OP_CLOSE s) = Err (OSError "Broken pipe") /\
   fst (close s) = Err (OSError "Broken pipe") /\
   Script.closed (impl (snd (close s))) = 1%nat) /\
  (fst (send (JDict []) OP_CLOSE s') = Err (OSError "Broken pipe") /\
   fst (close s') = Err (OSError "Bad file descriptor") /\
   Script.closed (impl (snd (close s'))) = 1%nat).
Proof.
  intros s s'. split.
  - destruct (@close_reraises_send_error _ Script.client MiniJson.lib
                s (OSError "Broken pipe") eq_refl)
      as (Hout & Himpl & _).
    split; [reflexivity|]. split; [exact Hout|].
    exact (f_equal Script.closed Himpl).
  - destruct (@close_reraises_send_error _ Script.client MiniJson.lib
                s' (OSError "Broken pipe") eq_refl)
      as (Hout & Himpl & _).
    split; [reflexivity|]. split; [exact Hout|].
    exact (f_equal Script.closed Himpl).
Defined.

(** Two runs of C4: the transport is closed once, whether the Close
    frame was written or the write raised. *)
Lemma close_invokes_transport_close_once_witness :
  let s := new_client (Script.quiet []) in
  let s' := new_client (Script.broken (OSError "Broken pipe") []) in
  (fst (send (JDict []) OP_CLOSE s) = Ok tt /\
   close_calls (calls (snd (close s))) = 1%nat /\
   Script.closed (impl (snd (close s))) = 1%nat) /\
  (fst (send (JDict []) OP_CLOSE s') = Err (OSError "Broken pipe") /\
   close_calls (calls (snd (close s'))) = 1%nat /\
   Script.closed (impl (snd (close s'))) = 1%nat).
Proof.
  intros s s'. split.
  - destruct (@close_invokes_transport_close_once _ Script.client MiniJson.lib s) as (Hcount & _ & Himpl & _).
    split; [reflexivity|]. split; [exact Hcount|].
    exact (f_equal Script.closed Himpl).
  - destruct (@close_invokes_transport_close_once _ Script.client MiniJson.lib s') as (Hcount & _ & Himpl & _).
    split; [reflexivity|]. split; [exact Hcount|].
    exact (f_equal Script.closed Himpl).
Defined.

(** C5, counterexample: the peer answers with a Frame whose payload is
    the empty object; the handshake raises a [KeyError], not the error
    that carries the payload. *)
Lemma handshake_empty_object_raises_key_error :
  let s := Fixtures.named (Script.quiet [Fixtures.frame_of OP_FRAME (JDict [])]) in
  fst (send_recv 200 (hello Fixtures.app_id) OP_HANDSHAKE s)
  = Ret (OP_FRAME, JDict []) /\
  fst (_do_handshake 200 s) = Raise (KeyError "cmd") /\
  fst (_do_handshake 200 s) <> Raise (RuntimeError (JDict [])).
Proof. vm_compute. repeat split. discriminate. Qed.

Lemma handshake_outcome_witness :
  let s := Fixtures.named (Script.quiet [Fixtures.frame_of OP_CLOSE Fixtures.rejected]) in
  let s1 := snd (send_recv 200 (hello Fixtures.app_id) OP_HANDSHAKE s) in
  client_id s = Some Fixtures.app_id /\
  send_recv 200 (hello Fixtures.app_id) OP_HANDSHAKE s
  = (Ret (OP_CLOSE, Fixtures.rejected), s1) /\
  close_calls (calls (snd (_do_handshake 200 s))) = S (close_calls (calls s1)) /\
  fst (_do_handshake 200 s) = Raise (RuntimeError Fixtures.rejected).
Proof.
  intros s s1.
  assert (Hsr : send_recv 200 (hello Fixtures.app_id) OP_HANDSHAKE s
                = (Ret (OP_CLOSE, Fixtures.rejected), s1)) by (vm_compute; reflexivity).
  split; [reflexivity|]. split; [exact Hsr|].
  destruct (handshake_outcome 200 s s1 Fixtures.app_id OP_CLOSE Fixtures.rejected
              eq_refl Hsr) as (_ & _ & Hclose & _).
  destruct (Hclose eq_refl) as (_ & Hcount & Hraise).
  split; [exact Hcount|]. exact (Hraise tt eq_refl).
Defined.

(** C10: the same answer as in the counterexample of C5. *)
Lemma handshake_missing_key_witness :
  let s := Fixtures.named (Script.quiet [Fixtures.frame_of OP_FRAME (JDict [])]) in
  let s1 := snd (send_recv 200 (hello Fixtures.app_id) OP_HANDSHAKE s) in
  client_id s = Some Fixtures.app_id /\
  send_recv 200 (hello Fixtures.app_id) OP_HANDSHAKE s = (Ret (OP_FRAME, JDict []), s1) /\
  _do_handshake 200 s = (Raise (KeyError "cmd"), s1) /\
  close_calls (calls s1) = close_calls (calls s).
Proof.
  intros s s1.
  assert (Hsr : send_recv 200 (hello Fixtures.app_id) OP_HANDSHAKE s
                = (Ret (OP_FRAME, JDict []), s1)) by (vm_compute; reflexivity).
  split; [reflexivity|]. split; [exact Hsr|].
  destruct (handshake_missing_key 200 s s1 Fixtures.app_id [] eq_refl Hsr)
    as (Hcmd & _ & Hnc).
  split; [exact (Hcmd eq_refl) | exact Hnc].
Defined.



(** The same frame through a transport that returns it in chunks of
    one byte, three bytes and the remainder. *)
Example round_trip_in_chunks :
  let frame := Fixtures.frame_of OP_FRAME Fixtures.activity in
  let s := new_client (Script.quiet [firstn 1 frame; firstn 3 (skipn 1 frame);
                                     skipn 4 frame]) in
  encode_frame Fixtures.activity OP_FRAME = Ok frame /\
  fst (recv 200 s) = Ret (OP_FRAME, Fixtures.activity) /\
  fst (recv 200 (new_client (Script.quiet [frame]))) = fst (recv 200 s).
Proof. vm_compute. repeat split. Qed.

(** C7: the Handshake frame of the application. *)
Lemma send_frame_wire_format_witness :
  let s := new_client (Script.quiet []) in
  let payload := utf8_encode (json_dumps (hello Fixtures.app_id)) in
  Struct.uint32 OP_HANDSHAKE = true /\
  Struct.uint32 (len payload) = true /\
  written (calls (snd (send (hello Fixtures.app_id) OP_HANDSHAKE s)))
  = written (calls s)
      ++ [(Struct.le32 OP_HANDSHAKE ++ Struct.le32 (len payload)) ++ payload].
Proof.
  intros s payload. split; [reflexivity|]. split; [reflexivity|].
  exact (proj1 (send_frame_wire_format (hello Fixtures.app_id) OP_HANDSHAKE s
                  eq_refl eq_refl)).
Defined.

(** C8, counterexample: a frame with the opcode 5 is returned by
    [recv] as any other; no error is raised. *)
Lemma recv_returns_opcode_five :
  let s := new_client (Script.quiet [Fixtures.frame_of 5 (JDict [])]) in
  ~ In 5 [OP_HANDSHAKE; OP_FRAME; OP_CLOSE; OP_PING; OP_PONG] /\
  fst (recv 200 s) = Ret (5, JDict []).
Proof.
  split.
  - cbn. intros [E|[E|[E|[E|[E|[]]]]]]; discriminate E.
  - vm_compute. reflexivity.
Qed.

(** Two frames with the opcode 5: one with the payload [{}], returned
    with its opcode, and one with no payload at all, at which the JSON
    library raises. *)
Lemma recv_passes_unrecognized_opcode_witness :
  let payload := MiniJson.encode (MiniJson.dumps (JDict [])) in
  let s := new_client (Script.quiet [Fixtures.frame_of 5 (JDict [])]) in
  let empty : bytes := [] in
  let s0 := new_client (Script.quiet [Struct.le32 5 ++ Struct.le32 0]) in
  ~ In 5 [OP_HANDSHAKE; OP_FRAME; OP_CLOSE; OP_PING; OP_PONG] /\
  feeds (impl s) ((Struct.le32 5 ++ Struct.le32 (len payload) ++ payload) ++ []) /\
  feeds (impl s0) ((Struct.le32 5 ++ Struct.le32 (len empty) ++ empty) ++ []) /\
  (exists s', feeds (impl s') [] /\ recv 200 s = (Ret (5, JDict []), s')) /\
  (exists s', feeds (impl s') [] /\ recv 8 s0 = (Raise JSONDecodeError, s')).
Proof.
  intros payload s empty s0.
  assert (Hnot : ~ In 5 [OP_HANDSHAKE; OP_FRAME; OP_CLOSE; OP_PING; OP_PONG])
    by (cbn; intros [E|[E|[E|[E|[E|[]]]]]]; discriminate E).
  assert (Hfeeds : feeds (impl s)
                     ((Struct.le32 5 ++ Struct.le32 (len payload) ++ payload) ++ [])).
  { apply (ScriptFacts.feeds_inbox (impl s)).
    constructor; [discriminate | constructor]. }
  assert (Hfeeds0 : feeds (impl s0)
                      ((Struct.le32 5 ++ Struct.le32 (len empty) ++ empty) ++ [])).
  { apply (ScriptFacts.feeds_inbox (impl s0)).
    constructor; [discriminate | constructor]. }
  assert (Hfuel : (8 + List.length payload <= 200)%nat) by (vm_compute; lia).
  split; [exact Hnot|]. split; [exact Hfeeds|]. split; [exact Hfeeds0|]. split.
  - exact (@recv_passes_unrecognized_opcode _ Script.client MiniJson.lib
             5 payload [] s 200 eq_refl Hnot eq_refl Hfeeds Hfuel).
  - exact (@recv_passes_unrecognized_opcode _ Script.client MiniJson.lib
             5 empty [] s0 8 eq_refl Hnot eq_refl Hfeeds0 (le_n 8)).
Defined.



(** * Further properties of the client *)

Section ReaderMore.

Context {W : Type} `{DiscordIpcClient W}.

(** The reader leaves the attribute [client_id] alone. *)
Lemma recv_exactly_loop_id (fuel : nat) :
  forall (buf : bytes) (size : Z) (s : client W),
    client_id (snd (_recv_exactly_loop fuel buf size s)) = client_id s.
Proof.
  induction fuel as [|fuel IH]; intros buf size s; cbn [_recv_exactly_loop].
  - destruct (size =? 0); reflexivity.
  - destruct (size =? 0); [reflexivity|].
    unfold Eff.bindf, Eff.total. rewrite call_recv_eq.
    destruct (fst (_recv size (impl s))) as [chunk|e].
    + rewrite IH. reflexivity.
    + reflexivity.
Qed.

(** X1.  On a transport each of whose reads of a positive size returns
    at least one and at most [size] bytes, [_recv_exactly] asked for
    [n >= 0] bytes returns, with fuel for one turn per byte, exactly [n]
    bytes: the chunks of its reads, concatenated in order. *)
Theorem recv_exactly_terminates (Inv : W -> Prop) (s : client W) (n : Z) (fuel : nat) :
  (forall w size, Inv w -> 0 < size ->
     exists chunk w', _recv size w = (Ok chunk, w') /\
                      0 < len chunk <= size /\ Inv w') ->
  0 <= n -> Inv (impl s) -> (Z.to_nat n <= fuel)%nat ->
  exists bs s',
    _recv_exactly fuel n s = (Ret bs, s') /\
    len bs = n /\
    exists cs, calls s' = calls s ++ cs /\ List.concat (chunks cs) = bs.
Proof.
  intros Hread Hn Hinv Hfuel. unfold _recv_exactly.
  destruct (recv_exactly_loop_progress Inv Hread (Z.to_nat n) n [] s fuel
              Hn eq_refl Hinv Hfuel)
    as (bs & s' & Hrun & Hlen & _ & Hcs).
  exists bs, s'. auto.
Qed.

(** X2.  [_recv_exactly] never reads past what it was asked for: from a
    transport that delivers [bs] and then [rest], reading [len bs]
    bytes returns [bs], however the transport cuts it into chunks, and
    leaves [rest] to the next reader; nothing is written or closed. *)
Theorem recv_exactly_reassembles (s : client W) (bs rest : bytes) (fuel : nat) :
  feeds (impl s) (bs ++ rest) ->
  (List.length bs <= fuel)%nat ->
  exists s',
    _recv_exactly fuel (len bs) s = (Ret bs, s') /\
    feeds (impl s') rest /\
    exists cs, calls s' = calls s ++ cs /\ List.concat (chunks cs) = bs /\
               written cs = [] /\ close_calls cs = 0%nat.
Proof.
  intros Hfeeds Hfuel.
  destruct (recv_exactly_returns s bs rest fuel Hfeeds Hfuel)
    as (s' & Hrun & Hrest & _ & Hcs).
  exists s'. auto.
Qed.

End ReaderMore.

Section FramesMore.

Context {W : Type} `{DiscordIpcClient W} `{JsonLib}.

(** A frame whose payload the library cannot decode is read whole
    before the error is raised. *)
Lemma recv_frame_undecodable (op : Z) (payload rest : bytes) (e : exn)
      (s : client W) (fuel : nat) :
  Struct.uint32 op = true ->
  Struct.uint32 (len payload) = true ->
  (utf8_decode payload = Err e \/
   exists data_str, utf8_decode payload = Ok data_str /\ json_loads data_str = Err e) ->
  feeds (impl s) ((Struct.le32 op ++ Struct.le32 (len payload) ++ payload) ++ rest) ->
  (8 <= fuel)%nat ->
  (List.length payload <= fuel)%nat ->
  exists s',
    recv fuel s = (Raise e, s') /\
    feeds (impl s') rest /\
    exists cs, calls s' = calls s ++ cs /\
               List.concat (chunks cs)
               = Struct.le32 op ++ Struct.le32 (len payload) ++ payload.
Proof.
  intros Hop Hlen Hbad Hfeeds Hf8 Hfp.
  set (header := Struct.le32 op ++ Struct.le32 (len payload)).
  assert (Hfeeds1 : feeds (impl s) (header ++ (payload ++ rest))).
  { unfold header. rewrite <- !app_assoc in Hfeeds. rewrite <- app_assoc.
    exact Hfeeds. }
  destruct (recv_exactly_returns s header (payload ++ rest) fuel Hfeeds1 Hf8)
    as (s1 & Hrun1 & Hfeeds2 & _ & cs1 & Hcalls1 & Hch1 & _).
  change (len header) with 8 in Hrun1.
  destruct (recv_exactly_returns s1 payload rest fuel Hfeeds2 Hfp)
    as (s2 & Hrun2 & Hfeeds3 & _ & cs2 & Hcalls2 & Hch2 & _).
  assert (Hunpack : Struct.unpack_II header = Ok (op, len payload)).
  { apply StructFacts.unpack_pack. unfold Struct.pack_II.
    rewrite Hop, Hlen. reflexivity. }
  exists s2. split; [|split].
  - rewrite recv_eq, Hrun1, Hunpack, Hrun2.
    destruct Hbad as [Hdec | (data_str & Hdec & Hloads)].
    + rewrite Hdec. reflexivity.
    + rewrite Hdec, Hloads. reflexivity.
  - exact Hfeeds3.
  - exists (cs1 ++ cs2). rewrite Hcalls2, Hcalls1, <- app_assoc.
    split; [reflexivity|].
    rewrite chunks_app, concat_app, Hch1, Hch2.
    unfold header. rewrite <- app_assoc. reflexivity.
Qed.

(** X3.  Frames are received in the order the peer sent them: from a
    transport that delivers two frames back to back, in whatever
    chunks, two calls of [recv] return the first and then the second,
    and leave what follows unread. *)
Theorem recv_twice_in_order (op1 op2 : Z) (payload1 payload2 rest : bytes)
        (str1 str2 : string) (data1 data2 : JSON) (s : client W) (fuel : nat) :
  Struct.uint32 op1 = true -> Struct.uint32 (len payload1) = true ->
  utf8_decode payload1 = Ok str1 -> json_loads str1 = Ok data1 ->
  Struct.uint32 op2 = true -> Struct.uint32 (len payload2) = true ->
  utf8_decode payload2 = Ok str2 -> json_loads str2 = Ok data2 ->
  feeds (impl s)
    ((Struct.le32 op1 ++ Struct.le32 (len payload1) ++ payload1)
       ++ (Struct.le32 op2 ++ Struct.le32 (len payload2) ++ payload2) ++ rest) ->
  (8 + List.length payload1 + List.length payload2 <= fuel)%nat ->
  exists s1 s2,
    recv fuel s = (Ret (op1, data1), s1) /\
    recv fuel s1 = (Ret (op2, data2), s2) /\
    feeds (impl s2) rest.
Proof.
  intros Hop1 Hlen1 Hdec1 Hloads1 Hop2 Hlen2 Hdec2 Hloads2 Hfeeds Hfuel.
  destruct (recv_frame op1 payload1 _ str1 data1 s fuel
              Hop1 Hlen1 Hdec1 Hloads1 Hfeeds ltac:(lia) ltac:(lia))
    as (s1 & Hrecv1 & Hfeeds1 & _).
  destruct (recv_frame op2 payload2 rest str2 data2 s1 fuel
              Hop2 Hlen2 Hdec2 Hloads2 Hfeeds1 ltac:(lia) ltac:(lia))
    as (s2 & Hrecv2 & Hfeeds2 & _).
  exists s1, s2. auto.
Qed.

(** X4.  A frame with an empty payload cannot be received: after the
    eight bytes of a header that announces the length 0, [recv] makes
    no further read and hands the empty text to [json.loads], whose
    error it raises. *)
Theorem recv_empty_payload_raises (op : Z) (rest : bytes) (empty : string) (e : exn)
        (s : client W) (fuel : nat) :
  Struct.uint32 op = true ->
  utf8_decode [] = Ok empty ->
  json_loads empty = Err e ->
  feeds (impl s) ((Struct.le32 op ++ Struct.le32 0) ++ rest) ->
  (8 <= fuel)%nat ->
  exists s',
    recv fuel s = (Raise e, s') /\
    feeds (impl s') rest /\
    exists cs, calls s' = calls s ++ cs /\
               List.concat (chunks cs) = Struct.le32 op ++ Struct.le32 0.
Proof.
  intros Hop Hdec Hloads Hfeeds Hfuel.
  assert (Hfeeds' : feeds (impl s)
                      ((Struct.le32 op ++ Struct.le32 (len (@nil byte)) ++ []) ++ rest)).
  { rewrite app_nil_r. exact Hfeeds. }
  destruct (recv_frame_undecodable op [] rest e s fuel Hop eq_refl
              (or_intror (ex_intro _ empty (conj Hdec Hloads)))
              Hfeeds' Hfuel ltac:(cbn; lia))
    as (s' & Hrecv & Hrest & cs & Hcalls & Hch).
  exists s'. split; [exact Hrecv|]. split; [exact Hrest|].
  exists cs. split; [exact Hcalls|]. rewrite Hch, app_nil_r. reflexivity.
Qed.

(** X5.  An error of the payload decoding does not lose the frame
    boundary: [recv] raises the error of [bytes.decode] or of
    [json.loads] only after it has read the whole frame, so that the
    next [recv] returns the frame that follows. *)
Theorem recv_after_decode_error (op1 op2 : Z) (payload1 payload2 rest : bytes) (e : exn)
        (str2 : string) (data2 : JSON) (s : client W) (fuel : nat) :
  Struct.uint32 op1 = true -> Struct.uint32 (len payload1) = true ->
  (utf8_decode payload1 = Err e \/
   exists str1, utf8_decode payload1 = Ok str1 /\ json_loads str1 = Err e) ->
  Struct.uint32 op2 = true -> Struct.uint32 (len payload2) = true ->
  utf8_decode payload2 = Ok str2 -> json_loads str2 = Ok data2 ->
  feeds (impl s)
    ((Struct.le32 op1 ++ Struct.le32 (len payload1) ++ payload1)
       ++ (Struct.le32 op2 ++ Struct.le32 (len payload2) ++ payload2) ++ rest) ->
  (8 + List.length payload1 + List.length payload2 <= fuel)%nat ->
  exists s1 s2,
    recv fuel s = (Raise e, s1) /\
    recv fuel s1 = (Ret (op2, data2), s2) /\
    feeds (impl s2) rest.
Proof.
  intros Hop1 Hlen1 Hbad Hop2 Hlen2 Hdec2 Hloads2 Hfeeds Hfuel.
  destruct (recv_frame_undecodable op1 payload1 _ e s fuel
              Hop1 Hlen1 Hbad Hfeeds ltac:(lia) ltac:(lia))
    as (s1 & Hrecv1 & Hfeeds1 & _).
  destruct (recv_frame op2 payload2 rest str2 data2 s1 fuel
              Hop2 Hlen2 Hdec2 Hloads2 Hfeeds1 ltac:(lia) ltac:(lia))
    as (s2 & Hrecv2 & Hfeeds2 & _).
  exists s1, s2. auto.
Qed.

Lemma range_error_is_struct_error (a b : Z) :
  exists msg, Struct.range_error a b = StructError msg.
Proof.
  unfold Struct.range_error, Struct.field_error.
  destruct (Struct.uint32 a);
    [destruct ((b <? 0) || (2 ^ 64 <=? b)) | destruct ((a <? 0) || (2 ^ 64 <=? a))];
    eexists; reflexivity.
Qed.

(** X6.  [send] with an opcode or a payload length outside the range of
    an unsigned 32-bit integer raises a [struct.error], whatever its
    message, before anything is written: the client, its transport
    included, is left as it was. *)
Theorem send_out_of_range_writes_nothing (data : JSON) (op : Z) (s : client W) :
  op < 0 \/ 2 ^ 32 <= op \/ 2 ^ 32 <= len (utf8_encode (json_dumps data)) ->
  exists msg, send data op s = (Err (StructError msg), s).
Proof.
  intros Hrange.
  destruct (range_error_is_struct_error op (len (utf8_encode (json_dumps data))))
    as [msg Hmsg].
  exists msg. rewrite <- Hmsg. apply send_out_of_range.
  unfold Struct.uint32.
  destruct Hrange as [Hneg | [Hbig | Hlong]].
  - destruct (Z.leb_spec 0 op); [lia | reflexivity].
  - destruct (Z.ltb_spec op (2 ^ 32)); [lia|]. rewrite andb_false_r. reflexivity.
  - destruct (Z.ltb_spec (len (utf8_encode (json_dumps data))) (2 ^ 32)); [lia|].
    rewrite !andb_false_r. reflexivity.
Qed.

End FramesMore.

Section ConstructorMore.

Context {W : Type} `{DiscordIpcClient W} `{JsonLib}.

(** X7.  The constructor on a peer that is ready: once [_connect] has
    returned, the Handshake frame is written and the peer's answer, a
    Frame whose payload has "cmd" "DISPATCH" and "evt" "READY", is
    read, [__init__] returns; it has written that one frame, closed
    nothing, kept the client id, and left what follows the answer
    unread. *)
Theorem init_succeeds_when_ready (fuel : nat) (cid : string) (s : client W)
        (v : option exn) (w1 w2 : W) (frame payload rest : bytes)
        (data_str : string) (data : JSON) :
  _connect (impl s) = (Ok v, w1) ->
  encode_frame (hello cid) OP_HANDSHAKE = Ok frame ->
  _write frame w1 = (Ok tt, w2) ->
  Struct.uint32 (len payload) = true ->
  utf8_decode payload = Ok data_str ->
  json_loads data_str = Ok data ->
  Py.getitem data "cmd" = Ok (JStr "DISPATCH") ->
  Py.getitem data "evt" = Ok (JStr "READY") ->
  feeds w2 ((Struct.le32 OP_FRAME ++ Struct.le32 (len payload) ++ payload) ++ rest) ->
  (8 + List.length payload <= fuel)%nat ->
  exists s',
    __init__ fuel cid s = (Ret tt, s') /\
    client_id s' = Some cid /\
    written (calls s') = written (calls s) ++ [frame] /\
    close_calls (calls s') = close_calls (calls s) /\
    feeds (impl s') rest.
Proof.
  intros Hconnect Hframe Hwrite Hlen Hdec Hloads Hcmd Hevt Hfeeds Hfuel.
  rewrite (init_after_connect_returns fuel cid s v w1 Hconnect).
  set (s0 := {| client_id := Some cid; impl := w1; calls := calls s ++ [CallConnect] |}).
  set (s1 := {| client_id := Some cid; impl := w2;
                calls := (calls s ++ [CallConnect]) ++ [CallWrite frame] |}).
  destruct (recv_frame OP_FRAME payload rest data_str data s1 fuel
              eq_refl Hlen Hdec Hloads Hfeeds ltac:(lia) ltac:(lia))
    as (s2 & Hrecv & Hrest & Hid & cs & Hcalls & _ & Hw & Hc).
  assert (Hsr : send_recv fuel (hello cid) OP_HANDSHAKE s0 = (Ret (OP_FRAME, data), s2)).
  { unfold send_recv, Eff.bindf, Eff.total.
    rewrite send_eq, Hframe, call_write_eq. cbn [impl s0]. rewrite Hwrite.
    cbn [fst snd client_id calls s0]. exact Hrecv. }
  exists s2. split; [|split; [|split; [|split]]].
  - rewrite (do_handshake_eq fuel s0 cid eq_refl), Hsr.
    assert (Hacc : handshake_accepted OP_FRAME data = Ok true)
      by (apply handshake_accepted_true; auto).
    rewrite Hacc. reflexivity.
  - rewrite Hid. reflexivity.
  - rewrite Hcalls. cbn [calls s1]. rewrite !written_app, Hw. cbn.
    rewrite !app_nil_r. reflexivity.
  - rewrite Hcalls. cbn [calls s1]. rewrite !close_calls_app, Hc. cbn. lia.
  - exact Hrest.
Qed.

(** X8.  The constructor returns for no other answer: whenever
    [__init__] returns, [_connect] had returned, the answer to the
    Handshake frame was a Frame with "cmd" "DISPATCH" and "evt"
    "READY", the client id is set, and [_close] was not called. *)
Theorem init_returns_only_when_ready (fuel : nat) (cid : string) (s : client W) :
  fst (__init__ fuel cid s) = Ret tt ->
  exists v data,
    fst (_connect (impl s)) = Ok v /\
    fst (send_recv fuel (hello cid) OP_HANDSHAKE
           {| client_id := Some cid; impl := snd (_connect (impl s));
              calls := calls s ++ [CallConnect] |})
    = Ret (OP_FRAME, data) /\
    Py.getitem data "cmd" = Ok (JStr "DISPATCH") /\
    Py.getitem data "evt" = Ok (JStr "READY") /\
    client_id (snd (__init__ fuel cid s)) = Some cid /\
    close_calls (calls (snd (__init__ fuel cid s))) = close_calls (calls s).
Proof.
  intros Hret.
  destruct (_connect (impl s)) as [[v|e] w1] eqn:Hconnect.
  - rewrite (init_after_connect_returns fuel cid s v w1 Hconnect) in *.
    cbn [fst snd].
    set (s0 := {| client_id := Some cid; impl := w1;
                  calls := calls s ++ [CallConnect] |}) in *.
    pose proof (do_handshake_eq fuel s0 cid eq_refl) as Heq.
    pose proof (send_recv_no_close fuel (hello cid) OP_HANDSHAKE s0) as Hnc.
    assert (Hid : client_id (snd (send_recv fuel (hello cid) OP_HANDSHAKE s0)) = Some cid).
    { unfold send_recv, Eff.bindf, Eff.total.
      destruct (send_calls (hello cid) OP_HANDSHAKE s0) as (Hsid & _).
      change (client_id s0) with (Some cid) in Hsid.
      destruct (send (hello cid) OP_HANDSHAKE s0) as [[u|e] s1]; cbn [snd] in *;
        [|exact Hsid].
      rewrite recv_eq. unfold _recv_exactly.
      pose proof (recv_exactly_loop_id fuel [] 8 s1) as H8.
      destruct (_recv_exactly_loop fuel [] 8 s1) as [[header| |] s2];
        cbn [snd] in *; try congruence.
      destruct (Struct.unpack_II header) as [[op length]|e]; cbn [snd]; try congruence.
      pose proof (recv_exactly_loop_id fuel [] length s2) as Hl.
      destruct (_recv_exactly_loop fuel [] length s2) as [[payload| |] s3];
        cbn [snd] in *; try congruence.
      destruct (utf8_decode payload) as [data_str|e]; cbn [snd]; try congruence.
      destruct (json_loads data_str); cbn [snd]; congruence. }
    destruct (send_recv fuel (hello cid) OP_HANDSHAKE s0)
      as [[[ret_op ret_data]| |] s1] eqn:Hsr;
      rewrite Heq in Hret; cbn [fst snd] in *; try discriminate.
    destruct (handshake_accepted ret_op ret_data) as [[|]|e] eqn:Hacc;
      cbn [fst] in Hret.
    + apply handshake_accepted_true in Hacc. destruct Hacc as (-> & Hcmd & Hevt).
      exists v, ret_data. rewrite Heq. cbn [snd].
      repeat split; try assumption.
      rewrite Hnc. cbn [calls s0]. rewrite close_calls_app. cbn. lia.
    + destruct (ret_op =? OP_CLOSE); cbn [fst] in Hret; [|discriminate].
      destruct (fst (close s1)); discriminate.
    + discriminate.
  - exfalso. unfold __init__ in Hret.
    unfold Eff.bindf at 1 in Hret. unfold Eff.total at 1 in Hret.
    unfold set_client_id in Hret.
    unfold Eff.bindf at 1 in Hret. unfold Eff.total at 1 in Hret.
    rewrite call_connect_eq in Hret. cbn [impl] in Hret.
    rewrite Hconnect in Hret. discriminate.
Qed.

End ConstructorMore.

Section SessionMore.

Context {W : Type} `{DiscordIpcClient W} `{JsonLib} `{ProcEnv W}.



Lemma publish_loop_step (fuel : nat) (activity : nat -> JSON) (turn : nat)
      (s : client W) :
  publish_loop (S fuel) activity turn s =
  match set_activity (activity turn) s with
  | (Ok _, s1) => publish_loop fuel activity (S turn) s1
  | (Err e, s1) => (Raise e, s1)
  end.
Proof.
  cbn [publish_loop]. unfold Eff.bindf, Eff.total.
  destruct (set_activity (activity turn) s) as [[u|e] s1]; reflexivity.
Qed.

(** X10.  The publisher's loop never returns.  It ends only by the
    first error of a [set_activity], which it hands on at once: the
    client is left as that failed call left it, with no further call,
    no retry and no reconnection.  While every call succeeds it goes
    on, one [set_activity] per turn. *)
Theorem publish_loop_never_returns (fuel : nat) (activity : nat -> JSON) (turn : nat)
        (s : client W) :
  fst (publish_loop fuel activity turn s) <> Ret tt /\
  (forall e, fst (publish_loop fuel activity turn s) = Raise e ->
     exists k sk,
       (k < fuel)%nat /\
       after_turns k activity turn s = Some sk /\
       set_activity (activity (turn + k)%nat) sk
       = (Err e, snd (publish_loop fuel activity turn s))) /\
  (fst (publish_loop fuel activity turn s) = OutOfFuel ->
     after_turns fuel activity turn s = Some (snd (publish_loop fuel activity turn s))).
Proof.
  revert turn s. induction fuel as [|fuel IH]; intros turn s.
  - cbn. split; [discriminate|]. split; [discriminate | reflexivity].
  - rewrite publish_loop_step. cbn [after_turns].
    destruct (set_activity (activity turn) s) as [[u|e0] s1] eqn:Hset.
    + destruct (IH (S turn) s1) as (Hnot & Hraise & Hfuel).
      split; [exact Hnot|]. split; [|exact Hfuel].
      intros e He. destruct (Hraise e He) as (k & sk & Hk & Hafter & Hfail).
      exists (S k), sk. split; [lia|]. split.
      * cbn [after_turns]. rewrite Hset. exact Hafter.
      * replace (turn + S k)%nat with (S turn + k)%nat by lia. exact Hfail.
    + cbn [fst snd]. split; [discriminate|]. split; [|discriminate].
      intros e He. injection He as <-.
      exists 0%nat, s. split; [lia|]. split; [reflexivity|].
      rewrite Nat.add_0_r. exact Hset.
Qed.

End SessionMore.

(** * Further properties of the two ways to connect *)

Section WinConnectMore.

Context {Sys : Type} `{FileSys Sys}.

Lemma seq_split (j : nat) :
  (j < 10)%nat -> seq 0 10 = seq 0 j ++ j :: seq (S j) (9 - j).
Proof.
  intros Hj. replace 10%nat with (j + S (9 - j))%nat at 1 by lia.
  rewrite seq_app. reflexivity.
Qed.

Lemma seq_snoc (j : nat) : seq 0 (S j) = seq 0 j ++ [j].
Proof.
  replace (S j) with (j + 1)%nat by lia. rewrite seq_app. reflexivity.
Qed.

(** Candidates whose pipes refuse are passed over. *)
Lemma win_connect_loop_skip (refused others : list nat) :
  (forall i, In i refused -> (i < 10)%nat) ->
  forall (w : Win.state Sys) (y1 : Sys),
    pipes_refused refused (Win.sys w) y1 ->
    Win.connect_loop (refused ++ others) w =
    Win.connect_loop others
      {| Win._f := Win._f w; Win.path := Win.path w; Win.sys := y1;
         Win.probes := Win.probes w
                         ++ map (fun i => ProbeOpen (Win.candidate i)) refused |}.
Proof.
  induction refused as [|i rest IH]; intros Hin w y1 Hrefused.
  - cbn in Hrefused. subst y1. cbn [app map]. rewrite app_nil_r.
    destruct w; reflexivity.
  - assert (Hi : (i < 10)%nat) by (apply Hin; left; reflexivity).
    destruct Hrefused as (msg & y0 & Hopen & Hrest).
    set (w1 := {| Win._f := Win._f w; Win.path := Win.path w; Win.sys := y0;
                  Win.probes := Win.probes w ++ [ProbeOpen (Win.candidate i)] |}).
    transitivity (Win.connect_loop (rest ++ others) w1).
    { cbn [app Win.connect_loop]. unfold Eff.bind at 1. unfold Eff.lift.
      rewrite (win_format i Hi).
      unfold Eff.bind at 1. unfold Win.record_probe.
      unfold Eff.bind at 1. unfold Eff.try, Win.on_sys. cbn [Win.sys].
      rewrite Hopen. reflexivity. }
    rewrite (IH (fun j Hj => Hin j (or_intror Hj)) w1 y1 Hrest).
    unfold w1. cbn [Win._f Win.path Win.probes map]. rewrite <- app_assoc.
    reflexivity.
Qed.

(** X11.  The first pipe that opens wins.  When the pipes of the
    candidates before [j] refuse and that of [j] opens, [_connect] of
    the Windows client returns [None], keeps the file object in [_f]
    and the name of pipe [j] in [path], and has tried the candidates 0
    to [j] in order and none after [j]. *)
Theorem win_connect_first_openable (w : Win.state Sys) (j f : nat) (y1 y2 : Sys) :
  (j < 10)%nat ->
  pipes_refused (seq 0 j) (Win.sys w) y1 ->
  sys_open (Win.candidate j) y1 = (Ok f, y2) ->
  Win._connect w =
  (Ok None,
   {| Win._f := Some f; Win.path := Some (Win.candidate j); Win.sys := y2;
      Win.probes := Win.probes w
                      ++ map (fun i => ProbeOpen (Win.candidate i)) (seq 0 (S j)) |}).
Proof.
  intros Hj Hrefused Hopen. unfold Win._connect, Eff.bind.
  rewrite (seq_split j Hj).
  rewrite (win_connect_loop_skip (seq 0 j) _
             ltac:(intros i Hi; apply in_seq in Hi; lia) w y1 Hrefused).
  cbn [Win.connect_loop]. unfold Eff.bind at 1. unfold Eff.lift.
  rewrite (win_format j Hj).
  unfold Eff.bind at 1. unfold Win.record_probe.
  unfold Eff.bind at 1. unfold Eff.try, Win.on_sys. cbn [Win.sys].
  rewrite Hopen. unfold Eff.bind, Win.set_f, Win.set_path, Eff.ret.
  cbn [Win._f Win.path Win.sys Win.probes].
  rewrite seq_snoc, map_app, <- app_assoc. reflexivity.
Qed.

(** X12.  Only an [OSError] makes [_connect] try the next candidate.
    When the pipes before [j] refuse and the [open] of pipe [j] raises
    an exception of another class, [_connect] raises that exception at
    once: no candidate after [j] is tried, and [_f] and [path] are as
    before. *)
Theorem win_connect_other_error_escapes (w : Win.state Sys) (j : nat) (e : exn)
        (y1 y2 : Sys) :
  (j < 10)%nat ->
  pipes_refused (seq 0 j) (Win.sys w) y1 ->
  sys_open (Win.candidate j) y1 = (Err e, y2) ->
  is_OSError e = false ->
  Win._connect w =
  (Err e,
   {| Win._f := Win._f w; Win.path := Win.path w; Win.sys := y2;
      Win.probes := Win.probes w
                      ++ map (fun i => ProbeOpen (Win.candidate i)) (seq 0 (S j)) |}).
Proof.
  intros Hj Hrefused Hopen Hclass. unfold Win._connect, Eff.bind.
  rewrite (seq_split j Hj).
  rewrite (win_connect_loop_skip (seq 0 j) _
             ltac:(intros i Hi; apply in_seq in Hi; lia) w y1 Hrefused).
  cbn [Win.connect_loop]. unfold Eff.bind at 1. unfold Eff.lift.
  rewrite (win_format j Hj).
  unfold Eff.bind at 1. unfold Win.record_probe.
  unfold Eff.bind at 1. unfold Eff.try, Win.on_sys. cbn [Win.sys].
  rewrite Hopen, Hclass. unfold Eff.raise.
  cbn [Win._f Win.path Win.sys Win.probes].
  rewrite seq_snoc, map_app, <- app_assoc. reflexivity.
Qed.

End WinConnectMore.

Section UnixConnectMore.

Context {Sys : Type} `{SocketSys Sys}.

(** Candidates that are absent or refuse are passed over. *)
Lemma unix_connect_loop_skip (pipe_pattern : string) (k : nat)
      (skipped others : list nat) (y y1 : Sys) (ps : list probe) :
  passed pipe_pattern k skipped y y1 ps ->
  forall seen : list probe,
    Unix.connect_loop pipe_pattern (skipped ++ others)
      {| Unix._sock := Some k; Unix.sys := y; Unix.probes := seen |} =
    Unix.connect_loop pipe_pattern others
      {| Unix._sock := Some k; Unix.sys := y1; Unix.probes := seen ++ ps |}.
Proof.
  induction 1 as [y | i rest p y y' ps Hfmt Habsent Hrest IH
                    | i rest p msg y y0 y' ps Hfmt Hpresent Hconn Hrest IH];
    intros seen.
  - cbn [app]. rewrite app_nil_r. reflexivity.
  - transitivity (Unix.connect_loop pipe_pattern (rest ++ others)
                    {| Unix._sock := Some k; Unix.sys := y;
                       Unix.probes := seen ++ [ProbeExists p] |}).
    { cbn [app Unix.connect_loop]. unfold Eff.bind at 1. unfold Eff.lift.
      rewrite Hfmt.
      unfold Eff.bind at 1. unfold Unix.record_probe.
      unfold Eff.bind at 1. unfold Unix.exists_. cbn [Unix.sys].
      rewrite Habsent. reflexivity. }
    rewrite IH, <- app_assoc. reflexivity.
  - transitivity (Unix.connect_loop pipe_pattern (rest ++ others)
                    {| Unix._sock := Some k; Unix.sys := y0;
                       Unix.probes := (seen ++ [ProbeExists p]) ++ [ProbeConnect p] |}).
    { cbn [app Unix.connect_loop]. unfold Eff.bind at 1. unfold Eff.lift.
      rewrite Hfmt.
      unfold Eff.bind at 1. unfold Unix.record_probe.
      unfold Eff.bind at 1. unfold Unix.exists_. cbn [Unix.sys].
      rewrite Hpresent.
      unfold Eff.bind at 1. unfold Unix.get_sock. cbn [Unix._sock].
      unfold Eff.bind at 1. unfold Unix.record_probe.
      unfold Eff.bind at 1. unfold Eff.try, Unix.on_sys. cbn [Unix.sys].
      rewrite Hconn. reflexivity. }
    rewrite IH, <- !app_assoc. reflexivity.
Qed.

(** X13.  The first socket that accepts wins, and a path that does not
    exist costs no connection attempt.  When the candidates before [j]
    are absent or refuse, and the path of [j] exists and accepts,
    [_connect] of the Unix client returns [None] with the socket
    connected to [j]; its probes are those of the candidates passed
    over (one test of existence for an absent path, one more attempt
    for a socket that refuses), then the test and the attempt for [j],
    and none for a later candidate. *)
Theorem unix_connect_first_listener (w : Unix.state Sys) (j k : nat) (p : string)
        (y0 y1 y2 : Sys) (ps : list probe) :
  socket_new (Unix.sys w) = (Ok k, y0) ->
  (j < 10)%nat ->
  passed (Str.path_join
            (Unix.first_dir ["XDG_RUNTIME_DIR"; "TMPDIR"; "TMP"; "TEMP"] y0)
            "discord-ipc-{}") k (seq 0 j) y0 y1 ps ->
  Str.format (Str.path_join
                (Unix.first_dir ["XDG_RUNTIME_DIR"; "TMPDIR"; "TMP"; "TEMP"] y0)
                "discord-ipc-{}") j = Ok p ->
  path_exists p y1 = true ->
  sock_connect k p y1 = (Ok tt, y2) ->
  Unix._connect w =
  (Ok None,
   {| Unix._sock := Some k; Unix.sys := y2;
      Unix.probes := Unix.probes w ++ ps ++ [ProbeExists p; ProbeConnect p] |}).
Proof.
  intros Hnew Hj Hpassed Hfmt Hpresent Hconn.
  unfold Unix._connect.
  unfold Eff.bind at 1. unfold Unix.on_sys. rewrite Hnew.
  unfold Eff.bind at 1. unfold Unix.set_sock. cbn [Unix.sys Unix.probes].
  unfold Eff.bind at 1. unfold Unix._get_pipe_pattern. cbn [Unix.sys].
  unfold Eff.bind at 1.
  rewrite (seq_split j Hj).
  rewrite (unix_connect_loop_skip _ k (seq 0 j) _ y0 y1 ps Hpassed).
  cbn [Unix.connect_loop]. unfold Eff.bind at 1. unfold Eff.lift.
  rewrite Hfmt.
  unfold Eff.bind at 1. unfold Unix.record_probe.
  unfold Eff.bind at 1. unfold Unix.exists_. cbn [Unix.sys].
  rewrite Hpresent.
  unfold Eff.bind at 1. unfold Unix.get_sock. cbn [Unix._sock].
  unfold Eff.bind at 1. unfold Unix.record_probe.
  unfold Eff.bind at 1. unfold Eff.try, Unix.on_sys. cbn [Unix.sys].
  rewrite Hconn. unfold Eff.ret. cbn [Unix._sock Unix.probes].
  rewrite <- !app_assoc. reflexivity.
Qed.

Lemma first_dir_skip (skipped keys : list string) (y : Sys) :
  (forall key, In key skipped ->
               environ_get key y = None \/ environ_get key y = Some EmptyString) ->
  Unix.first_dir (skipped ++ keys) y = Unix.first_dir keys y.
Proof.
  induction skipped as [|key rest IH]; intros Hunset; [reflexivity|].
  cbn [app Unix.first_dir].
  destruct (Hunset key (or_introl eq_refl)) as [-> | ->];
    apply IH; intros key' Hin; apply Hunset; right; exact Hin.
Qed.

(** X14.  The directory of the sockets is the value of the first of
    XDG_RUNTIME_DIR, TMPDIR, TMP, TEMP, in this order, that is set to a
    string that is not empty; a variable set to the empty string counts
    as unset; with none of them, the directory is /tmp.  The pattern is
    that directory joined with "discord-ipc-{}", and reading it changes
    nothing. *)
Theorem pipe_pattern_follows_environment (w : Unix.state Sys) :
  (forall (skipped later : list string) (key dir : string),
      ["XDG_RUNTIME_DIR"; "TMPDIR"; "TMP"; "TEMP"] = skipped ++ key :: later ->
      (forall key', In key' skipped ->
         environ_get key' (Unix.sys w) = None \/
         environ_get key' (Unix.sys w) = Some EmptyString) ->
      environ_get key (Unix.sys w) = Some dir ->
      dir <> EmptyString ->
      Unix._get_pipe_pattern w = (Ok (Str.path_join dir "discord-ipc-{}"), w)) /\
  ((forall key, In key ["XDG_RUNTIME_DIR"; "TMPDIR"; "TMP"; "TEMP"] ->
      environ_get key (Unix.sys w) = None \/
      environ_get key (Unix.sys w) = Some EmptyString) ->
   Unix._get_pipe_pattern w = (Ok "/tmp/discord-ipc-{}", w)).
Proof.
  split.
  - intros skipped later key dir Hkeys Hskipped Hset Hne.
    unfold Unix._get_pipe_pattern. rewrite Hkeys.
    rewrite (first_dir_skip skipped (key :: later) (Unix.sys w) Hskipped).
    cbn [Unix.first_dir]. rewrite Hset.
    destruct dir; [congruence | reflexivity].
  - intros Hunset. unfold Unix._get_pipe_pattern.
    rewrite <- (app_nil_r ["XDG_RUNTIME_DIR"; "TMPDIR"; "TMP"; "TEMP"]).
    rewrite (first_dir_skip _ [] (Unix.sys w) Hunset). reflexivity.
Qed.

End UnixConnectMore.

(** * Properties of the settings *)

Module HexFacts.

Lemma in_hex_class (c : ascii) :
  Re.in_ranges c [("0", "9"); ("a", "f"); ("A", "F")]%char = true <-> In c hex_digits.
Proof.
  assert (Hb : Re.in_ranges c [("0", "9"); ("a", "f"); ("A", "F")]%char
               = existsb (Ascii.eqb c) hex_digits).
  { destruct c as [[] [] [] [] [] [] [] []]; vm_compute; reflexivity. }
  rewrite Hb, existsb_exists. split.
  - intros (d & Hin & Heq). apply Ascii.eqb_eq in Heq. subst d. exact Hin.
  - intros Hin. exists c. split; [exact Hin | apply Ascii.eqb_refl].
Qed.

(** What is left after three characters of a class. *)
Lemma ends_three (ranges : list (ascii * ascii)) (s t : string) :
  In t (Re.ends (Re.Rep (Re.Class ranges) 3 3) s) <->
  exists a b c,
    s = String a (String b (String c t)) /\
    Re.in_ranges a ranges = true /\ Re.in_ranges b ranges = true /\
    Re.in_ranges c ranges = true.
Proof.
  split.
  - destruct s as [|a [|b [|c u]]]; cbn.
    + tauto.
    + destruct (Re.in_ranges a ranges); cbn; tauto.
    + destruct (Re.in_ranges a ranges); cbn; [|tauto].
      destruct (Re.in_ranges b ranges); cbn; tauto.
    + destruct (Re.in_ranges a ranges) eqn:Ea; cbn; [|tauto].
      destruct (Re.in_ranges b ranges) eqn:Eb; cbn; [|tauto].
      destruct (Re.in_ranges c ranges) eqn:Ec; cbn; [|tauto].
      intros [<- | []]. exists a, b, c. auto.
  - intros (a & b & c & -> & Ea & Eb & Ec). cbn. rewrite Ea. cbn.
    rewrite Eb. cbn. rewrite Ec. cbn. left. reflexivity.
Qed.

Lemma ends_chr_seq (c : ascii) (r : Re.regex) (s t : string) :
  In t (Re.ends (Re.Seq (Re.Chr c) r) s) <->
  exists m, s = String c m /\ In t (Re.ends r m).
Proof.
  cbn [Re.ends]. rewrite in_flat_map. split.
  - intros (m & Hm & Ht). exists m. split; [|exact Ht].
    destruct s as [|d u]; [exact (False_ind _ Hm)|].
    destruct (Ascii.eqb_spec c d) as [<-|Hne]; [|exact (False_ind _ Hm)].
    destruct Hm as [<- | Hm]; [reflexivity | exact (False_ind _ Hm)].
  - intros (m & -> & Ht). exists m. split; [|exact Ht].
    rewrite Ascii.eqb_refl. left. reflexivity.
Qed.

Lemma in_rep_one_two (step : string -> list string) (s t : string) :
  In t (Re.rep step 1 2 s) <->
  In t (step s) \/ exists m, In m (step s) /\ In t (step m).
Proof.
  cbn [Re.rep pred app]. rewrite in_flat_map. split.
  - intros (m & Hm & [<- | Ht]); [left; exact Hm|].
    right. exists m. split; [exact Hm|].
    apply in_flat_map in Ht. destruct Ht as (x & Hx & [<- | []]). exact Hx.
  - intros [Ht | (m & Hm & Ht)].
    + exists t. split; [exact Ht | left; reflexivity].
    + exists m. split; [exact Hm|]. right.
      apply in_flat_map. exists t. split; [exact Ht | left; reflexivity].
Qed.

Lemma append_empty (u : string) : (u ++ EmptyString)%string = u.
Proof. induction u as [|x u IH]; cbn; congruence. Qed.

(** What is left after the pattern: the string without a [#] and three
    or six characters of the class. *)
Lemma ends_hex_pattern (s t : string) :
  In t (Re.ends hex_pattern s) <->
  exists h,
    s = String "#" (h ++ t)%string /\
    (String.length h = 3%nat \/ String.length h = 6%nat) /\
    forall c, In c (list_ascii_of_string h) -> In c hex_digits.
Proof.
  unfold hex_pattern. rewrite ends_chr_seq.
  set (three := Re.Rep (Re.Class [("0", "9"); ("a", "f"); ("A", "F")]%char) 3 3).
  split.
  - intros (m & -> & Ht).
    change (In t (Re.rep (Re.ends three) 1 2 m)) in Ht.
    apply in_rep_one_two in Ht.
    destruct Ht as [H1 | (m1 & H1 & H2)].
    + apply ends_three in H1. destruct H1 as (a & b & c & -> & Ea & Eb & Ec).
      apply in_hex_class in Ea, Eb, Ec.
      exists (String a (String b (String c EmptyString))).
      split; [reflexivity|]. split; [left; reflexivity|].
      cbn. intros x [<-|[<-|[<-|[]]]]; assumption.
    + apply ends_three in H1. destruct H1 as (a & b & c & -> & Ea & Eb & Ec).
      apply ends_three in H2. destruct H2 as (a' & b' & c' & -> & Ea' & Eb' & Ec').
      apply in_hex_class in Ea, Eb, Ec, Ea', Eb', Ec'.
      exists (String a (String b (String c (String a' (String b' (String c' EmptyString)))))).
      split; [reflexivity|]. split; [right; reflexivity|].
      cbn. intros x [<-|[<-|[<-|[<-|[<-|[<-|[]]]]]]]; assumption.
  - intros (h & -> & Hlen & Hhex).
    exists (h ++ t)%string. split; [reflexivity|].
    change (In t (Re.rep (Re.ends three) 1 2 (h ++ t)%string)).
    apply in_rep_one_two.
    destruct Hlen as [Hlen | Hlen].
    + destruct h as [|a [|b [|c [|d u]]]]; try discriminate Hlen.
      left. apply ends_three. exists a, b, c. split; [reflexivity|].
      repeat split; apply in_hex_class, Hhex; cbn; auto.
    + destruct h as [|a [|b [|c [|a' [|b' [|c' [|d u]]]]]]]; try discriminate Hlen.
      right. exists (String a' (String b' (String c' t))). split.
      * apply ends_three. exists a, b, c. split; [reflexivity|].
        repeat split; apply in_hex_class, Hhex; cbn; auto.
      * apply ends_three. exists a', b', c'. split; [reflexivity|].
        repeat split; apply in_hex_class, Hhex; cbn; auto 10.
Qed.

Lemma at_end_spec (s : string) :
  Re.at_end s = true <-> s = EmptyString \/ s = newline.
Proof.
  unfold newline. destruct s as [|c [|d u]]; cbn.
  - split; auto.
  - destruct (Ascii.eqb_spec c "010") as [->|Hne].
    + split; auto.
    + split; [discriminate|]. intros [H|H]; [discriminate | congruence].
  - split; [discriminate|]. intros [H|H]; discriminate.
Qed.

End HexFacts.

(** X15.  [is_correct_hex] returns 1 exactly for a [#] followed by
    three or by six hexadecimal digits, of either case, and for such a
    string followed by one newline; for every other string it returns
    0.  So four or five digits are refused, and so is a colour name. *)
Theorem is_correct_hex_spec (hex : string) :
  (is_correct_hex hex = 1 <->
   exists h,
     (hex = String "#" h \/ hex = String "#" (h ++ newline)%string) /\
     (String.length h = 3%nat \/ String.length h = 6%nat) /\
     forall c, In c (list_ascii_of_string h) -> In c hex_digits) /\
  (is_correct_hex hex = 1 \/ is_correct_hex hex = 0).
Proof.
  unfold is_correct_hex, Re.search_anchored. split.
  - destruct (existsb Re.at_end (Re.ends hex_pattern hex)) eqn:E.
    + split; [intros _ | reflexivity].
      apply existsb_exists in E. destruct E as (t & Hin & Hend).
      apply HexFacts.ends_hex_pattern in Hin. destruct Hin as (h & -> & Hlen & Hhex).
      apply HexFacts.at_end_spec in Hend.
      exists h. split; [|auto].
      destruct Hend as [-> | ->]; [left | right; reflexivity].
      rewrite HexFacts.append_empty. reflexivity.
    + split; [discriminate|]. intros (h & Hshape & Hlen & Hhex). exfalso.
      assert (Hex : existsb Re.at_end (Re.ends hex_pattern hex) = true).
      { apply existsb_exists. destruct Hshape as [-> | ->].
        - exists EmptyString. split; [|reflexivity].
          apply HexFacts.ends_hex_pattern. exists h. split; [|auto].
          rewrite HexFacts.append_empty. reflexivity.
        - exists newline. split; [|reflexivity].
          apply HexFacts.ends_hex_pattern. exists h. auto. }
      congruence.
  - destruct (existsb Re.at_end (Re.ends hex_pattern hex)); auto.
Qed.

Module SettingsFacts.

Lemma setting_setitem (d : list (string * string)) (k v k' : string) :
  setting (setitem d k v) k' = if String.eqb k k' then Some v else setting d k'.
Proof.
  induction d as [|[k0 v0] rest IH]; cbn [setitem setting].
  - reflexivity.
  - destruct (String.eqb_spec k0 k) as [->|Hne]; cbn [setting].
    + destruct (String.eqb k k'); reflexivity.
    + rewrite IH. destruct (String.eqb_spec k0 k') as [->|Hne'].
      * destruct (String.eqb_spec k k') as [->|]; [congruence | reflexivity].
      * reflexivity.
Qed.

Lemma setting_store (d : list (string * string)) (k entry k' : string) :
  setting (store k entry d) k' =
  if (is_correct_hex entry =? 1) && String.eqb k k' then Some entry else setting d k'.
Proof.
  unfold store. destruct (is_correct_hex entry =? 1); cbn [andb].
  - apply setting_setitem.
  - reflexivity.
Qed.

Lemma setitem_values (d : list (string * string)) (k v : string) (P : string -> Prop) :
  P v -> Forall (fun kv => P (snd kv)) d ->
  Forall (fun kv => P (snd kv)) (setitem d k v).
Proof.
  intros Hv. induction 1 as [|[k0 v0] rest H0 Hrest IH]; cbn [setitem].
  - constructor; [exact Hv | constructor].
  - destruct (String.eqb k0 k); constructor; assumption.
Qed.

Lemma setitem_keys (d : list (string * string)) (k v : string) :
  In k (map fst d) -> map fst (setitem d k v) = map fst d.
Proof.
  induction d as [|[k0 v0] rest IH]; cbn [setitem map fst In]; [tauto|].
  intros Hin. destruct (String.eqb_spec k0 k) as [->|Hne]; [reflexivity|].
  cbn [map fst]. rewrite IH; [reflexivity|]. destruct Hin; [contradiction | assumption].
Qed.

Lemma store_values (d : list (string * string)) (k entry : string) :
  Forall (fun kv => is_correct_hex (snd kv) = 1) d ->
  Forall (fun kv => is_correct_hex (snd kv) = 1) (store k entry d).
Proof.
  intros Hd. unfold store. destruct (Z.eqb_spec (is_correct_hex entry) 1) as [Hv|].
  - apply (setitem_values d k entry (fun v => is_correct_hex v = 1) Hv Hd).
  - exact Hd.
Qed.

Lemma store_keys (d : list (string * string)) (k entry : string) :
  In k (map fst d) -> map fst (store k entry d) = map fst d.
Proof.
  intros Hin. unfold store. destruct (is_correct_hex entry =? 1).
  - apply setitem_keys, Hin.
  - reflexivity.
Qed.

End SettingsFacts.

(** X16.  [save] keeps the settings well formed.  If every colour of
    [config] passes [is_correct_hex], so does every colour after
    [save], whatever was typed; on a [config] with the six settings
    the keys and their order are unchanged; and each setting holds the
    text of its entry when that text passes [is_correct_hex], and its
    former value otherwise: an entry that does not pass is dropped
    without a message. *)
Theorem save_keeps_settings_well_formed (e : entries) (config : list (string * string)) :
  Forall (fun kv => is_correct_hex (snd kv) = 1) config ->
  map fst config = map fst default_config ->
  Forall (fun kv => is_correct_hex (snd kv) = 1) (save e config) /\
  map fst (save e config) = map fst config /\
  (forall key entry,
      In (key, entry)
         [ ("background", background e);
           ("background_text", background_text_entry e);
           ("foreground_text", foreground_text e);
           ("foreground_button", foreground_button e);
           ("background_button", background_button e);
           ("background_entry", background_entry e) ] ->
      setting (save e config) key
      = if is_correct_hex entry =? 1 then Some entry else setting config key).
Proof.
  intros Hvalid Hkeys. unfold save. split; [|split].
  - repeat apply SettingsFacts.store_values. exact Hvalid.
  - assert (Hstep : forall k entry c,
               map fst c = map fst config ->
               In k (map fst default_config) ->
               map fst (store k entry c) = map fst config).
    { intros k entry c Hc Hk. rewrite SettingsFacts.store_keys; [exact Hc|].
      rewrite Hc, Hkeys. exact Hk. }
    repeat (apply Hstep; [| cbn; tauto]). reflexivity.
  - intros key entry Hin. cbn [In] in Hin.
    repeat rewrite SettingsFacts.setting_store.
    destruct Hin as [E|[E|[E|[E|[E|[E|[]]]]]]]; injection E as <- <-; cbn [String.eqb Ascii.eqb Bool.eqb andb];
      rewrite ?andb_false_r, ?andb_true_r; reflexivity.
Qed.

(** * Properties of the forms *)

Module GuiFacts.

Import Gui.

Lemma append_assoc (a b c : string) : ((a ++ b) ++ c = a ++ (b ++ c))%string.
Proof. induction a as [|x a IH]; cbn; [reflexivity | rewrite IH; reflexivity]. Qed.

Lemma append_nil (a : string) : (a ++ EmptyString)%string = a.
Proof. induction a as [|x a IH]; cbn; congruence. Qed.

Lemma in_range (a b i : Z) : In i (range a b) <-> a <= i < b.
Proof.
  unfold range. rewrite in_map_iff. split.
  - intros (k & <- & Hk). apply in_seq in Hk. lia.
  - intros Hi. exists (Z.to_nat (i - a)). split; [lia|]. apply in_seq. lia.
Qed.

Lemma map_seq_sorted (a : Z) (len start : nat) :
  StronglySorted Z.lt (map (fun k => a + Z.of_nat k) (seq start len)).
Proof.
  revert start. induction len as [|len IH]; intros start; cbn [seq map].
  - constructor.
  - constructor; [apply IH|].
    apply Forall_forall. intros x Hx. apply in_map_iff in Hx.
    destruct Hx as (k & <- & Hk). apply in_seq in Hk. lia.
Qed.

Lemma range_sorted (a b : Z) : StronglySorted Z.lt (range a b).
Proof. apply map_seq_sorted. Qed.

Lemma filter_sorted (f : Z -> bool) (l : list Z) :
  StronglySorted Z.lt l -> StronglySorted Z.lt (filter f l).
Proof.
  induction 1 as [|a l Hl IH Ha]; cbn [filter]; [constructor|].
  destruct (f a); [|exact IH].
  constructor; [exact IH|].
  apply Forall_forall. intros x Hx. apply filter_In in Hx.
  rewrite Forall_forall in Ha. apply Ha, Hx.
Qed.

Lemma dividers_loop_listing (n : Z) (candidates : list Z) (shown : string) :
  dividers_loop n candidates shown
  = (shown ++ listing (filter (fun i => (n mod i =? 0)%Z) candidates))%string.
Proof.
  revert shown. induction candidates as [|i rest IH]; intros shown;
    cbn [dividers_loop filter].
  - cbn [listing]. rewrite append_nil. reflexivity.
  - rewrite IH. destruct (n mod i =? 0); [|reflexivity].
    cbn [listing]. rewrite !append_assoc. reflexivity.
Qed.

Lemma simple_loop_true (n : Z) (candidates : list Z) :
  simple_loop n candidates = true <->
  forall i, In i candidates -> n mod i <> 0.
Proof.
  induction candidates as [|i rest IH]; cbn [simple_loop In].
  - split; [intros _ i [] | reflexivity].
  - destruct (Z.eqb_spec (n mod i) 0) as [Hz|Hnz].
    + split; [discriminate|]. intros Hall. exfalso. apply (Hall i); auto.
    + rewrite IH. split.
      * intros Hall j [<-|Hj]; [exact Hnz | apply Hall, Hj].
      * intros Hall j Hj. apply Hall. right. exact Hj.
Qed.



End GuiFacts.

Section FormsTheorems.

Import Gui.

Context `{Builtins}.

(** X17.  For a text that [int] reads as [n], the form of the divisors
    shows one window whose text lists, each followed by a semicolon and
    in increasing order, exactly the [i] with [1 <= i <= n] that divide
    [n]; for [n <= 0] the text is empty. *)
Theorem dividers_are_listed (number : string) (n : Z) (shown : list window) :
  py_int number = Ok n ->
  exists ds,
    get_dividers_clicked number shown
    = (Ok tt, shown ++ [{| title := "Результат"; text := listing ds |}]) /\
    (forall i, In i ds <-> 1 <= i <= n /\ (i | n)) /\
    StronglySorted Z.lt ds /\
    (n <= 0 -> ds = []).
Proof.
  intros Hint.
  set (ds := filter (fun i => n mod i =? 0) (range 1 (n + 1))).
  assert (Hmem : forall i, In i ds <-> 1 <= i <= n /\ (i | n)).
  { intros i. unfold ds. rewrite filter_In, GuiFacts.in_range, Z.eqb_eq. split.
    - intros (Hi & Hmod). split; [lia|]. apply Z.mod_divide; [lia | exact Hmod].
    - intros (Hi & Hdiv). split; [lia|]. apply Z.mod_divide; [lia | exact Hdiv]. }
  exists ds. split; [|split; [exact Hmem|split]].
  - unfold get_dividers_clicked, Eff.bind, Eff.try, Eff.lift, show.
    rewrite Hint. rewrite GuiFacts.dividers_loop_listing. reflexivity.
  - apply GuiFacts.filter_sorted, GuiFacts.range_sorted.
  - intros Hn. destruct ds as [|d rest] eqn:E; [reflexivity|].
    exfalso. assert (Hd : In d (d :: rest)) by (left; reflexivity).
    apply Hmem in Hd. lia.
Qed.

(** X18.  For a text that [int] reads as [n >= 2], the form of the
    primes shows "простое" (prime) exactly when [n] is prime, and
    "не является простым" otherwise; every [n < 2], so 1, 0 and each
    negative number, is shown as prime. *)
Theorem simple_number_verdict (number : string) (n : Z) (shown : list window) :
  py_int number = Ok n ->
  let simple := {| title := "Результат"; text := "Введённое число - простое." |} in
  let composite :=
    {| title := "Результат"; text := "Введённое число не является простым." |} in
  (2 <= n ->
   (prime n -> simple_number_clicked number shown = (Ok tt, shown ++ [simple])) /\
   (~ prime n -> simple_number_clicked number shown = (Ok tt, shown ++ [composite]))) /\
  (n < 2 -> simple_number_clicked number shown = (Ok tt, shown ++ [simple])).
Proof.
  intros Hint simple composite.
  assert (Hrun : simple_number_clicked number shown
                 = (Ok tt, shown ++ [if simple_loop n (range 2 n)
                                     then simple else composite])).
  { unfold simple_number_clicked, Eff.bind, Eff.try, Eff.lift, show.
    rewrite Hint. destruct (simple_loop n (range 2 n)); reflexivity. }
  assert (Hloop : simple_loop n (range 2 n) = true <->
                  forall i, 2 <= i < n -> n mod i <> 0).
  { rewrite GuiFacts.simple_loop_true. split.
    - intros Hall i Hi. apply Hall, GuiFacts.in_range, Hi.
    - intros Hall i Hi. apply Hall, GuiFacts.in_range, Hi. }
  split.
  - intros Hn.
    assert (Hprime : simple_loop n (range 2 n) = true <-> prime n).
    { rewrite Hloop, <- prime_alt. unfold Z.prime. split.
      - intros Hall. split; [lia|]. intros m Hm Hdiv.
        apply (Hall m); [lia|]. apply Z.mod_divide; [lia | exact Hdiv].
      - intros (_ & Hnone) i Hi Hmod.
        apply (Hnone i); [lia|]. apply Z.mod_divide; [lia | exact Hmod]. }
    split.
    + intros Hp. apply Hprime in Hp. rewrite Hrun, Hp. reflexivity.
    + intros Hnp. rewrite Hrun.
      destruct (simple_loop n (range 2 n)); [|reflexivity].
      exfalso. apply Hnp, Hprime. reflexivity.
  - intros Hn. rewrite Hrun.
    assert (Ht : simple_loop n (range 2 n) = true) by (apply Hloop; intros i Hi; lia).
    rewrite Ht. reflexivity.
Qed.

Context `{Interpreter}.


End FormsTheorems.

Module CalculatorFacts.

Import Gui.

Lemma length_append (a b : string) :
  String.length (a ++ b) = (String.length a + String.length b)%nat.
Proof. induction a as [|x a IH]; cbn; [reflexivity | rewrite IH; reflexivity]. Qed.

Lemma chars_append (a b : string) :
  list_ascii_of_string (a ++ b) = list_ascii_of_string a ++ list_ascii_of_string b.
Proof. induction a as [|x a IH]; cbn; [reflexivity | rewrite IH; reflexivity]. Qed.

(** [find] returns -1 exactly when the character does not occur. *)
Lemma find_from_absent (c : ascii) (s : string) (i : Z) :
  0 <= i ->
  (find_from c s i = -1 <-> ~ In c (list_ascii_of_string s)).
Proof.
  revert i. induction s as [|d t IH]; intros i Hi; cbn [find_from list_ascii_of_string In].
  - tauto.
  - destruct (Ascii.eqb_spec d c) as [->|Hne].
    + split; [lia | tauto].
    + rewrite IH by lia. tauto.
Qed.

(** Otherwise it returns the index of the first occurrence. *)
Lemma find_from_present (c : ascii) (s : string) (i : Z) :
  0 <= i ->
  find_from c s i <> -1 ->
  exists pre post,
    s = (pre ++ String c post)%string /\
    ~ In c (list_ascii_of_string pre) /\
    find_from c s i = i + Z.of_nat (String.length pre).
Proof.
  revert i. induction s as [|d t IH]; intros i Hi; cbn [find_from].
  - congruence.
  - destruct (Ascii.eqb_spec d c) as [->|Hne]; intros Hfound.
    + exists EmptyString, t. cbn. repeat split; [tauto | lia].
    + destruct (IH (i + 1) ltac:(lia) Hfound) as (pre & post & -> & Hnot & Hidx).
      exists (String d pre), post. cbn [String.append list_ascii_of_string In String.length].
      repeat split; [tauto | lia].
Qed.

Lemma get_middle (pre rest : string) (x : ascii) :
  String.get (String.length pre) (pre ++ String x rest) = Some x.
Proof. induction pre as [|y pre IH]; cbn; [reflexivity | exact IH]. Qed.

Lemma collect_middle (mid : string) :
  forall (pre post acc : string),
    collect (pre ++ mid ++ post)
            (map Z.of_nat (seq (String.length pre) (String.length mid))) acc
    = Ok (acc ++ mid)%string.
Proof.
  induction mid as [|x mid IH]; intros pre post acc.
  - cbn. rewrite GuiFacts.append_nil. reflexivity.
  - cbn [String.length seq map collect]. unfold char_at.
    rewrite Nat2Z.id. cbn [String.append]. rewrite get_middle.
    replace (pre ++ String x (mid ++ post))%string
      with ((pre ++ String x EmptyString) ++ mid ++ post)%string
      by (rewrite GuiFacts.append_assoc; reflexivity).
    replace (S (String.length pre))
      with (String.length (pre ++ String x EmptyString))
      by (rewrite length_append; cbn; lia).
    rewrite IH, GuiFacts.append_assoc. reflexivity.
Qed.

Lemma range_nat (a n : nat) :
  range (Z.of_nat a) (Z.of_nat (a + n)) = map Z.of_nat (seq a n).
Proof.
  unfold range. replace (Z.to_nat (Z.of_nat (a + n) - Z.of_nat a)) with n by lia.
  assert (Hgen : forall m start,
             map (fun k => Z.of_nat a + Z.of_nat k) (seq start m)
             = map Z.of_nat (seq (a + start) m)).
  { induction m as [|m IH]; intros start; cbn [seq map]; [reflexivity|].
    rewrite IH. f_equal; [lia|]. f_equal. f_equal. lia. }
  rewrite Hgen, Nat.add_0_r. reflexivity.
Qed.

(** The two loops cut the expression at the sign. *)
Lemma operands_split (pre post : string) (c : ascii) :
  operands (pre ++ String c post) (Z.of_nat (String.length pre)) = Ok (pre, post).
Proof.
  unfold operands.
  replace (range 0 (Z.of_nat (String.length pre)))
    with (map Z.of_nat (seq 0 (String.length pre)))
    by (symmetry; apply (range_nat 0)).
  pose proof (collect_middle pre EmptyString (String c post) EmptyString) as Hfirst.
  cbn [String.append String.length] in Hfirst. rewrite Hfirst.
  replace (Z.of_nat (String.length pre) + 1)
    with (Z.of_nat (String.length (pre ++ String c EmptyString)))
    by (rewrite length_append; cbn; lia).
  replace (Z.of_nat (String.length (pre ++ String c post)))
    with (Z.of_nat (String.length (pre ++ String c EmptyString) + String.length post))
    by (rewrite !length_append; cbn; lia).
  rewrite range_nat.
  replace (pre ++ String c post)%string
    with ((pre ++ String c EmptyString) ++ post ++ EmptyString)%string
    by (rewrite GuiFacts.append_nil, GuiFacts.append_assoc; reflexivity).
  rewrite collect_middle. reflexivity.
Qed.

Lemma find_sign_none (expression : string) :
  find_sign expression = None <->
  forall c, In c ["+"; "-"; "*"; ":"]%char ->
            ~ In c (list_ascii_of_string expression).
Proof.
  unfold find_sign, find.
  pose proof (find_from_absent "+" expression 0 ltac:(lia)) as Hp.
  pose proof (find_from_absent "-" expression 0 ltac:(lia)) as Hm.
  pose proof (find_from_absent "*" expression 0 ltac:(lia)) as Ht.
  pose proof (find_from_absent ":" expression 0 ltac:(lia)) as Hd.
  destruct (Z.eqb_spec (find_from "+" expression 0) (-1)) as [E1|E1]; cbn [negb].
  2:{ split; [discriminate|]. intros Hall. exfalso. apply E1, Hp, Hall. cbn. auto. }
  destruct (Z.eqb_spec (find_from "-" expression 0) (-1)) as [E2|E2]; cbn [negb].
  2:{ split; [discriminate|]. intros Hall. exfalso. apply E2, Hm, Hall. cbn. auto. }
  destruct (Z.eqb_spec (find_from "*" expression 0) (-1)) as [E3|E3]; cbn [negb].
  2:{ split; [discriminate|]. intros Hall. exfalso. apply E3, Ht, Hall. cbn. auto. }
  destruct (Z.eqb_spec (find_from ":" expression 0) (-1)) as [E4|E4]; cbn [negb].
  2:{ split; [discriminate|]. intros Hall. exfalso. apply E4, Hd, Hall. cbn. auto. }
  split; [|reflexivity]. intros _ c Hc. cbn in Hc.
  destruct Hc as [<-|[<-|[<-|[<-|[]]]]]; [apply Hp | apply Hm | apply Ht | apply Hd];
    assumption.
Qed.

End CalculatorFacts.

Section CalculatorTheorems.

Import Gui.

Context `{Floats}.

(** X20.  The calculator cuts the expression at the first occurrence
    of one sign: of [+] if the expression has one, else of [-], else of
    [*], else of [:].  The first operand is the text before that
    occurrence, in which the sign does not occur, the second the text
    after it, and the three parts make up the expression; so a [+]
    anywhere is the sign even when a [-] stands before it. *)
Theorem calculator_cuts_at_first_sign (expression : string) (sign_id : Z) (sign : ascii) :
  find_sign expression = Some (sign_id, sign) ->
  exists first_number second_number,
    operands expression sign_id = Ok (first_number, second_number) /\
    expression = (first_number ++ String sign second_number)%string /\
    sign_id = Z.of_nat (String.length first_number) /\
    ~ In sign (list_ascii_of_string first_number) /\
    (sign = "+"%char \/
     (sign = "-"%char /\ ~ In "+"%char (list_ascii_of_string expression)) \/
     (sign = "*"%char /\ ~ In "+"%char (list_ascii_of_string expression)
                      /\ ~ In "-"%char (list_ascii_of_string expression)) \/
     (sign = ":"%char /\ ~ In "+"%char (list_ascii_of_string expression)
                      /\ ~ In "-"%char (list_ascii_of_string expression)
                      /\ ~ In "*"%char (list_ascii_of_string expression))).
Proof.
  unfold find_sign, find. intros Hsign.
  assert (Hcut : forall c, find_from c expression 0 <> -1 ->
            exists first_number second_number,
              operands expression (find_from c expression 0)
              = Ok (first_number, second_number) /\
              expression = (first_number ++ String c second_number)%string /\
              find_from c expression 0 = Z.of_nat (String.length first_number) /\
              ~ In c (list_ascii_of_string first_number)).
  { intros c Hc.
    destruct (CalculatorFacts.find_from_present c expression 0 ltac:(lia) Hc)
      as (pre & post & Hexp & Hnot & Hidx).
    exists pre, post. rewrite Hidx, Z.add_0_l.
    split; [|auto]. rewrite Hexp at 1. apply CalculatorFacts.operands_split. }
  pose proof (CalculatorFacts.find_from_absent "+" expression 0 ltac:(lia)) as Hp.
  pose proof (CalculatorFacts.find_from_absent "-" expression 0 ltac:(lia)) as Hm.
  pose proof (CalculatorFacts.find_from_absent "*" expression 0 ltac:(lia)) as Ht.
  destruct (Z.eqb_spec (find_from "+" expression 0) (-1)) as [E1|E1]; cbn [negb] in Hsign.
  2:{ injection Hsign as <- <-.
      destruct (Hcut _ E1) as (a & b & H1 & H2 & H3 & H4). exists a, b. auto 6. }
  destruct (Z.eqb_spec (find_from "-" expression 0) (-1)) as [E2|E2]; cbn [negb] in Hsign.
  2:{ injection Hsign as <- <-.
      destruct (Hcut _ E2) as (a & b & H1 & H2 & H3 & H4). exists a, b.
      repeat split; try assumption. right. left. split; [reflexivity | apply Hp, E1]. }
  destruct (Z.eqb_spec (find_from "*" expression 0) (-1)) as [E3|E3]; cbn [negb] in Hsign.
  2:{ injection Hsign as <- <-.
      destruct (Hcut _ E3) as (a & b & H1 & H2 & H3 & H4). exists a, b.
      repeat split; try assumption. right. right. left.
      split; [reflexivity|]. split; [apply Hp, E1 | apply Hm, E2]. }
  destruct (Z.eqb_spec (find_from ":" expression 0) (-1)) as [E4|E4]; cbn [negb] in Hsign;
    [discriminate|].
  injection Hsign as <- <-.
  destruct (Hcut _ E4) as (a & b & H1 & H2 & H3 & H4). exists a, b.
  repeat split; try assumption. right. right. right.
  split; [reflexivity|]. split; [apply Hp, E1|]. split; [apply Hm, E2 | apply Ht, E3].
Qed.

(** X21.  An expression without any of the four signs makes the
    calculator show the window of the error and then fail: the loop
    that follows reads [sign_id], which no branch has bound, and an
    [UnboundLocalError] leaves the callback. *)
Theorem calculator_without_sign_fails (expression : string) (shown : list window) :
  (forall c, In c ["+"; "-"; "*"; ":"]%char ->
             ~ In c (list_ascii_of_string expression)) ->
  calculator_clicked expression shown
  = (Err (OtherError "UnboundLocalError"), shown ++ [check_data]).
Proof.
  intros Hnone. apply CalculatorFacts.find_sign_none in Hnone.
  unfold calculator_clicked. rewrite Hnone. reflexivity.
Qed.

(** X22.  The calculator does not guard the division.  For an
    expression [a:b] without [+], [-] and [*], whose operands [float]
    accepts, the test of the divisor against 0 never holds, and the
    outcome is that of the division of the floats: its quotient in the
    window of the answer, or its exception, which then leaves the
    callback with no window shown. *)
Theorem calculator_division_is_unguarded (first_number second_number : string)
        (a b : float) (shown : list window) :
  (forall c, In c ["+"; "-"; "*"; ":"]%char ->
             ~ In c (list_ascii_of_string first_number)) ->
  (forall c, In c ["+"; "-"; "*"]%char ->
             ~ In c (list_ascii_of_string second_number)) ->
  py_float first_number = Ok a ->
  py_float second_number = Ok b ->
  calculator_clicked (first_number ++ String ":" second_number) shown
  = match float_div a b with
    | Ok q =>
        (Ok tt,
         shown ++ [{| title := "Результат";
                      text := ("Ответ: " ++ first_number ++ ":" ++ second_number
                                 ++ "=" ++ float_str q)%string |}])
    | Err e => (Err e, shown)
    end.
Proof.
  intros Hfirst Hsecond Ha Hb.
  set (expression := (first_number ++ String ":" second_number)%string).
  assert (Habsent : forall c, In c ["+"; "-"; "*"]%char ->
                              find_from c expression 0 = -1).
  { intros c Hc. apply CalculatorFacts.find_from_absent; [lia|].
    unfold expression. rewrite CalculatorFacts.chars_append.
    cbn [list_ascii_of_string]. intros Hin. apply in_app_or in Hin.
    destruct Hin as [Hin | [Heq | Hin]].
    - apply (Hfirst c); [|exact Hin]. cbn in Hc |- *. tauto.
    - cbn in Hc. destruct Hc as [<-|[<-|[<-|[]]]]; discriminate Heq.
    - apply (Hsecond c Hc Hin). }
  assert (Hcolon : find_from ":" expression 0 = Z.of_nat (String.length first_number)).
  { assert (Hfound : find_from ":" expression 0 <> -1).
    { intros Hno. apply CalculatorFacts.find_from_absent in Hno; [|lia].
      apply Hno. unfold expression. rewrite CalculatorFacts.chars_append.
      apply in_or_app. right. cbn. left. reflexivity. }
    destruct (CalculatorFacts.find_from_present ":" expression 0 ltac:(lia) Hfound)
      as (pre & post & Hexp & Hnot & Hidx).
    rewrite Hidx, Z.add_0_l. f_equal.
    assert (Hpre : pre = first_number).
    { unfold expression in Hexp. clear - Hexp Hnot Hfirst.
      assert (Hc : ~ In ":"%char (list_ascii_of_string first_number))
        by (apply Hfirst; cbn; auto).
      revert pre Hexp Hnot. induction first_number as [|x f IH]; intros pre Hexp Hnot.
      - destruct pre as [|y pre]; [reflexivity|].
        cbn in Hexp. injection Hexp as <- _. exfalso. apply Hnot. cbn. auto.
      - destruct pre as [|y pre].
        + cbn in Hexp. injection Hexp as -> _. exfalso. apply Hc. cbn. auto.
        + cbn in Hexp. injection Hexp as <- Hrest. f_equal.
          apply IH.
          * intros c Hin Hin'. apply (Hfirst c Hin). cbn. right. exact Hin'.
          * intros Hin. apply Hc. cbn. right. exact Hin.
          * exact Hrest.
          * intros Hin. apply Hnot. cbn. right. exact Hin. }
    rewrite Hpre. reflexivity. }
  unfold calculator_clicked, find_sign, find.
  rewrite (Habsent "+"%char), (Habsent "-"%char), (Habsent "*"%char) by (cbn; auto).
  cbn [Z.eqb negb Pos.eqb].
  destruct (Z.eqb_spec (find_from ":" expression 0) (-1)) as [E|E]; [lia|].
  cbn [negb]. rewrite Hcolon.
  unfold expression. unfold Eff.bind at 1. unfold Eff.lift at 1.
  rewrite CalculatorFacts.operands_split.
  cbn [Ascii.eqb Bool.eqb]. unfold str_equals_int.
  unfold Eff.bind, Eff.lift, Eff.ret, show. rewrite Ha, Hb.
  destruct (float_div a b); reflexivity.
Qed.

End CalculatorTheorems.

(** * The further properties at concrete inputs *)

Lemma recv_exactly_terminates_witness :
  exists bs s',
    _recv_exactly 8 8 (new_client 0%nat) = (Ret bs, s') /\ len bs = 8.
Proof.
  destruct (recv_exactly_terminates (W := nat) (fun _ => True) (new_client 0%nat) 8 8)
    as (bs & s' & Hrun & Hlen & _).
  - intros w size _ Hsize.
    exists (repeat x00 (Z.to_nat (Z.min size 3))), (S w).
    split.
    + cbn [_recv Drip.client]. unfold Drip.read.
      destruct (Z.ltb_spec size 0); [lia | reflexivity].
    + split; [|exact I]. unfold len. rewrite repeat_length. lia.
  - lia.
  - exact I.
  - cbn. lia.
  - exists bs, s'. auto.
Defined.

Lemma recv_exactly_reassembles_witness :
  let bs := Fixtures.frame_of OP_PING (JDict []) in
  let s := new_client (Script.quiet [firstn 1 bs; skipn 1 bs; [x07; x07]]) in
  exists s', _recv_exactly 100 (len bs) s = (Ret bs, s') /\ feeds (impl s') [x07; x07].
Proof.
  intros bs s.
  assert (Hfeeds : feeds (impl s) (bs ++ [x07; x07])).
  { apply (ScriptFacts.feeds_inbox (impl s)).
    repeat constructor; discriminate. }
  destruct (recv_exactly_reassembles s bs [x07; x07] 100 Hfeeds ltac:(cbn; lia))
    as (s' & Hrun & Hrest & _).
  exists s'. auto.
Defined.

Lemma recv_twice_in_order_witness :
  let s := new_client (Script.quiet [ Fixtures.frame_of OP_FRAME Fixtures.ready;
                                      Fixtures.frame_of OP_PING (JDict []) ]) in
  exists s1 s2,
    recv 200 s = (Ret (OP_FRAME, Fixtures.ready), s1) /\
    recv 200 s1 = (Ret (OP_PING, JDict []), s2) /\
    feeds (impl s2) [].
Proof.
  intros s.
  apply (recv_twice_in_order OP_FRAME OP_PING
           (MiniJson.encode (MiniJson.dumps Fixtures.ready))
           (MiniJson.encode (MiniJson.dumps (JDict []))) []
           (MiniJson.dumps Fixtures.ready) (MiniJson.dumps (JDict []))
           Fixtures.ready (JDict []) s 200);
    try reflexivity.
  - apply (ScriptFacts.feeds_inbox (impl s)). repeat constructor; discriminate.
  - vm_compute. lia.
Defined.

Lemma recv_empty_payload_raises_witness :
  let s := new_client (Script.quiet [Struct.le32 OP_PING ++ Struct.le32 0]) in
  exists s', recv 8 s = (Raise JSONDecodeError, s') /\ feeds (impl s') [].
Proof.
  intros s.
  destruct (recv_empty_payload_raises OP_PING [] EmptyString JSONDecodeError s 8)
    as (s' & Hrecv & Hrest & _); try reflexivity.
  - apply (ScriptFacts.feeds_inbox (impl s)). repeat constructor; discriminate.
  - exists s'. auto.
Defined.

Lemma recv_after_decode_error_witness :
  let s := new_client (Script.quiet [ Struct.le32 OP_FRAME ++ Struct.le32 1 ++ [xff];
                                      Fixtures.frame_of OP_FRAME Fixtures.ready ]) in
  exists s1 s2,
    recv 200 s = (Raise UnicodeDecodeError, s1) /\
    recv 200 s1 = (Ret (OP_FRAME, Fixtures.ready), s2) /\
    feeds (impl s2) [].
Proof.
  intros s.
  apply (recv_after_decode_error OP_FRAME OP_FRAME [xff]
           (MiniJson.encode (MiniJson.dumps Fixtures.ready)) [] UnicodeDecodeError
           (MiniJson.dumps Fixtures.ready) Fixtures.ready s 200);
    try reflexivity.
  - left. reflexivity.
  - apply (ScriptFacts.feeds_inbox (impl s)). repeat constructor; discriminate.
  - vm_compute. lia.
Defined.

Lemma send_out_of_range_writes_nothing_witness :
  let s := new_client (Script.quiet []) in
  (exists msg, send (JDict []) (-1) s = (Err (StructError msg), s)) /\
  (exists msg, send (JDict []) (2 ^ 32) s = (Err (StructError msg), s)).
Proof.
  intros s. split.
  - apply (send_out_of_range_writes_nothing (JDict []) (-1) s). left. lia.
  - apply (send_out_of_range_writes_nothing (JDict []) (2 ^ 32) s). right. left. lia.
Defined.

Lemma init_succeeds_when_ready_witness :
  let answer := Fixtures.frame_of OP_FRAME Fixtures.ready in
  let s := new_client (Script.quiet [answer]) in
  exists s',
    __init__ 200 Fixtures.app_id s = (Ret tt, s') /\
    client_id s' = Some Fixtures.app_id /\
    written (calls s')
    = written (calls s) ++ [Fixtures.frame_of OP_HANDSHAKE (hello Fixtures.app_id)].
Proof.
  intros answer s.
  destruct (init_succeeds_when_ready 200 Fixtures.app_id s None
              (Script.quiet [answer])
              (snd (Script.write (Fixtures.frame_of OP_HANDSHAKE (hello Fixtures.app_id))
                      (Script.quiet [answer])))
              (Fixtures.frame_of OP_HANDSHAKE (hello Fixtures.app_id))
              (MiniJson.encode (MiniJson.dumps Fixtures.ready)) []
              (MiniJson.dumps Fixtures.ready) Fixtures.ready)
    as (s' & Hrun & Hid & Hw & _); try reflexivity.
  - apply (ScriptFacts.feeds_inbox
             (snd (Script.write (Fixtures.frame_of OP_HANDSHAKE (hello Fixtures.app_id))
                     (Script.quiet [answer])))).
    repeat constructor; discriminate.
  - vm_compute. lia.
  - exists s'. auto.
Defined.

Lemma init_returns_only_when_ready_witness :
  let s := new_client (Script.quiet [Fixtures.frame_of OP_FRAME Fixtures.ready]) in
  fst (__init__ 200 Fixtures.app_id s) = Ret tt /\
  close_calls (calls (snd (__init__ 200 Fixtures.app_id s))) = close_calls (calls s).
Proof.
  intros s.
  assert (Hret : fst (__init__ 200 Fixtures.app_id s) = Ret tt)
    by (vm_compute; reflexivity).
  split; [exact Hret|].
  destruct (init_returns_only_when_ready 200 Fixtures.app_id s Hret)
    as (v & data & _ & _ & _ & _ & _ & Hclose).
  exact Hclose.
Defined.

Lemma win_connect_first_openable_witness :
  Win._connect Scenes.seventh_pipe =
  (Ok None,
   {| Win._f := Some 3%nat; Win.path := Some (Win.candidate 7);
      Win.sys := Win.sys Scenes.seventh_pipe;
      Win.probes := map (fun i => ProbeOpen (Win.candidate i)) (seq 0 8) |}).
Proof.
  apply (win_connect_first_openable Scenes.seventh_pipe 7 3
           (Win.sys Scenes.seventh_pipe) (Win.sys Scenes.seventh_pipe)).
  - lia.
  - cbn [seq pipes_refused].
    repeat (exists "No such file or directory", (Win.sys Scenes.seventh_pipe);
            split; [reflexivity|]).
    reflexivity.
  - reflexivity.
Defined.

Lemma win_connect_other_error_escapes_witness :
  Win._connect Scenes.interrupted =
  (Err (OtherError "KeyboardInterrupt"),
   {| Win._f := None; Win.path := None; Win.sys := 3%nat;
      Win.probes := map (fun i => ProbeOpen (Win.candidate i)) (seq 0 3) |}).
Proof.
  apply (win_connect_other_error_escapes Scenes.interrupted 2
           (OtherError "KeyboardInterrupt") 2%nat 3%nat).
  - lia.
  - cbn [seq pipes_refused].
    exists "No such file or directory", 1%nat. split; [reflexivity|].
    exists "No such file or directory", 2%nat. split; [reflexivity|].
    reflexivity.
  - reflexivity.
  - reflexivity.
Defined.

Lemma unix_connect_first_listener_witness :
  exists y ps,
    Unix._connect Scenes.seventh_socket =
    (Ok None,
     {| Unix._sock := Some 3%nat; Unix.sys := y;
        Unix.probes := ps ++ [ ProbeExists "/run/user/1000/discord-ipc-7";
                               ProbeConnect "/run/user/1000/discord-ipc-7" ] |}) /\
    FakeSys.connected y = true /\
    ps = [ ProbeExists "/run/user/1000/discord-ipc-0";
           ProbeExists "/run/user/1000/discord-ipc-1";
           ProbeExists "/run/user/1000/discord-ipc-2";
           ProbeExists "/run/user/1000/discord-ipc-3";
           ProbeConnect "/run/user/1000/discord-ipc-3";
           ProbeExists "/run/user/1000/discord-ipc-4";
           ProbeExists "/run/user/1000/discord-ipc-5";
           ProbeExists "/run/user/1000/discord-ipc-6" ].
Proof.
  set (y0 := Unix.sys Scenes.seventh_socket).
  set (y2 := snd (FakeSys.connect 3 "/run/user/1000/discord-ipc-7" y0)).
  set (ps := [ ProbeExists "/run/user/1000/discord-ipc-0";
               ProbeExists "/run/user/1000/discord-ipc-1";
               ProbeExists "/run/user/1000/discord-ipc-2";
               ProbeExists "/run/user/1000/discord-ipc-3";
               ProbeConnect "/run/user/1000/discord-ipc-3";
               ProbeExists "/run/user/1000/discord-ipc-4";
               ProbeExists "/run/user/1000/discord-ipc-5";
               ProbeExists "/run/user/1000/discord-ipc-6" ]).
  exists y2, ps. split; [|split; [reflexivity | reflexivity]].
  apply (unix_connect_first_listener Scenes.seventh_socket 7 3
           "/run/user/1000/discord-ipc-7" y0 y0 y2 ps).
  - reflexivity.
  - lia.
  - cbn [seq].
    eapply passed_absent; [reflexivity | reflexivity |].
    eapply passed_absent; [reflexivity | reflexivity |].
    eapply passed_absent; [reflexivity | reflexivity |].
    eapply (passed_refused _ _ (y1 := y0) (msg := "Connection refused"));
      [reflexivity | reflexivity | reflexivity |].
    eapply passed_absent; [reflexivity | reflexivity |].
    eapply passed_absent; [reflexivity | reflexivity |].
    eapply passed_absent; [reflexivity | reflexivity |].
    apply passed_nil.
  - reflexivity.
  - reflexivity.
  - reflexivity.
Defined.


(** The publisher on a broken pipe: the first [set_activity] fails and
    ends the loop. *)
Lemma publish_loop_never_returns_witness :
  let s := new_client (Script.broken (OSError "Broken pipe") []) in
  fst (publish_loop 5 (fun _ => Fixtures.activity) 0 s) = Raise (OSError "Broken pipe") /\
  fst (publish_loop 5 (fun _ => Fixtures.activity) 0 s) <> Ret tt /\
  exists k sk,
    (k < 5)%nat /\
    set_activity Fixtures.activity sk
    = (Err (OSError "Broken pipe"),
       snd (publish_loop 5 (fun _ => Fixtures.activity) 0 s)).
Proof.
  intros s.
  assert (Hraise : fst (publish_loop 5 (fun _ => Fixtures.activity) 0 s)
                   = Raise (OSError "Broken pipe")) by reflexivity.
  destruct (publish_loop_never_returns 5 (fun _ => Fixtures.activity) 0 s)
    as (Hnot & Hstop & _).
  split; [exact Hraise|]. split; [exact Hnot|].
  destruct (Hstop _ Hraise) as (k & sk & Hk & _ & Hfail).
  exists k, sk. auto.
Defined.

Lemma pipe_pattern_follows_environment_witness :
  Unix._get_pipe_pattern Scenes.seventh_socket
  = (Ok "/run/user/1000/discord-ipc-{}", Scenes.seventh_socket) /\
  Unix._get_pipe_pattern (impl Fixtures.unheard)
  = (Ok "/tmp/discord-ipc-{}", impl Fixtures.unheard).
Proof.
  split.
  - apply (proj1 (pipe_pattern_follows_environment Scenes.seventh_socket)
             [] ["TMPDIR"; "TMP"; "TEMP"] "XDG_RUNTIME_DIR" "/run/user/1000").
    + reflexivity.
    + intros key' [].
    + reflexivity.
    + discriminate.
  - apply (proj2 (pipe_pattern_follows_environment (impl Fixtures.unheard))).
    intros key _. left. reflexivity.
Defined.

Lemma save_keeps_settings_well_formed_witness :
  Forall (fun kv => is_correct_hex (snd kv) = 1) default_config /\
  save Scenes.typed default_config
  = [ ("background", "#123456"); ("background_text", "#FFFFFF");
      ("foreground_text", "#abc"); ("background_button", "#FFFFFF");
      ("foreground_button", "#000000"); ("background_entry", "#FFF") ] /\
  Forall (fun kv => is_correct_hex (snd kv) = 1) (save Scenes.typed default_config).
Proof.
  assert (Hvalid : Forall (fun kv => is_correct_hex (snd kv) = 1) default_config)
    by (repeat constructor).
  split; [exact Hvalid|]. split; [reflexivity|].
  exact (proj1 (save_keeps_settings_well_formed Scenes.typed default_config
                  Hvalid eq_refl)).
Defined.

Lemma dividers_are_listed_witness :
  exists ds,
    Gui.get_dividers_clicked "12" []
    = (Ok tt, [{| Gui.title := "Результат"; Gui.text := Gui.listing ds |}]) /\
    (forall i, In i ds <-> 1 <= i <= 12 /\ (i | 12)) /\
    Gui.listing ds = "1;2;3;4;6;12;".
Proof.
  destruct (@dividers_are_listed Gui.decimal "12" 12 [] eq_refl) as (ds & Hrun & Hmem & _).
  exists ds. split; [exact Hrun|]. split; [exact Hmem|].
  assert (Hcompute : Gui.get_dividers_clicked "12" []
                     = (Ok tt, [{| Gui.title := "Результат";
                                   Gui.text := "1;2;3;4;6;12;" |}]))
    by (vm_compute; reflexivity).
  rewrite Hrun in Hcompute. cbn [app] in Hcompute. congruence.
Defined.

Lemma simple_number_verdict_witness :
  Gui.simple_number_clicked "1" []
  = (Ok tt, [{| Gui.title := "Результат";
                Gui.text := "Введённое число - простое." |}]).
Proof.
  exact (proj2 (@simple_number_verdict Gui.decimal "1" 1 [] eq_refl) ltac:(lia)).
Defined.


Lemma calculator_cuts_at_first_sign_witness :
  Gui.find_sign "-5+3" = Some (2, "+"%char) /\
  exists first_number second_number,
    Gui.operands "-5+3" 2 = Ok (first_number, second_number) /\
    "-5+3" = (first_number ++ String "+" second_number)%string.
Proof.
  split; [reflexivity|].
  destruct (calculator_cuts_at_first_sign "-5+3" 2 "+"%char eq_refl)
    as (a & b & Hops & Hcut & _).
  exists a, b. auto.
Defined.

Lemma calculator_without_sign_fails_witness :
  Gui.calculator_clicked "42" []
  = (Err (OtherError "UnboundLocalError"), [Gui.check_data]).
Proof.
  apply (calculator_without_sign_fails "42" []).
  intros c Hc Hin. cbn in Hc, Hin.
  destruct Hc as [<-|[<-|[<-|[<-|[]]]]];
    destruct Hin as [E|[E|[]]]; discriminate E.
Defined.

Lemma calculator_division_is_unguarded_witness :
  Gui.calculator_clicked "5:0" [] = (Err (OtherError "ZeroDivisionError"), []).
Proof.
  apply (@calculator_division_is_unguarded Gui.whole "5" "0" 5 0 []).
  - intros c Hc Hin. cbn in Hc, Hin.
    destruct Hc as [<-|[<-|[<-|[<-|[]]]]]; destruct Hin as [E|[]]; discriminate E.
  - intros c Hc Hin. cbn in Hc, Hin.
    destruct Hc as [<-|[<-|[<-|[]]]]; destruct Hin as [E|[]]; discriminate E.
  - reflexivity.
  - reflexivity.
Defined.
